(** * dev-agent-harness: the task orchestration core

    A shallow embedding of the TypeScript sources of the harness: the
    structured-output extractor of the feature adder and of the feature
    atomizer ([parseFeature], [parseFeatures], [validateFeature]), the
    durable task store ([ContextBuilder]), the call of the collaborator
    ([runAgentQuery]), the session executor ([CodingAgent.runSession])
    and the [loop] command of the CLI.

    The extractor works on untyped data: JSON values as [JSON.parse]
    builds them, with the truthiness and property reads of JavaScript,
    and the program's regular expressions run by a backtracking matcher.
    Text is a sequence of 8-bit characters.  Every character the program
    itself looks at (braces, brackets, quotes, backticks, the JSON
    punctuation) is ASCII; [trim] and the class [\s] cover the six ASCII
    white-space characters, and a [\uXXXX] escape above 127 is kept as
    the UTF-8 bytes of its code unit.

    The store and the agents work on typed data, the interfaces of
    [types/index.ts] as records.  The workspace is a record of the files
    the program names and of what else it observes; a computation is a
    function from a world to a world and a result or an exception; the
    collaborator is an arbitrary function.  Console output and the
    observer callbacks are left out.

    Around this core the development embeds the progress statistics of
    [ContextBuilder], the handlers of the [run], [reset] and [add-*]
    commands, the check of the credentials and the [OutputFormatter]
    through which the commands print the collaborator's stream. *)

From Stdlib Require Import String Ascii List ZArith Bool Arith Lia.
From Stdlib Require Import DecimalString.
Import ListNotations.

Set Warnings "-register-all".

Local Open Scope string_scope.
Local Open Scope list_scope.
Local Open Scope nat_scope.

(* ===================================================================== *)
(** ** Results of JavaScript calls *)
(* ===================================================================== *)

(** A call either returns a value or throws; [Thrown] carries the message
    ([error.message], or [String(error)] for a thrown non-Error). *)
Inductive outcome (A : Type) : Type :=
| Returned (a : A)
| Thrown (message : string).
Arguments Returned {A} a.
Arguments Thrown {A} message.

(* ===================================================================== *)
(** ** Text *)
(* ===================================================================== *)

Module Text.

Definition text := list ascii.

Definition of_string (s : string) : text := list_ascii_of_string s.
Definition to_string (t : text) : string := string_of_list_ascii t.

(** The double quote and the line feed, which a literal cannot hold
    comfortably. *)
Definition dquote : ascii := "034"%char.
Definition lf : ascii := "010"%char.

(** [q s] is [s] with every apostrophe replaced by a double quote and
    every vertical bar by a line feed: a readable way to write JSON
    samples. *)
Definition q (s : string) : string :=
  to_string
    (map (fun c => if Ascii.eqb c "'"%char then dquote
                   else if Ascii.eqb c "|"%char then lf else c)
         (of_string s)).

(** White space of [String.prototype.trim] and of the class [\s]:
    TAB, LF, VT, FF, CR and SPACE. *)
Definition is_space (c : ascii) : bool :=
  let n := nat_of_ascii c in
  ((9 <=? n) && (n <=? 13)) || (n =? 32).

Fixpoint trimStart (t : text) : text :=
  match t with
  | c :: r => if is_space c then trimStart r else t
  | [] => []
  end.

Definition trimEnd (t : text) : text := rev (trimStart (rev t)).

(** [output.trim()] *)
Definition trim (t : text) : text := trimEnd (trimStart t).

(** [t.startsWith(p)] *)
Fixpoint startsWith (p t : text) : bool :=
  match p, t with
  | [], _ => true
  | x :: p', y :: t' => Ascii.eqb x y && startsWith p' t'
  | _ :: _, [] => false
  end.

(** [t.indexOf(p)], with [None] for [-1]. *)
Fixpoint indexOf (p t : text) : option nat :=
  if startsWith p t then Some 0
  else match t with
       | [] => None
       | _ :: r => option_map S (indexOf p r)
       end.

(** [t.substring(i, j)] for [0 <= i], [0 <= j] within the text;
    [substring] swaps its arguments when [i > j]. *)
Definition substring (i j : nat) (t : text) : text :=
  let lo := Nat.min i j in
  let hi := Nat.max i j in
  firstn (hi - lo) (skipn lo t).

(** [t.split('\n')]: always at least one piece. *)
Fixpoint split_lines_aux (cur : text) (t : text) : list text :=
  match t with
  | [] => [rev cur]
  | c :: r =>
      if Ascii.eqb c lf then rev cur :: split_lines_aux [] r
      else split_lines_aux (c :: cur) r
  end.

Definition split_lines (t : text) : list text := split_lines_aux [] t.

(** [pieces.join('\n')] *)
Fixpoint join_lines (ls : list text) : text :=
  match ls with
  | [] => []
  | [l] => l
  | l :: r => l ++ lf :: join_lines r
  end.

End Text.
Import Text.

(* ===================================================================== *)
(** ** JSON values and [JSON.parse] *)
(* ===================================================================== *)

Module Json.

(** A JSON number literal, kept exactly: the value is
    [(-1)^negative * mantissa * 10^exponent]. *)
Record number := { negative : bool; mantissa : N; exponent : Z }.

Inductive json : Type :=
| JNull
| JBool (b : bool)
| JNumber (n : number)
| JString (s : string)
| JArray (items : list json)
| JObject (members : list (string * json)).

(** The double nearest to a decimal literal is [0] exactly when the
    literal's magnitude is at most [2^-1075], half the least
    subnormal. *)
Definition number_is_zero (n : number) : bool :=
  (N.eqb (mantissa n) 0)
  || (Z.ltb (exponent n) 0
      && Z.leb (Z.of_N (mantissa n) * 2 ^ 1075) (10 ^ (- exponent n)))%Z.

(** A property read [v.k] may give [undefined]: [None]. *)
Definition jsvalue := option json.

(** ToBoolean. *)
Definition truthy (v : jsvalue) : bool :=
  match v with
  | None => false
  | Some JNull => false
  | Some (JBool b) => b
  | Some (JNumber n) => negb (number_is_zero n)
  | Some (JString s) => negb (String.eqb s "")
  | Some (JArray _) => true
  | Some (JObject _) => true
  end.

(** [JSON.parse] keeps the last of several members with one key. *)
Fixpoint lookup (k : string) (ms : list (string * json)) : jsvalue :=
  match ms with
  | [] => None
  | (k', v) :: r =>
      match lookup k r with
      | Some w => Some w
      | None => if String.eqb k' k then Some v else None
      end
  end.

(** [v.k] for one of the keys the program reads ([id], [title],
    [description], [acceptance_criteria], [passes]): reading a property
    of [null] throws a TypeError, an object gives its member, and any
    other parsed value has no such property. *)
Definition prop (v : json) (k : string) : outcome jsvalue :=
  match v with
  | JNull =>
      Thrown ("Cannot read properties of null (reading '" ++ k ++ "')")%string
  | JObject ms => Returned (lookup k ms)
  | _ => Returned None
  end.

(** [Array.isArray(v)] *)
Definition isArray (v : jsvalue) : bool :=
  match v with Some (JArray _) => true | _ => false end.

(** [v.length > 0] for an array [v]. *)
Definition nonempty_array (v : jsvalue) : bool :=
  match v with Some (JArray (_ :: _)) => true | _ => false end.

(** [typeof v === 'boolean'] *)
Definition is_boolean (v : jsvalue) : bool :=
  match v with Some (JBool _) => true | _ => false end.

(** *** The parser *)

Definition is_json_ws (c : ascii) : bool :=
  let n := nat_of_ascii c in
  (n =? 32) || (n =? 9) || (n =? 10) || (n =? 13).

Fixpoint skip_ws (t : text) : text :=
  match t with
  | c :: r => if is_json_ws c then skip_ws r else t
  | [] => []
  end.

Definition digit_of (c : ascii) : option N :=
  let n := nat_of_ascii c in
  if (48 <=? n) && (n <=? 57) then Some (N.of_nat (n - 48)) else None.

Definition hex_of (c : ascii) : option N :=
  let n := nat_of_ascii c in
  if (48 <=? n) && (n <=? 57) then Some (N.of_nat (n - 48))
  else if (65 <=? n) && (n <=? 70) then Some (N.of_nat (n - 55))
  else if (97 <=? n) && (n <=? 102) then Some (N.of_nat (n - 87))
  else None.

(** The longest run of digits at the head of [t], accumulated onto
    [acc]; also the number of digits read. *)
Fixpoint digits (acc : N) (count : nat) (t : text) : N * nat * text :=
  match t with
  | c :: r =>
      match digit_of c with
      | Some d => digits (acc * 10 + d) (S count) r
      | None => (acc, count, t)
      end
  | [] => (acc, count, [])
  end.

(** [eat c t] is the rest of [t] after its first character, when that
    is [c]. *)
Definition eat (c : ascii) (t : text) : option text :=
  match t with
  | x :: r => if Ascii.eqb x c then Some r else None
  | [] => None
  end.

(** A number literal: an optional minus sign; then a single zero, or a
    nonzero digit and any digits; then optionally a point and at least
    one digit; then optionally [e] or [E], an optional sign and at
    least one digit. *)
Definition parse_number (t : text) : option (number * text) :=
  let (neg, t1) :=
    match eat "-"%char t with
    | Some r => (true, r)
    | None => (false, t)
    end in
  let int_part :=
    match eat "0"%char t1 with
    | Some r => Some (0%N, r)
    | None =>
        match digits 0 0 t1 with
        | (_, O, _) => None
        | (m, S _, r) => Some (m, r)
        end
    end in
  match int_part with
  | None => None
  | Some (m, t2) =>
      let frac_part :=
        match eat "."%char t2 with
        | Some r =>
            match digits m 0 r with
            | (_, O, _) => None
            | (m', S k, r') => Some (m', S k, r')
            end
        | None => Some (m, O, t2)
        end in
      match frac_part with
      | None => None
      | Some (m', k, t3) =>
          let exp_part :=
            match eat "e"%char t3, eat "E"%char t3 with
            | Some r, _ | None, Some r =>
                let (sign, r1) :=
                  match eat "-"%char r, eat "+"%char r with
                  | Some r', _ => ((-1)%Z, r')
                  | None, Some r' => (1%Z, r')
                  | None, None => (1%Z, r)
                  end in
                match digits 0 0 r1 with
                | (_, O, _) => None
                | (x, S _, r2) => Some ((sign * Z.of_N x)%Z, r2)
                end
            | None, None => Some (0%Z, t3)
            end in
          match exp_part with
          | None => None
          | Some (x, t4) =>
              Some ({| negative := neg; mantissa := m';
                       exponent := (x - Z.of_nat k)%Z |}, t4)
          end
      end
  end.

(** The characters of a [\uXXXX] code unit: itself below 128, else its
    UTF-8 bytes. *)
Definition chars_of_code_unit (u : N) : text :=
  let byte (n : N) := ascii_of_N n in
  (if u <? 128 then [byte u]
   else if u <? 2048 then
     [byte (192 + u / 64); byte (128 + u mod 64)]
   else
     [byte (224 + u / 4096); byte (128 + (u / 64) mod 64);
      byte (128 + u mod 64)])%N.

(** The body of a string after its opening quote, up to and including
    the closing quote. *)
Fixpoint parse_string_body (acc : text) (t : text) : option (string * text) :=
  match t with
  | [] => None
  | c :: r =>
      if Ascii.eqb c dquote then Some (to_string (rev acc), r)
      else if Ascii.eqb c "\"%char then
        match r with
        | e :: r' =>
            let simple (x : ascii) := parse_string_body (x :: acc) r' in
            if Ascii.eqb e dquote then simple dquote
            else if Ascii.eqb e "\"%char then simple "\"%char
            else if Ascii.eqb e "/"%char then simple "/"%char
            else if Ascii.eqb e "b"%char then simple "008"%char
            else if Ascii.eqb e "f"%char then simple "012"%char
            else if Ascii.eqb e "n"%char then simple "010"%char
            else if Ascii.eqb e "r"%char then simple "013"%char
            else if Ascii.eqb e "t"%char then simple "009"%char
            else if Ascii.eqb e "u"%char then
              match r' with
              | h1 :: h2 :: h3 :: h4 :: r'' =>
                  match hex_of h1, hex_of h2, hex_of h3, hex_of h4 with
                  | Some a, Some b, Some c', Some d =>
                      parse_string_body
                        (rev (chars_of_code_unit
                                (((a * 16 + b) * 16 + c') * 16 + d)%N)
                         ++ acc) r''
                  | _, _, _, _ => None
                  end
              | _ => None
              end
            else None
        | [] => None
        end
      else if nat_of_ascii c <? 32 then None
      else parse_string_body (c :: acc) r
  end.

(** The grammar, with the recursive calls left open: [elements] parses
    the elements of an array after its bracket, [members] the members of
    an object after its brace, [value] one value. *)
Section Grammar.
Variable value : text -> option (json * text).
Variable elements : text -> option (list json * text).
Variable members : text -> option (list (string * json) * text).

(** One value and what follows it. *)
Definition value_step (t : text) : option (json * text) :=
  match skip_ws t with
  | [] => None
  | c :: r =>
      if Ascii.eqb c dquote then
        match parse_string_body [] r with
        | Some (s, r') => Some (JString s, r')
        | None => None
        end
      else if Ascii.eqb c "["%char then
        match eat "]"%char (skip_ws r) with
        | Some r' => Some (JArray [], r')
        | None =>
            match elements r with
            | Some (vs, r') => Some (JArray vs, r')
            | None => None
            end
        end
      else if Ascii.eqb c "{"%char then
        match eat "}"%char (skip_ws r) with
        | Some r' => Some (JObject [], r')
        | None =>
            match members r with
            | Some (ms, r') => Some (JObject ms, r')
            | None => None
            end
        end
      else if startsWith (of_string "null") (c :: r) then
        Some (JNull, skipn 4 (c :: r))
      else if startsWith (of_string "true") (c :: r) then
        Some (JBool true, skipn 4 (c :: r))
      else if startsWith (of_string "false") (c :: r) then
        Some (JBool false, skipn 5 (c :: r))
      else
        match parse_number (c :: r) with
        | Some (n, r') => Some (JNumber n, r')
        | None => None
        end
  end.

(** The elements of an array, up to and including its closing bracket. *)
Definition elements_step (t : text) : option (list json * text) :=
  match value t with
  | None => None
  | Some (v, r) =>
      match eat ","%char (skip_ws r), eat "]"%char (skip_ws r) with
      | Some r', _ =>
          match elements r' with
          | Some (vs, r'') => Some (v :: vs, r'')
          | None => None
          end
      | None, Some r' => Some ([v], r')
      | None, None => None
      end
  end.

(** The members of an object, up to and including its closing brace. *)
Definition members_step (t : text) : option (list (string * json) * text) :=
  match skip_ws t with
  | c :: r =>
      if Ascii.eqb c dquote then
        match parse_string_body [] r with
        | None => None
        | Some (k, r1) =>
            match eat ":"%char (skip_ws r1) with
            | Some r2 =>
                match value r2 with
                | None => None
                | Some (v, r3) =>
                    match eat ","%char (skip_ws r3),
                          eat "}"%char (skip_ws r3) with
                    | Some r4, _ =>
                        match members r4 with
                        | Some (ms, r5) => Some ((k, v) :: ms, r5)
                        | None => None
                        end
                    | None, Some r4 => Some ([(k, v)], r4)
                    | None, None => None
                    end
                end
            | None => None
            end
        end
      else None
  | [] => None
  end.
End Grammar.

(** The parser with [fuel] recursive calls in a row at most. *)
Fixpoint parse_value (fuel : nat) (t : text) : option (json * text) :=
  match fuel with
  | O => None
  | S fuel' => value_step (parse_elements fuel') (parse_members fuel') t
  end
with parse_elements (fuel : nat) (t : text) : option (list json * text) :=
  match fuel with
  | O => None
  | S fuel' => elements_step (parse_value fuel') (parse_elements fuel') t
  end
with parse_members (fuel : nat) (t : text)
     : option (list (string * json) * text) :=
  match fuel with
  | O => None
  | S fuel' => members_step (parse_value fuel') (parse_members fuel') t
  end.

(** [JSON.parse(t)]: [None] when it throws a SyntaxError.  Between two
    recursive calls in a row but one a character is read, so that twice
    the length of the text, and two, is fuel enough
    ([parse_value_fuel_enough] below). *)
Definition parse (t : text) : option json :=
  match parse_value (2 * length t + 2) t with
  | Some (v, r) =>
      match skip_ws r with
      | [] => Some v
      | _ :: _ => None
      end
  | None => None
  end.

End Json.
Import Json.

(* ===================================================================== *)
(** ** Regular expressions *)
(* ===================================================================== *)

Module Regex.

(** One-character matchers. *)
Inductive cls : Type :=
| Any                       (* [\s\S] *)
| Space                     (* \s *)
| Lit (c : ascii)           (* the character itself *)
| NoneOf (cs : list ascii)  (* [^...] *).

(** The fragment of the JavaScript syntax the program's patterns use.
    The patterns have at most one capturing group, [Capture]; a
    non-capturing group [(?:r)] is [r] itself. *)
Inductive re : Type :=
| Chr (c : cls)
| Seq (rs : list re)
| Star (a : re)             (* a*   greedy *)
| LazyStar (a : re)         (* a*?  lazy *)
| Opt (a : re)              (* a?   greedy *)
| Capture (a : re)          (* (a)  group 1 *).

Definition cls_matches (c : cls) (x : ascii) : bool :=
  match c with
  | Any => true
  | Space => is_space x
  | Lit y => Ascii.eqb x y
  | NoneOf cs => negb (existsb (Ascii.eqb x) cs)
  end.

(** A literal run of characters. *)
Definition str (s : string) : re := Seq (map (fun c => Chr (Lit c)) (of_string s)).

Section Matcher.
Context {A : Type}.

(** The backtracking matcher of ECMAScript, in continuation-passing
    style: [run r t cap k] matches [r] at the head of [t] and hands
    the rest of the text and the capture to [k]; the first
    alternative for which [k] succeeds wins.  An iteration of a star
    that consumes nothing is rejected, as the language specifies, so
    the number of iterations is at most the length of the text. *)
Fixpoint run (r : re) (t : text) (cap : option text)
         (k : text -> option text -> option A) {struct r} : option A :=
  match r with
  | Chr c =>
      match t with
      | x :: t' => if cls_matches c x then k t' cap else None
      | [] => None
      end
  | Seq rs =>
      (fix seq (rs : list re) (t : text) (cap : option text)
           (k : text -> option text -> option A) {struct rs} : option A :=
         match rs with
         | [] => k t cap
         | r1 :: rs' => run r1 t cap (fun t' cap' => seq rs' t' cap' k)
         end) rs t cap k
  | Star a =>
      (fix loop (n : nat) (t : text) (cap : option text) {struct n}
         : option A :=
         match n with
         | O => k t cap
         | S n' =>
             match run a t cap
                     (fun t' cap' =>
                        if length t' <? length t then loop n' t' cap'
                        else None) with
             | Some x => Some x
             | None => k t cap
             end
         end) (S (length t)) t cap
  | LazyStar a =>
      (fix loop (n : nat) (t : text) (cap : option text) {struct n}
         : option A :=
         match n with
         | O => k t cap
         | S n' =>
             match k t cap with
             | Some x => Some x
             | None =>
                 run a t cap
                   (fun t' cap' =>
                      if length t' <? length t then loop n' t' cap'
                      else None)
             end
         end) (S (length t)) t cap
  | Opt a =>
      match run a t cap k with
      | Some x => Some x
      | None => k t cap
      end
  | Capture a =>
      run a t cap
        (fun t' _ => k t' (Some (firstn (length t - length t') t)))
  end.
End Matcher.

(** What a successful match reports: [index], [m[0]] and [m[1]]. *)
Record result := { index : nat; whole : text; group1 : option text }.

(** A match starting exactly at the head of [t]: the matched text, the
    capture and the rest. *)
Definition match_here (r : re) (t : text)
  : option (text * option text * text) :=
  run r t None
    (fun rest cap => Some (firstn (length t - length rest) t, cap, rest)).

(** [t.match(r)] for a pattern without the [g] flag: the leftmost
    match. *)
Fixpoint search (r : re) (i : nat) (t : text) : option result :=
  match match_here r t with
  | Some (m, cap, _) => Some {| index := i; whole := m; group1 := cap |}
  | None =>
      match t with
      | [] => None
      | _ :: t' => search r (S i) t'
      end
  end.

Definition exec (r : re) (t : text) : option result := search r 0 t.

(** [t.match(r)] for a pattern with the [g] flag: the texts of all
    matches, left to right, each search resuming where the previous
    match ended (one character further after an empty match); [None]
    when there is none. *)
Fixpoint search_all (fuel : nat) (r : re) (t : text) : list text :=
  match fuel with
  | O => []
  | S fuel' =>
      match match_here r t with
      | Some (m, _, rest) =>
          match m with
          | [] => m :: match t with
                       | [] => []
                       | _ :: t' => search_all fuel' r t'
                       end
          | _ :: _ => m :: search_all fuel' r rest
          end
      | None =>
          match t with
          | [] => []
          | _ :: t' => search_all fuel' r t'
          end
      end
  end.

Definition match_all (r : re) (t : text) : option (list text) :=
  match search_all (S (length t)) r t with
  | [] => None
  | ms => Some ms
  end.

End Regex.
Import Regex.

(* ===================================================================== *)
(** ** Scanning for the end of a bracketed region *)
(* ===================================================================== *)

(** The loop shared by strategy 3 of both extractors:
<<
    for (let i = start; i < output.length; i++) {
      if (output[i] === open) count++;
      if (output[i] === close) {
        count--;
        if (count === 0) { end = i + 1; break; }
      }
    }
>>
    [scan_balanced open close count i t] runs it over [t], the text from
    index [i] on, and returns the [end] it assigns, if it assigns one. *)
Fixpoint scan_balanced (open close : ascii) (count : Z) (i : nat) (t : text)
  : option nat :=
  match t with
  | [] => None
  | c :: r =>
      let count1 := if Ascii.eqb c open then (count + 1)%Z else count in
      if Ascii.eqb c close then
        let count2 := (count1 - 1)%Z in
        if (count2 =? 0)%Z then Some (S i)
        else scan_balanced open close count2 (S i) r
      else scan_balanced open close count1 (S i) r
  end.

(* ===================================================================== *)
(** ** The data model ([types/index.ts]) *)
(* ===================================================================== *)

(** [type FeatureType] and [type TargetType], with the strings they
    stand for. *)
Inductive FeatureType : Type :=
| TyFeature | TyRefactoring | TyBugfix | TyImprovement | TyDocs.

Inductive TargetType : Type :=
| Web | Mobile | Shared | Full | Backend | Api.

Definition FeatureType_name (t : FeatureType) : string :=
  match t with
  | TyFeature => "feature"
  | TyRefactoring => "refactoring"
  | TyBugfix => "bugfix"
  | TyImprovement => "improvement"
  | TyDocs => "docs"
  end.

Definition FeatureType_of_name (s : string) : option FeatureType :=
  find (fun t => String.eqb (FeatureType_name t) s)
       [TyFeature; TyRefactoring; TyBugfix; TyImprovement; TyDocs].

Definition TargetType_name (t : TargetType) : string :=
  match t with
  | Web => "web"
  | Mobile => "mobile"
  | Shared => "shared"
  | Full => "full"
  | Backend => "backend"
  | Api => "api"
  end.

Definition TargetType_of_name (s : string) : option TargetType :=
  find (fun t => String.eqb (TargetType_name t) s)
       [Web; Mobile; Shared; Full; Backend; Api].

(** [interface Feature]; [type] and [target] are optional. *)
Record Feature := {
  id : string;
  title : string;
  description : string;
  acceptance_criteria : list string;
  passes : bool;
  type : option FeatureType;
  target : option TargetType
}.

(** [interface FeatureList] *)
Record FeatureList := {
  project_name : string;
  project_description : string;
  tech_stack : option (list string);
  features : list Feature
}.

(** [interface SessionContext] ([relevantFiles] is always empty). *)
Record SessionContext := {
  feature : Feature;
  progressLog : string;
  gitLog : string;
  projectStructure : string
}.

(** [interface SessionResult] *)
Module SessionResult.
Record t := {
  success : bool;
  featureId : string;
  commitHash : option string;
  error : option string;
  progressEntry : string
}.
End SessionResult.

(** [interface AgentQueryResult] (without the cost and turn counters,
    which nothing reads). *)
Module AgentQueryResult.
Record t := {
  success : bool;
  output : string;
  error : option string
}.
End AgentQueryResult.

(** The value [v] read through [interface Feature], when its members have
    the types the interface declares.  ([JSON.parse(...) as Feature] is an
    unchecked cast.) *)
Definition as_string (v : jsvalue) : option string :=
  match v with Some (JString s) => Some s | _ => None end.

Definition as_optional {A} (of_name : string -> option A) (v : jsvalue)
  : option (option A) :=
  match v with
  | None => Some None
  | Some (JString s) => option_map Some (of_name s)
  | Some _ => None
  end.

Fixpoint as_strings (vs : list json) : option (list string) :=
  match vs with
  | [] => Some []
  | JString s :: r => option_map (cons s) (as_strings r)
  | _ :: _ => None
  end.

Definition asFeature (v : json) : option Feature :=
  match v with
  | JObject ms =>
      match as_string (lookup "id" ms), as_string (lookup "title" ms),
            as_string (lookup "description" ms),
            lookup "acceptance_criteria" ms, lookup "passes" ms,
            as_optional FeatureType_of_name (lookup "type" ms),
            as_optional TargetType_of_name (lookup "target" ms) with
      | Some i, Some t, Some d, Some (JArray cs), Some (JBool p),
        Some ty, Some tg =>
          match as_strings cs with
          | Some criteria =>
              Some {| id := i; title := t; description := d;
                      acceptance_criteria := criteria; passes := p;
                      type := ty; target := tg |}
          | None => None
          end
      | _, _, _, _, _, _, _ => None
      end
  | _ => None
  end.

Fixpoint asFeatures (vs : list json) : option (list Feature) :=
  match vs with
  | [] => Some []
  | v :: r =>
      match asFeature v, asFeatures r with
      | Some f, Some fs => Some (f :: fs)
      | _, _ => None
      end
  end.

(* ===================================================================== *)
(** ** The workspace and the collaborator *)
(* ===================================================================== *)

(** A file of the workspace. *)
Inductive file (A : Type) : Type :=
| Missing                 (* existsSync is false *)
| Unreadable (why : string) (* it exists and readFile rejects *)
| Holds (content : A).
Arguments Missing {A}.
Arguments Unreadable {A} why.
Arguments Holds {A} content.

(** What [JSON.parse] makes of the content of [feature_list.json].  The
    store is seen through [interface FeatureList], as the program sees
    it: a file whose JSON is something else than a feature list is not
    described. *)
Inductive list_content : Type :=
| Malformed (why : string)  (* JSON.parse throws a SyntaxError *)
| Encodes (featureList : FeatureList).

Record Disk := {
  feature_list_json : file list_content;
  progress_log : file string;
  harness_debug_output : file string;      (* .harness-debug-output.txt *)
  harness_atomizer_debug : file string     (* .harness-atomizer-debug.txt *)
}.

(** What the program observes besides the files it names: the answers of
    git, the directory listing, the clock, and whether the file system
    accepts writes. *)
Record Env := {
  git_rev_parse : outcome string;   (* git rev-parse --short HEAD *)
  git_log : nat -> outcome string;  (* git log --oneline -n *)
  directory_tree : nat -> string;   (* the listing getProjectStructure builds *)
  now : string;                     (* new Date().toISOString() *)
  write_error : option string;      (* Some e: writeFile and appendFile reject with e *)
  auth_configured : bool            (* an OAuth token or an API key is set *)
}.

(** The system prompts are long constant texts; the model keeps which one
    is sent. *)
Inductive SystemPrompt : Type :=
| CODING_AGENT_SYSTEM_PROMPT
| REFACTORING_AGENT_SYSTEM_PROMPT
| BUGFIX_AGENT_SYSTEM_PROMPT
| IMPROVEMENT_AGENT_SYSTEM_PROMPT
| DOCS_AGENT_SYSTEM_PROMPT
| FEATURE_ADDER_SYSTEM_PROMPT
| FEATURE_ATOMIZER_SYSTEM_PROMPT.

(** The user messages are templates; the model keeps what is filled in.
    (The module with the adder's templates is not among the sources at
    hand; its call is kept with its arguments like the others.) *)
Inductive Prompt : Type :=
| CodingAgentContext
    (feature : Feature) (progressLog gitLog projectStructure : string)
| FeatureAdderContext
    (featureType : FeatureType) (description projectStructure : string)
    (existingFeatures : list (string * string * string))
    (relatedFiles : option string)
| FeatureAtomizerContext
    (featureType : FeatureType) (description projectStructure : string)
    (existingFeatures : list (string * string * string))
    (techStack : list string).

(** [interface AgentQueryOptions] (the observers [onText] and [onMessage]
    and the MCP server table are left out). *)
Module AgentQueryOptions.
Record t := {
  prompt : Prompt;
  systemPrompt : SystemPrompt;
  workingDirectory : string;
  maxTurns : Z
}.
End AgentQueryOptions.

(** The messages the SDK streams. *)
Inductive ContentBlock : Type :=
| TextBlock (text : string)
| OtherBlock.

Inductive SDKMessage : Type :=
| AssistantMessage (content : list ContentBlock)
| ResultMessage (subtype : string) (result : option string)
                (errors : option (list string))
| OtherMessage.

Record World := {
  disk : Disk;
  env : Env;
  queries : list AgentQueryOptions.t   (* the calls made to the SDK so far *)
}.

(** One run of the SDK's [query]: the messages it yields and, when the
    stream then throws, the error's message; meanwhile the collaborator
    works in the workspace and time passes. *)
Record Run := {
  after_disk : Disk;
  after_env : Env;
  messages : list SDKMessage;
  thrown : option string
}.

(** The external collaborator: any function of the request and of all
    there is to observe. *)
Definition Collaborator := AgentQueryOptions.t -> World -> Run.

(** *** Computations

    A computation runs in a world and returns or throws; what it did to
    the world before throwing stays done. *)
Definition M (A : Type) : Type := World -> World * outcome A.

Definition ret {A} (a : A) : M A := fun w => (w, Returned a).
Definition throw {A} (message : string) : M A := fun w => (w, Thrown message).

Definition bind {A B} (m : M A) (f : A -> M B) : M B :=
  fun w =>
    match m w with
    | (w', Returned a) => f a w'
    | (w', Thrown e) => (w', Thrown e)
    end.

(** [try { m } catch (error) { handler(error) }] *)
Definition try_catch {A} (m : M A) (handler : string -> M A) : M A :=
  fun w =>
    match m w with
    | (w', Returned a) => (w', Returned a)
    | (w', Thrown e) => handler e w'
    end.

Declare Scope js_scope.
Delimit Scope js_scope with js.
Notation "x <- m ;; k" := (bind m (fun x => k))
  (at level 61, m at next level, right associativity) : js_scope.
Notation "m ;;; k" := (bind m (fun _ => k))
  (at level 61, right associativity) : js_scope.
Local Open Scope js_scope.

Definition get_disk : M Disk := fun w => (w, Returned (disk w)).
Definition get_env : M Env := fun w => (w, Returned (env w)).

Definition set_disk (d : Disk) : M unit :=
  fun w => ({| disk := d; env := env w; queries := queries w |}, Returned tt).

Definition lift_outcome {A} (o : outcome A) : M A := fun w => (w, o).

(** *** File-system primitives *)

(** [existsSync(path)] *)
Definition existsSync {A} (f : file A) : bool :=
  match f with Missing => false | _ => true end.

(** [await readFile(path, 'utf-8')] *)
Definition readFile {A} (f : file A) : outcome A :=
  match f with
  | Missing => Thrown "ENOENT: no such file or directory"
  | Unreadable why => Thrown why
  | Holds content => Returned content
  end.

(** [JSON.parse(content) as FeatureList] *)
Definition JSON_parse_FeatureList (content : list_content)
  : outcome FeatureList :=
  match content with
  | Malformed why => Thrown why
  | Encodes featureList => Returned featureList
  end.

(** [await writeFile(path, content, 'utf-8')], for each of the files;
    [put] stores the new file in the disk record. *)
Definition writeFile {A} (put : file A -> Disk -> Disk) (content : A)
  : M unit :=
  e <- get_env ;;
  match write_error e with
  | Some why => throw why
  | None => d <- get_disk ;; set_disk (put (Holds content) d)
  end.

Definition put_feature_list_json (f : file list_content) (d : Disk) : Disk :=
  {| feature_list_json := f;
     progress_log := progress_log d;
     harness_debug_output := harness_debug_output d;
     harness_atomizer_debug := harness_atomizer_debug d |}.

Definition put_progress_log (f : file string) (d : Disk) : Disk :=
  {| feature_list_json := feature_list_json d;
     progress_log := f;
     harness_debug_output := harness_debug_output d;
     harness_atomizer_debug := harness_atomizer_debug d |}.

Definition put_harness_debug_output (f : file string) (d : Disk) : Disk :=
  {| feature_list_json := feature_list_json d;
     progress_log := progress_log d;
     harness_debug_output := f;
     harness_atomizer_debug := harness_atomizer_debug d |}.

Definition put_harness_atomizer_debug (f : file string) (d : Disk) : Disk :=
  {| feature_list_json := feature_list_json d;
     progress_log := progress_log d;
     harness_debug_output := harness_debug_output d;
     harness_atomizer_debug := f |}.

(** [await appendFile(path, data, 'utf-8')] on [progress.log]: a missing
    file is created; appending to a file that cannot be read is taken to
    fail as reading it does. *)
Definition appendFile_progress_log (data : string) : M unit :=
  e <- get_env ;;
  match write_error e with
  | Some why => throw why
  | None =>
      d <- get_disk ;;
      match progress_log d with
      | Missing => set_disk (put_progress_log (Holds data) d)
      | Unreadable why => throw why
      | Holds old => set_disk (put_progress_log (Holds (old ++ data)%string) d)
      end
  end.

(* ===================================================================== *)
(** ** [ContextBuilder] ([core/context-builder.ts]) *)
(* ===================================================================== *)

Module ContextBuilder.

Definition loadFeatureList : M (option FeatureList) :=
  d <- get_disk ;;
  let path := feature_list_json d in
  if negb (existsSync path) then ret None
  else
    try_catch
      (content <- lift_outcome (readFile path) ;;
       featureList <- lift_outcome (JSON_parse_FeatureList content) ;;
       ret (Some featureList))
      (fun _ => ret None).

Definition saveFeatureList (featureList : FeatureList) : M unit :=
  writeFile put_feature_list_json (Encodes featureList).

(** [(f) => !f.passes] *)
Definition pending (f : Feature) : bool := negb (passes f).

Definition getNextFeature : M (option Feature) :=
  featureList <- loadFeatureList ;;
  match featureList with
  | None => ret None
  | Some featureList => ret (find pending (features featureList))
  end.

(** [f.type === type] and [!f.type] *)
Definition type_is (f : Feature) (ty : string) : bool :=
  match type f with
  | Some t => String.eqb (FeatureType_name t) ty
  | None => false
  end.

Definition no_type (f : Feature) : bool :=
  match type f with Some _ => false | None => true end.

(** [(f) => !f.passes && (f.type === type || (!f.type && type === 'feature'))] *)
Definition pending_of_type (ty : string) (f : Feature) : bool :=
  negb (passes f)
  && (type_is f ty || (no_type f && String.eqb ty "feature")).

Definition getNextFeatureByType (ty : string) : M (option Feature) :=
  featureList <- loadFeatureList ;;
  match featureList with
  | None => ret None
  | Some featureList =>
      ret (find (pending_of_type ty) (features featureList))
  end.

(** [content.split('\n\n')] *)
Fixpoint split_blank_aux (cur : text) (t : text) : list text :=
  match t with
  | [] => [rev cur]
  | a :: t' =>
      match t' with
      | b :: r =>
          if Ascii.eqb a lf && Ascii.eqb b lf
          then rev cur :: split_blank_aux [] r
          else split_blank_aux (a :: cur) t'
      | [] => [rev (a :: cur)]
      end
  end.

Definition split_blank (t : text) : list text := split_blank_aux [] t.

(** [pieces.join('\n\n')] *)
Fixpoint join_blank (ls : list text) : text :=
  match ls with
  | [] => []
  | [l] => l
  | l :: r => l ++ lf :: lf :: join_blank r
  end.

(** [lines.slice(-lastN)]: the last [lastN] pieces, all of them when
    [lastN] is [0]. *)
Definition slice_last {A} (lastN : nat) (l : list A) : list A :=
  match lastN with
  | O => l
  | S _ => skipn (length l - lastN) l
  end.

Definition getProgressLog (lastN : nat) : M string :=
  d <- get_disk ;;
  let path := progress_log d in
  if negb (existsSync path) then ret ""
  else
    try_catch
      (content <- lift_outcome (readFile path) ;;
       let lines := split_blank (trim (of_string content)) in
       ret (to_string (join_blank (slice_last lastN lines))))
      (fun _ => ret "").

Definition getGitLog (lastN : nat) : M string :=
  try_catch
    (e <- get_env ;;
     stdout <- lift_outcome (git_log e lastN) ;;
     ret (to_string (trim (of_string stdout))))
    (fun _ => ret "(no git history)").

Definition getProjectStructure (maxDepth : nat) : M string :=
  e <- get_env ;;
  ret (directory_tree e maxDepth).

Definition buildSessionContext : M (option SessionContext) :=
  feature <- getNextFeature ;;
  match feature with
  | None => ret None
  | Some feature =>
      progressLog <- getProgressLog 10 ;;
      gitLog <- getGitLog 10 ;;
      projectStructure <- getProjectStructure 3 ;;
      ret (Some {| feature := feature;
                   progressLog := progressLog;
                   gitLog := gitLog;
                   projectStructure := projectStructure |})
  end.

Definition appendToProgressLog (entry : string) : M unit :=
  d <- get_disk ;;
  if negb (existsSync (progress_log d))
  then writeFile put_progress_log entry
  else appendFile_progress_log (String lf (String lf entry)).

End ContextBuilder.

(* ===================================================================== *)
(** ** [runAgentQuery] ([core/agent-sdk-client.ts]) *)
(* ===================================================================== *)

Module AgentSdkClient.

(** The local variables of [runAgentQuery] that the message loop
    updates. *)
Record acc := { output : string; success : bool; error : option string }.

(** [errors.join('\n')] *)
Fixpoint join_errors (errors : list string) : string :=
  match errors with
  | [] => ""
  | [e] => e
  | e :: r => (e ++ String lf (join_errors r))%string
  end.

(** The body of [for await (const message of queryResult)]. *)
Definition on_message (a : acc) (message : SDKMessage) : acc :=
  match message with
  | AssistantMessage content =>
      {| output :=
           fold_left
             (fun out block =>
                match block with
                | TextBlock text => (out ++ text)%string
                | OtherBlock => out
                end) content (output a);
         success := success a;
         error := error a |}
  | ResultMessage subtype result errors =>
      if String.eqb subtype "success" then
        {| output :=
             match result with
             | Some r => if String.eqb r "" then output a else r
             | None => output a
             end;
           success := true;
           error := error a |}
      else
        {| output := output a;
           success := false;
           error :=
             match errors with
             | Some es => Some (join_errors es)
             | None => error a
             end |}
  | OtherMessage => a
  end.

(** What [runAgentQuery] returns for a run of the SDK: the result
    built after the loop, or the one built in the [catch] clause when
    the stream threw. *)
Definition result_of (run : Run) : AgentQueryResult.t :=
  let a := fold_left on_message (messages run)
             {| output := ""; success := false; error := None |} in
  match thrown run with
  | None =>
      {| AgentQueryResult.success := success a;
         AgentQueryResult.output := output a;
         AgentQueryResult.error := error a |}
  | Some err =>
      {| AgentQueryResult.success := false;
         AgentQueryResult.output := output a;
         AgentQueryResult.error := Some err |}
  end.

Section WithCollaborator.
Variable query : Collaborator.

Definition runAgentQuery (options : AgentQueryOptions.t)
  : M AgentQueryResult.t :=
  fun w =>
    let run := query options w in
    ({| disk := after_disk run;
        env := after_env run;
        queries := queries w ++ [options] |},
     Returned (result_of run)).
End WithCollaborator.

End AgentSdkClient.

(* ===================================================================== *)
(** ** [CodingAgent] ([agents/coding-agent.ts]) *)
(* ===================================================================== *)

(** [getSystemPromptForType] ([prompts/coding-agent.ts]) *)
Definition getSystemPromptForType (ty : option FeatureType) : SystemPrompt :=
  match ty with
  | Some TyRefactoring => REFACTORING_AGENT_SYSTEM_PROMPT
  | Some TyBugfix => BUGFIX_AGENT_SYSTEM_PROMPT
  | Some TyImprovement => IMPROVEMENT_AGENT_SYSTEM_PROMPT
  | Some TyDocs => DOCS_AGENT_SYSTEM_PROMPT
  | Some TyFeature => CODING_AGENT_SYSTEM_PROMPT
  | None => CODING_AGENT_SYSTEM_PROMPT
  end.

(** [a || b] on optional strings: [a] when it is a non-empty string. *)
Definition or_default (a : option string) (b : string) : string :=
  match a with
  | Some s => if String.eqb s "" then b else s
  | None => b
  end.

Module CodingAgent.

(** [interface CodingAgentOptions] (without the observers and the
    Supabase reference). *)
Record CodingAgentOptions := {
  workspacePath : string;
  maxTurns : option Z
}.

(** The three shapes of [progressEntry]. *)
Definition entry (timestamp : string) (f : Feature) (outcome : string)
  : string :=
  ("[" ++ timestamp ++ "] [" ++ id f ++ "] " ++ title f ++ " - "
       ++ outcome)%string.

(** [new Date().toISOString()] *)
Definition toISOString : M string := e <- get_env ;; ret (now e).

(** Step 5: [git rev-parse --short HEAD], or nothing when it fails. *)
Definition currentCommit : M (option string) :=
  try_catch
    (e <- get_env ;;
     stdout <- lift_outcome (git_rev_parse e) ;;
     ret (Some (to_string (trim (of_string stdout)))))
    (fun _ => ret None).

(** The [queryOptions] that [runSession] builds for a context. *)
Definition queryOptions (options : CodingAgentOptions)
           (ctx : SessionContext) : AgentQueryOptions.t :=
  {| AgentQueryOptions.prompt :=
       (* 2. Build user message with context *)
       CodingAgentContext (feature ctx) (progressLog ctx) (gitLog ctx)
         (projectStructure ctx);
     AgentQueryOptions.systemPrompt :=
       getSystemPromptForType (type (feature ctx));
     AgentQueryOptions.workingDirectory := workspacePath options;
     AgentQueryOptions.maxTurns :=
       match maxTurns options with Some n => n | None => 50%Z end |}.

Section WithCollaborator.
Variable query : Collaborator.

Definition runSession (options : CodingAgentOptions)
  : M SessionResult.t :=
  (* 1. Build session context *)
  sessionContext <- ContextBuilder.buildSessionContext ;;
  match sessionContext with
  | None =>
      ret {| SessionResult.success := false;
             SessionResult.featureId := "";
             SessionResult.commitHash := None;
             SessionResult.error :=
               Some "No pending features found. All features may be complete.";
             SessionResult.progressEntry := "" |}
  | Some ctx =>
      let feature := feature ctx in
      try_catch
        ((* 3. Run Claude Agent SDK *)
         result <- AgentSdkClient.runAgentQuery query
                     (queryOptions options ctx) ;;
         if negb (AgentQueryResult.success result) then
           timestamp <- toISOString ;;
           ret {| SessionResult.success := false;
                  SessionResult.featureId := id feature;
                  SessionResult.commitHash := None;
                  SessionResult.error :=
                    Some (or_default (AgentQueryResult.error result)
                            "Claude Agent SDK session failed");
                  SessionResult.progressEntry :=
                    entry timestamp feature "ERROR" |}
         else
           (* 4. Check if feature was marked as complete *)
           featureList <- ContextBuilder.loadFeatureList ;;
           let updatedFeature :=
             match featureList with
             | Some featureList =>
                 find (fun f => String.eqb (id f) (id feature))
                      (features featureList)
             | None => None
             end in
           let success :=
             match updatedFeature with
             | Some f => passes f
             | None => false
             end in
           (* 5. Get commit hash if any *)
           commitHash <- currentCommit ;;
           timestamp <- toISOString ;;
           ret {| SessionResult.success := success;
                  SessionResult.featureId := id feature;
                  SessionResult.commitHash := commitHash;
                  SessionResult.error := None;
                  SessionResult.progressEntry :=
                    if success
                    then entry timestamp feature "COMPLETED"
                    else entry timestamp feature "INCOMPLETE" |})
        (fun error =>
           timestamp <- toISOString ;;
           ret {| SessionResult.success := false;
                  SessionResult.featureId := id feature;
                  SessionResult.commitHash := None;
                  SessionResult.error := Some error;
                  SessionResult.progressEntry :=
                    entry timestamp feature
                      ("ERROR: Error: " ++ error)%string |})
  end.

End WithCollaborator.

End CodingAgent.

(* ===================================================================== *)
(** ** [FeatureAdderAgent] ([agents/feature-adder.ts]) *)
(* ===================================================================== *)

(** Characters the patterns name. *)
Definition chr (c : ascii) : re := Chr (Lit c).
Definition none_of (cs : list ascii) : re := Chr (NoneOf cs).
Definition lbrace : ascii := "{"%char.
Definition rbrace : ascii := "}"%char.
Definition lbracket : ascii := "["%char.
Definition rbracket : ascii := "]"%char.

(** [v.k] after [v] was found not to be [null]. *)
Definition field (v : json) (k : string) : jsvalue :=
  match v with JObject ms => lookup k ms | _ => None end.

(** [interface FeatureAdderOptions] (without [target], which
    [addFeature] does not read, and the observers). *)
Module FeatureAdderOptions.
Record t := {
  workspacePath : string;
  featureType : FeatureType;
  description : string;
  relatedFiles : option string
}.
End FeatureAdderOptions.

Module FeatureAdderResult.
Record t := {
  success : bool;
  feature : option Feature;
  error : option string
}.
End FeatureAdderResult.

Module FeatureAdderAgent.

(** [validateFeature(feature)].  Reading [feature.id] throws when
    [feature] is [null]; the other reads are of the same value. *)
Definition validateFeature (feature : json) : outcome bool :=
  match prop feature "id" with
  | Thrown e => Thrown e
  | Returned feature_id =>
      Returned
        (truthy feature_id
         && truthy (field feature "title")
         && truthy (field feature "description")
         && truthy (field feature "acceptance_criteria")
         && isArray (field feature "acceptance_criteria")
         && nonempty_array (field feature "acceptance_criteria")
         && is_boolean (field feature "passes"))
  end.

(** The block every strategy ends with:
<<
    try {
      const feature = JSON.parse(jsonStr);
      if (this.validateFeature(feature)) return feature as Feature;
    } catch { }
>>
    [Some feature] when it returns. *)
Definition attempt (jsonStr : text) : option json :=
  match Json.parse jsonStr with
  | Some feature =>
      match validateFeature feature with
      | Returned true => Some feature
      | Returned false => None
      | Thrown _ => None
      end
  | None => None
  end.

(** Strategy 1: parse the trimmed output directly. *)
Definition strategy1 (output : text) : option json := attempt (trim output).

(** Strategy 2: the first fenced block; its pattern has a backtick
    fence, an optional [json] tag, white space, the captured lazy body
    and the closing fence. *)
Definition fencePattern : re :=
  Seq [str "```"; Opt (str "json"); Star (Chr Space);
       Capture (LazyStar (Chr Any)); str "```"].

Definition strategy2 (output : text) : option json :=
  match exec fencePattern output with
  | Some jsonMatch =>
      match group1 jsonMatch with
      | Some (c :: inner) => attempt (trim (c :: inner))
      | _ => None
      end
  | None => None
  end.

(** Strategy 3: an object that shows an [id] and then a [title], grown
    to its matching brace. *)
Definition featurePattern : re :=
  Seq [chr lbrace; Star (none_of [rbrace]);
       str (q "'id'"); Star (Chr Space); chr ":"; Star (Chr Space);
       chr dquote; Star (none_of [dquote]); chr dquote;
       Star (none_of [rbrace]);
       str (q "'title'"); Star (Chr Space); chr ":"; Star (Chr Space);
       chr dquote; Star (none_of [dquote]); chr dquote;
       LazyStar (Chr Any); chr rbrace].

Definition strategy3 (output : text) : option json :=
  match exec featurePattern output with
  | Some featureMatch =>
      match indexOf (whole featureMatch) output with
      | Some startIndex =>
          let endIndex :=
            match scan_balanced lbrace rbrace 0 startIndex
                    (skipn startIndex output) with
            | Some e => e
            | None => startIndex
            end in
          attempt (substring startIndex endIndex output)
      | None => None (* the match is a piece of the output *)
      end
  | None => None
  end.

(** Strategy 4: line by line. *)
Definition count_braces (braceCount : Z) (line : text) : Z :=
  fold_left
    (fun n c =>
       let n1 := if Ascii.eqb c lbrace then (n + 1)%Z else n in
       if Ascii.eqb c rbrace then (n1 - 1)%Z else n1)
    line braceCount.

(** The [for] loop over the lines from line [i] on; [Some (jsonStart,
    jsonEnd)] when it leaves through [break]. *)
Fixpoint scan_lines (lines : list text) (i : nat) (braceCount : Z)
         (jsonStart : option nat) : option (nat * nat) :=
  match lines with
  | [] => None
  | line :: rest =>
      match line with
      | [] => scan_lines rest (S i) braceCount jsonStart
      | _ :: _ =>
          let '(jsonStart1, braceCount1) :=
            match jsonStart with
            | None =>
                if startsWith [lbrace] (trim line)
                then (Some i, 0%Z) else (None, braceCount)
            | Some _ => (jsonStart, braceCount)
            end in
          match jsonStart1 with
          | Some s =>
              let braceCount2 := count_braces braceCount1 line in
              if (braceCount2 =? 0)%Z then Some (s, i)
              else scan_lines rest (S i) braceCount2 jsonStart1
          | None => scan_lines rest (S i) braceCount1 jsonStart1
          end
      end
  end.

Definition strategy4 (output : text) : option json :=
  let lines := split_lines output in
  match scan_lines lines 0 0%Z None with
  | Some (jsonStart, jsonEnd) =>
      attempt
        (join_lines (firstn (jsonEnd + 1 - jsonStart) (skipn jsonStart lines)))
  | None => None
  end.

(** Strategy 5: every object with at most one level of nesting. *)
Definition allObjectsPattern : re :=
  Seq [chr lbrace; Star (none_of [lbrace; rbrace]);
       Star (Seq [chr lbrace; Star (none_of [lbrace; rbrace]); chr rbrace;
                  Star (none_of [lbrace; rbrace])]);
       chr rbrace].

Fixpoint first_valid (matches : list text) : option json :=
  match matches with
  | [] => None
  | m :: rest =>
      match attempt m with
      | Some feature => Some feature
      | None => first_valid rest
      end
  end.

Definition strategy5 (output : text) : option json :=
  match match_all allObjectsPattern output with
  | Some matches => first_valid matches
  | None => None
  end.

(** [parseFeature(output)]: [None] for [null]. *)
Definition parseFeature (output : string) : option json :=
  let output := of_string output in
  match strategy1 output with
  | Some feature => Some feature
  | None =>
  match strategy2 output with
  | Some feature => Some feature
  | None =>
  match strategy3 output with
  | Some feature => Some feature
  | None =>
  match strategy4 output with
  | Some feature => Some feature
  | None => strategy5 output
  end end end end.

(** [`${n}`] for a length. *)
Definition decimal (n : nat) : string :=
  NilEmpty.string_of_uint (Nat.to_uint n).

Definition show_bool (b : bool) : string := if b then "true" else "false".

(** [join(workspacePath, '.harness-debug-output.txt')] *)
Definition debugPath (workspacePath : string) : string :=
  (workspacePath ++ "/.harness-debug-output.txt")%string.

(** The two texts written to the debug file. *)
Definition debugContent (timestamp : string) (result : AgentQueryResult.t)
  : string :=
  let nl := String lf "" in
  ("=== Debug Output (" ++ timestamp ++ ") ===" ++ nl
     ++ "SUCCESS: " ++ show_bool (AgentQueryResult.success result) ++ nl
     ++ "ERROR: " ++ or_default (AgentQueryResult.error result) "none" ++ nl
     ++ "OUTPUT LENGTH: "
     ++ decimal (String.length (AgentQueryResult.output result)) ++ nl ++ nl
     ++ "OUTPUT:" ++ nl
     ++ or_default (Some (AgentQueryResult.output result)) "(empty)"
     ++ nl ++ nl ++ "=== End of Output ===")%string.

Definition debugContentUnparsed (timestamp output : string) : string :=
  let nl := String lf "" in
  ("=== Debug Output (" ++ timestamp ++ ") ===" ++ nl ++ nl ++ output
     ++ nl ++ nl ++ "=== End of Output ===")%string.

(** [f.id === feature.id] for a stored [f] and a parsed [feature]: an
    identifier of the list is a string, and a string is strictly equal
    only to the same string. *)
Definition same_id (feature : json) (f : Feature) : bool :=
  match field feature "id" with
  | Some (JString s) => String.eqb (id f) s
  | _ => false
  end.

(** [`${feature.id}`] where the identifier is a string. *)
Definition show_id (feature : json) : string :=
  match field feature "id" with Some (JString s) => s | _ => "" end.

Definition failure (message : string) : FeatureAdderResult.t :=
  {| FeatureAdderResult.success := false;
     FeatureAdderResult.feature := None;
     FeatureAdderResult.error := Some message |}.

(** [(f) => ({ id: f.id, type: f.type || 'feature', title: f.title })] *)
Definition summary (f : Feature) : string * string * string :=
  (id f,
   match type f with Some t => FeatureType_name t | None => "feature" end,
   title f).

(** The request [addFeature] sends. *)
Definition queryOptions (options : FeatureAdderOptions.t)
           (featureList : FeatureList) (projectStructure : string)
  : AgentQueryOptions.t :=
  {| AgentQueryOptions.prompt :=
       FeatureAdderContext
         (FeatureAdderOptions.featureType options)
         (FeatureAdderOptions.description options)
         projectStructure
         (map summary (features featureList))
         (FeatureAdderOptions.relatedFiles options);
     AgentQueryOptions.systemPrompt := FEATURE_ADDER_SYSTEM_PROMPT;
     AgentQueryOptions.workingDirectory :=
       FeatureAdderOptions.workspacePath options;
     AgentQueryOptions.maxTurns := 15%Z |}.

Section WithCollaborator.
Variable query : Collaborator.

(** [addFeature(options)].  The result is [None] where the generated
    object passes every check and yet is not a [Feature] as the
    interface declares it: the typed store cannot hold what the
    program then saves. *)
Definition addFeature (options : FeatureAdderOptions.t)
  : M (option FeatureAdderResult.t) :=
  let workspacePath := FeatureAdderOptions.workspacePath options in
  try_catch
    ((* Load existing features *)
     featureList <- ContextBuilder.loadFeatureList ;;
     match featureList with
     | None =>
         ret (Some (failure
           "Could not load feature_list.json. Is this a valid project?"))
     | Some featureList =>
         projectStructure <- ContextBuilder.getProjectStructure 3 ;;
         (* Call AI to generate feature *)
         result <- AgentSdkClient.runAgentQuery query
                     (queryOptions options featureList projectStructure) ;;
         (* Always save debug output *)
         timestamp <- CodingAgent.toISOString ;;
         try_catch
           (writeFile put_harness_debug_output
              (debugContent timestamp result))
           (fun _ => ret tt) ;;;
         let output := AgentQueryResult.output result in
         if negb (AgentQueryResult.success result) || String.eqb output ""
         then
           ret (Some (failure
             ("Failed to generate feature. Error: "
                ++ or_default (AgentQueryResult.error result) "unknown"
                ++ ". Check " ++ debugPath workspacePath)%string))
         else
           (* Parse the feature from output *)
           match parseFeature output with
           | None =>
               timestamp <- CodingAgent.toISOString ;;
               try_catch
                 (writeFile put_harness_debug_output
                    (debugContentUnparsed timestamp output))
                 (fun _ => ret tt) ;;;
               ret (Some (failure
                 ("Could not parse feature from AI response. Output saved to "
                    ++ debugPath workspacePath ++ " for debugging.")%string))
           | Some feature =>
               (* Validate feature *)
               valid <- lift_outcome (validateFeature feature) ;;
               if negb valid then
                 ret (Some (failure
                   "Generated feature is invalid or incomplete"))
               (* Check for duplicate ID *)
               else if existsb (same_id feature) (features featureList)
               then
                 ret (Some (failure
                   ("Feature ID " ++ show_id feature
                      ++ " already exists. Please try again.")%string))
               else
                 match asFeature feature with
                 | None => ret None
                 | Some added =>
                     (* Add feature to list *)
                     let featureList :=
                       {| project_name := project_name featureList;
                          project_description :=
                            project_description featureList;
                          tech_stack := tech_stack featureList;
                          features := features featureList ++ [added] |} in
                     (* Save updated feature list *)
                     ContextBuilder.saveFeatureList featureList ;;;
                     ret (Some
                       {| FeatureAdderResult.success := true;
                          FeatureAdderResult.feature := Some added;
                          FeatureAdderResult.error := None |})
                 end
           end
     end)
    (fun error => ret (Some (failure error))).

End WithCollaborator.

End FeatureAdderAgent.

(* ===================================================================== *)
(** ** [FeatureAtomizerAgent] ([agents/feature-atomizer.ts]) *)
(* ===================================================================== *)

(** [interface FeatureAtomizerOptions] (without [target], which
    [atomizeFeature] does not read, and the observers). *)
Module FeatureAtomizerOptions.
Record t := {
  workspacePath : string;
  featureType : FeatureType;
  description : string
}.
End FeatureAtomizerOptions.

Module FeatureAtomizerResult.
Record t := {
  success : bool;
  features : option (list Feature);
  error : option string
}.
End FeatureAtomizerResult.

Module FeatureAtomizerAgent.

(** [typeof feature === 'object'] *)
Definition typeof_object (v : json) : bool :=
  match v with
  | JNull | JArray _ | JObject _ => true
  | _ => false
  end.

(** [validateFeature(feature: any)] *)
Definition validateFeature (feature : json) : bool :=
  truthy (Some feature)
  && typeof_object feature
  && truthy (field feature "id")
  && truthy (field feature "title")
  && truthy (field feature "description")
  && truthy (field feature "acceptance_criteria")
  && isArray (field feature "acceptance_criteria")
  && nonempty_array (field feature "acceptance_criteria")
  && is_boolean (field feature "passes").

(** The block every strategy ends with:
<<
    try {
      const features = JSON.parse(jsonStr);
      if (Array.isArray(features) &&
          features.every((f) => this.validateFeature(f)))
        return features as Feature[];
    } catch { }
>>  *)
Definition attempt (jsonStr : text) : option (list json) :=
  match Json.parse jsonStr with
  | Some (JArray features) =>
      if forallb validateFeature features then Some features else None
  | _ => None
  end.

(** Strategy 1: parse the trimmed output directly as an array. *)
Definition strategy1 (output : text) : option (list json) :=
  attempt (trim output).

(** Strategy 2: an array in a fenced block. *)
Definition fencedArrayPattern : re :=
  Seq [str "```"; Opt (str "json"); Star (Chr Space);
       Capture (Seq [chr lbracket; LazyStar (Chr Any); chr rbracket]);
       Star (Chr Space); str "```"].

Definition strategy2 (output : text) : option (list json) :=
  match exec fencedArrayPattern output with
  | Some jsonMatch =>
      match group1 jsonMatch with
      | Some (c :: inner) => attempt (trim (c :: inner))
      | _ => None
      end
  | None => None
  end.

(** Strategy 3: from the first opening bracket to its match. *)
Definition strategy3 (output : text) : option (list json) :=
  match indexOf [lbracket] output with
  | Some arrayStart =>
      match scan_balanced lbracket rbracket 0 arrayStart
              (skipn arrayStart output) with
      | Some arrayEnd => attempt (substring arrayStart arrayEnd output)
      | None => None
      end
  | None => None
  end.

(** Strategy 4: a bracketed, comma-separated run of objects that each
    show an [id]. *)
Definition objectWithId : list re :=
  [chr lbrace; LazyStar (Chr Any); str (q "'id'"); Star (Chr Space);
   chr ":"; LazyStar (Chr Any); chr rbrace; Star (Chr Space)].

Definition arrayPattern : re :=
  Seq [chr lbracket; Star (Chr Space); Seq objectWithId;
       Star (Seq (chr "," :: Star (Chr Space) :: objectWithId));
       chr rbracket].

Definition strategy4 (output : text) : option (list json) :=
  match exec arrayPattern output with
  | Some arrayMatch => attempt (whole arrayMatch)
  | None => None
  end.

(** [parseFeatures(output)]: [None] for [null]. *)
Definition parseFeatures (output : string) : option (list json) :=
  let output := of_string output in
  match strategy1 output with
  | Some features => Some features
  | None =>
  match strategy2 output with
  | Some features => Some features
  | None =>
  match strategy3 output with
  | Some features => Some features
  | None => strategy4 output
  end end end.

(** [join(workspacePath, '.harness-atomizer-debug.txt')] *)
Definition debugPath (workspacePath : string) : string :=
  (workspacePath ++ "/.harness-atomizer-debug.txt")%string.

Definition debugContent (timestamp : string) (result : AgentQueryResult.t)
  : string :=
  let nl := String lf "" in
  ("=== Atomizer Debug Output (" ++ timestamp ++ ") ===" ++ nl
     ++ "SUCCESS: "
     ++ FeatureAdderAgent.show_bool (AgentQueryResult.success result) ++ nl
     ++ "ERROR: " ++ or_default (AgentQueryResult.error result) "none" ++ nl
     ++ "OUTPUT LENGTH: "
     ++ FeatureAdderAgent.decimal
          (String.length (AgentQueryResult.output result)) ++ nl ++ nl
     ++ "OUTPUT:" ++ nl
     ++ or_default (Some (AgentQueryResult.output result)) "(empty)"
     ++ nl ++ nl ++ "=== End of Output ===")%string.

(** [existingIds.has(f.id)] for
    [existingIds = new Set(featureList.features.map((f) => f.id))]: the
    set holds strings, and only the same string is found in it. *)
Definition has_id (existing : list Feature) (f : json) : bool :=
  match field f "id" with
  | Some (JString s) => existsb (fun g => String.eqb (id g) s) existing
  | _ => false
  end.

(** [duplicates.map((f) => f.id).join(', ')] *)
Fixpoint join_ids (duplicates : list json) : string :=
  match duplicates with
  | [] => ""
  | [f] => FeatureAdderAgent.show_id f
  | f :: r => (FeatureAdderAgent.show_id f ++ ", " ++ join_ids r)%string
  end.

Definition failure (message : string) : FeatureAtomizerResult.t :=
  {| FeatureAtomizerResult.success := false;
     FeatureAtomizerResult.features := None;
     FeatureAtomizerResult.error := Some message |}.

(** The request [atomizeFeature] sends. *)
Definition queryOptions (options : FeatureAtomizerOptions.t)
           (featureList : FeatureList) (projectStructure : string)
  : AgentQueryOptions.t :=
  {| AgentQueryOptions.prompt :=
       FeatureAtomizerContext
         (FeatureAtomizerOptions.featureType options)
         (FeatureAtomizerOptions.description options)
         projectStructure
         (map FeatureAdderAgent.summary (features featureList))
         (match tech_stack featureList with
          | Some stack => stack
          | None => []
          end);
     AgentQueryOptions.systemPrompt := FEATURE_ATOMIZER_SYSTEM_PROMPT;
     AgentQueryOptions.workingDirectory :=
       FeatureAtomizerOptions.workspacePath options;
     AgentQueryOptions.maxTurns := 20%Z |}.

Section WithCollaborator.
Variable query : Collaborator.

(** [atomizeFeature(options)]; [None] as for [addFeature]. *)
Definition atomizeFeature (options : FeatureAtomizerOptions.t)
  : M (option FeatureAtomizerResult.t) :=
  let workspacePath := FeatureAtomizerOptions.workspacePath options in
  try_catch
    ((* Load existing features *)
     featureList <- ContextBuilder.loadFeatureList ;;
     match featureList with
     | None =>
         ret (Some (failure
           "Could not load feature_list.json. Is this a valid project?"))
     | Some featureList =>
         projectStructure <- ContextBuilder.getProjectStructure 3 ;;
         (* Call AI to atomize feature *)
         result <- AgentSdkClient.runAgentQuery query
                     (queryOptions options featureList projectStructure) ;;
         (* Always save debug output *)
         timestamp <- CodingAgent.toISOString ;;
         try_catch
           (writeFile put_harness_atomizer_debug
              (debugContent timestamp result))
           (fun _ => ret tt) ;;;
         let output := AgentQueryResult.output result in
         if negb (AgentQueryResult.success result) || String.eqb output ""
         then
           ret (Some (failure
             ("Failed to atomize feature. Error: "
                ++ or_default (AgentQueryResult.error result) "unknown"
                ++ ". Check " ++ debugPath workspacePath)%string))
         else
           (* Parse the features array from output *)
           match parseFeatures output with
           | None | Some [] =>
               ret (Some (failure
                 ("Could not parse features from AI response. Output saved to "
                    ++ debugPath workspacePath ++ " for debugging.")%string))
           | Some parsed =>
               (* Validate all features *)
               let invalidFeatures :=
                 filter (fun f => negb (validateFeature f)) parsed in
               if negb (length invalidFeatures =? 0) then
                 ret (Some (failure
                   (FeatureAdderAgent.decimal (length invalidFeatures)
                      ++ " invalid feature(s) generated. Check structure.")%string))
               else
                 (* Check for duplicate IDs *)
                 let duplicates :=
                   filter (has_id (features featureList)) parsed in
                 if negb (length duplicates =? 0) then
                   ret (Some (failure
                     ("Duplicate feature IDs found: "
                        ++ join_ids duplicates)%string))
                 else
                   match asFeatures parsed with
                   | None => ret None
                   | Some added =>
                       (* Add all features to list *)
                       let featureList :=
                         {| project_name := project_name featureList;
                            project_description :=
                              project_description featureList;
                            tech_stack := tech_stack featureList;
                            features :=
                              features featureList ++ added |} in
                       (* Save updated feature list *)
                       ContextBuilder.saveFeatureList featureList ;;;
                       ret (Some
                         {| FeatureAtomizerResult.success := true;
                            FeatureAtomizerResult.features := Some added;
                            FeatureAtomizerResult.error := None |})
                   end
           end
     end)
    (fun error => ret (Some (failure error))).

End WithCollaborator.

End FeatureAtomizerAgent.

(* ===================================================================== *)
(** ** The [loop] command ([cli.ts]) *)
(* ===================================================================== *)

Module Cli.

(** The options of [loop] after [parseInt]: [maxSessions] is [None]
    when [parseInt] gives [NaN]. *)
Record LoopOptions := {
  maxSessions : option Z;
  maxTurns : Z;
  projectPath : string;
  featureType : option string
}.

(** [session < maxSessions]; a comparison with [NaN] is false. *)
Definition below (session : Z) (maxSessions : option Z) : bool :=
  match maxSessions with
  | Some m => (session <? m)%Z
  | None => false
  end.

(** [featureType ? ... : ...]: an empty string counts as no filter. *)
Definition filter_given (featureType : option string) : option string :=
  match featureType with
  | Some ty => if String.eqb ty "" then None else Some ty
  | None => None
  end.

(** How the command ends: [process.exit(code)], or the end of the
    action with the value of [session] and the results of the sessions
    it ran, in order. *)
Inductive ending : Type :=
| Exit (code : Z)
| Finished (session : Z) (results : list SessionResult.t).

Section WithCollaborator.
Variable query : Collaborator.

(** The [while (session < maxSessions)] loop, entered with the given
    value of [session]; [fuel] bounds the number of iterations. *)
Fixpoint sessions (fuel : nat) (options : LoopOptions) (session : Z)
  : M (Z * list SessionResult.t) :=
  match fuel with
  | O => ret (session, [])
  | S fuel' =>
      if below session (maxSessions options) then
        let session := (session + 1)%Z in
        feature <-
          match filter_given (featureType options) with
          | Some ty => ContextBuilder.getNextFeatureByType ty
          | None => ContextBuilder.getNextFeature
          end ;;
        match feature with
        | None => ret (session, [])   (* break *)
        | Some _ =>
            result <- CodingAgent.runSession query
                        {| CodingAgent.workspacePath := projectPath options;
                           CodingAgent.maxTurns := Some (maxTurns options) |} ;;
            rest <- sessions fuel' options session ;;
            ret (fst rest, result :: snd rest)
        end
      else ret (session, [])
  end.

(** Iterations the loop can make at most: one per value of [session]
    below [maxSessions]. *)
Definition iterations (options : LoopOptions) : nat :=
  match maxSessions options with
  | Some m => Z.to_nat m
  | None => 0
  end.

(** The action of the [loop] command.  What it prints, the pause of two
    seconds after each session and the final statistics are left
    out. *)
Definition loop (options : LoopOptions) : M ending :=
  e <- get_env ;;
  if negb (auth_configured e) then ret (Exit 1)
  else
    d <- get_disk ;;
    if negb (existsSync (feature_list_json d)) then ret (Exit 1)
    else
      r <- sessions (S (iterations options)) options 0%Z ;;
      ret (Finished (fst r) (snd r)).

End WithCollaborator.

End Cli.

(* ===================================================================== *)
(** ** Vocabulary of the specification *)
(* ===================================================================== *)

(** *** Tasks the extractor may accept *)

(** A member that is present and neither [null], nor the empty string,
    nor [false]. *)
Definition filled (v : jsvalue) : Prop :=
  exists x, v = Some x /\ x <> JNull /\ x <> JString "" /\ x <> JBool false.

(** A record with a non-empty [id], [title] and [description], a
    non-empty list of acceptance criteria and a boolean completion
    flag. *)
Definition well_formed_task (v : json) : Prop :=
  exists ms,
    v = JObject ms
    /\ filled (lookup "id" ms)
    /\ filled (lookup "title" ms)
    /\ filled (lookup "description" ms)
    /\ (exists c cs, lookup "acceptance_criteria" ms = Some (JArray (c :: cs)))
    /\ (exists b, lookup "passes" ms = Some (JBool b)).

(** A result of the extractor is a well-formed task, or a list of them,
    or nothing. *)
Definition only_valid (r : option json) : Prop :=
  match r with
  | Some v => well_formed_task v
  | None => True
  end.

Definition only_valid_list (r : option (list json)) : Prop :=
  match r with
  | Some vs => Forall well_formed_task vs
  | None => True
  end.

(** *** Sample outputs of the collaborator *)

Module Samples.

Definition task : Feature :=
  {| id := "F001"; title := "Login form";
     description := "Add a login form";
     acceptance_criteria := ["User can log in"];
     passes := false; type := None; target := None |}.

Definition braces_task : Feature :=
  {| id := "F002"; title := "Render {name} template";
     description := "Replace {name} and {date} in templates";
     acceptance_criteria := ["The text {name} is replaced"];
     passes := false; type := Some TyImprovement; target := None |}.

(** 1. the raw JSON alone *)
Definition raw : string :=
  q "{'id':'F001','title':'Login form','description':'Add a login form','acceptance_criteria':['User can log in'],'passes':false}".

(** 2. a fenced code block *)
Definition fenced : string :=
  (q "```json|" ++ raw ++ q "|```")%string.

(** 3. prose, then the JSON, then more prose *)
Definition prose_prefixed : string :=
  (q "Here is the feature you asked for:|" ++ raw
     ++ q " Let me know if you want changes.")%string.

(** 4. JSON over several lines, with braces inside its strings *)
Definition multi_line : string :=
  q "{|  'id': 'F002',|  'title': 'Render {name} template',|  'description': 'Replace {name} and {date} in templates',|  'acceptance_criteria': [|    'The text {name} is replaced'|  ],|  'type': 'improvement',|  'passes': false|}".

Definition multi_line_in_prose : string :=
  (q "Sure! Here it is:||" ++ multi_line ++ q "||Done.")%string.

(** 5. an array of two objects *)
Definition array_of_two : string :=
  ("[" ++ raw ++ "," ++ multi_line ++ "]")%string.

Definition fenced_array : string :=
  (q "The atomic features:|```json|" ++ array_of_two ++ q "|```|")%string.

Definition array_in_prose : string :=
  (q "I split it in two [as asked]:|" ++ array_of_two ++ q "|Done.")%string.

(** The fragile case: one unmatched brace inside a string; alone, and
    after prose. *)
Definition unbalanced_task : Feature :=
  {| id := "F003"; title := "Open brace { only";
     description := "Write { to the log";
     acceptance_criteria := ["The log holds a {"];
     passes := false; type := None; target := None |}.

Definition unbalanced : string :=
  q "{|  'id': 'F003',|  'title': 'Open brace { only',|  'description': 'Write { to the log',|  'acceptance_criteria': ['The log holds a {'],|  'passes': false|}".

Definition unbalanced_in_prose : string :=
  (q "Sure:|" ++ unbalanced)%string.

(** Objects that parse and are no tasks: without acceptance criteria,
    with an empty list of them, without a title, and with a completion
    flag that is a string. *)
Definition no_criteria : string :=
  q "{'id':'F004','title':'t','description':'d','passes':false}".

Definition empty_criteria : string :=
  q "{'id':'F004','title':'t','description':'d','acceptance_criteria':[],'passes':false}".

Definition no_title : string :=
  q "{'id':'F004','description':'d','acceptance_criteria':['c'],'passes':false}".

Definition flag_as_text : string :=
  q "{'id':'F004','title':'t','description':'d','acceptance_criteria':['c'],'passes':'false'}".

(** The shapes in which a sample is offered to the extractor. *)
Definition shapes (sample : string) : list string :=
  [sample;
   (q "```json|" ++ sample ++ q "|```")%string;
   (q "Here it is:|" ++ sample ++ q "|Done.")%string;
   ("[" ++ sample ++ "]")%string;
   (q "```|[" ++ sample ++ q "]|```")%string].

End Samples.

(** The cascade recovers the task [t] from [output]. *)
Definition recovers_one (output : string) (t : Feature) : Prop :=
  exists v,
    FeatureAdderAgent.parseFeature output = Some v
    /\ FeatureAdderAgent.validateFeature v = Returned true
    /\ asFeature v = Some t.

Definition recovers_many (output : string) (ts : list Feature) : Prop :=
  exists vs,
    FeatureAtomizerAgent.parseFeatures output = Some vs
    /\ forallb FeatureAtomizerAgent.validateFeature vs = true
    /\ asFeatures vs = Some ts.


(** *** Parsers

    [g] gives what [f] gives wherever [f] succeeds. *)
Definition agrees_with {A} (f g : text -> option A) : Prop :=
  forall t x, f t = Some x -> g t = Some x.

(** *** The task store *)

(** The workspace holds the task list [fl]. *)
Definition stores (w : World) (fl : FeatureList) : Prop :=
  feature_list_json (disk w) = Holds (Encodes fl).

(** What a read of the store gives, for each state of the file. *)
Definition loaded (w : World) : option FeatureList :=
  match feature_list_json (disk w) with
  | Holds (Encodes fl) => Some fl
  | _ => None
  end.

(** The category of a task: its [type], or the default category when the
    field is absent. *)
Definition category (f : Feature) : FeatureType :=
  match type f with Some t => t | None => TyFeature end.

(** A task is eligible when its completion flag is false and it matches
    the filter; without a filter every category matches. *)
Definition eligible (filter : option string) (f : Feature) : bool :=
  negb (passes f)
  && match filter with
     | Some ty => String.eqb (FeatureType_name (category f)) ty
     | None => true
     end.

(** [nextTask(categoryFilter?)] *)
Definition nextTask (filter : option string) : M (option Feature) :=
  match filter with
  | Some ty => ContextBuilder.getNextFeatureByType ty
  | None => ContextBuilder.getNextFeature
  end.

(** [r] is the earliest element of [l] that satisfies [p], or nothing
    when no element does. *)
Definition earliest (p : Feature -> bool) (l : list Feature)
           (r : option Feature) : Prop :=
  match r with
  | Some t =>
      exists before after,
        l = before ++ t :: after
        /\ p t = true
        /\ Forall (fun f => p f = false) before
  | None => Forall (fun f => p f = false) l
  end.

(** An incoming record carries an identifier that a task of the list
    already has. *)
Definition id_exists (fl : FeatureList) (v : json) : Prop :=
  exists s f, field v "id" = Some (JString s) /\ In f (features fl) /\ id f = s.

(** *** Sessions *)

(** The request a session started in [w] sends, when it finds a task. *)
Definition session_request (options : CodingAgent.CodingAgentOptions)
           (w : World) : option AgentQueryOptions.t :=
  match ContextBuilder.buildSessionContext w with
  | (_, Returned (Some ctx)) => Some (CodingAgent.queryOptions options ctx)
  | _ => None
  end.

(** The task a request is about. *)
Definition target_of (q : AgentQueryOptions.t) : option Feature :=
  match AgentQueryOptions.prompt q with
  | CodingAgentContext f _ _ _ => Some f
  | _ => None
  end.

(** The world after the collaborator answered the request [q] made in
    [w]: it is as the collaborator left it, and the request is on
    record. *)
Definition world_after (w : World) (q : AgentQueryOptions.t) (run : Run)
  : World :=
  {| disk := after_disk run;
     env := after_env run;
     queries := queries w ++ [q] |}.

(** The task with identifier [task_id] as a fresh read of the disk finds
    it (the first one, should the identifier occur twice). *)
Definition task_on_disk (d : Disk) (task_id : string) : option Feature :=
  match feature_list_json d with
  | Holds (Encodes fl) =>
      find (fun f => String.eqb (id f) task_id) (features fl)
  | _ => None
  end.

(** The disk shows the task as completed. *)
Definition done_on_disk (d : Disk) (task_id : string) : Prop :=
  exists f, task_on_disk d task_id = Some f /\ passes f = true.

(** The commit [git rev-parse] reports in an environment, if any. *)
Definition commit_of (e : Env) : option string :=
  match git_rev_parse e with
  | Returned stdout => Some (to_string (trim (of_string stdout)))
  | Thrown _ => None
  end.

(** The context a session started in [w] assembles for the task [f]. *)
Definition context_of (w : World) (f : Feature) : SessionContext :=
  {| feature := f;
     progressLog :=
       match progress_log (disk w) with
       | Holds content =>
           to_string
             (ContextBuilder.join_blank
                (ContextBuilder.slice_last 10
                   (ContextBuilder.split_blank (trim (of_string content)))))
       | _ => ""
       end;
     gitLog :=
       match git_log (env w) 10 with
       | Returned stdout => to_string (trim (of_string stdout))
       | Thrown _ => "(no git history)"
       end;
     projectStructure := directory_tree (env w) 3 |}.

(** What a session about the task [f] reports after the run [run] of the
    collaborator. *)
Definition session_result (f : Feature) (run : Run) : SessionResult.t :=
  let result := AgentSdkClient.result_of run in
  let timestamp := now (after_env run) in
  if AgentQueryResult.success result then
    let success :=
      match task_on_disk (after_disk run) (id f) with
      | Some g => passes g
      | None => false
      end in
    {| SessionResult.success := success;
       SessionResult.featureId := id f;
       SessionResult.commitHash := commit_of (after_env run);
       SessionResult.error := None;
       SessionResult.progressEntry :=
         CodingAgent.entry timestamp f
           (if success then "COMPLETED" else "INCOMPLETE") |}
  else
    {| SessionResult.success := false;
       SessionResult.featureId := id f;
       SessionResult.commitHash := None;
       SessionResult.error :=
         Some (or_default (AgentQueryResult.error result)
                 "Claude Agent SDK session failed");
       SessionResult.progressEntry := CodingAgent.entry timestamp f "ERROR" |}.

(** What a session reports when it finds no task. *)
Definition nothing_to_do : SessionResult.t :=
  {| SessionResult.success := false;
     SessionResult.featureId := "";
     SessionResult.commitHash := None;
     SessionResult.error :=
       Some "No pending features found. All features may be complete.";
     SessionResult.progressEntry := "" |}.

(** The world with another disk. *)
Definition with_disk (w : World) (d : Disk) : World :=
  {| disk := d; env := env w; queries := queries w |}.

(** The journal after one more entry: the entry alone in a new file,
    else after a blank line. *)
Definition journal_with (log : file string) (entry : string) : file string :=
  match log with
  | Missing => Holds entry
  | Unreadable why => Unreadable why
  | Holds old => Holds (old ++ String lf (String lf entry))%string
  end.

(** *** The loop as a sequence of sessions *)

Section LoopTrace.
Variable query : Collaborator.
Variable options : Cli.LoopOptions.

Definition session_options : CodingAgent.CodingAgentOptions :=
  {| CodingAgent.workspacePath := Cli.projectPath options;
     CodingAgent.maxTurns := Some (Cli.maxTurns options) |}.

Definition loop_filter : option string :=
  Cli.filter_given (Cli.featureType options).

(** Iterations left when [session] has the given value. *)
Definition remaining (session : Z) : nat :=
  match Cli.maxSessions options with
  | Some m => Z.to_nat (m - session)
  | None => 0
  end.

(** [loop_trace w rs w']: starting in [w], the sessions with results
    [rs] take place one after the other and leave [w'].  Each session
    starts when the store [fl] has an eligible task, the earliest being
    [t]; it works on [t'], the earliest task not yet completed, calls
    the collaborator exactly once, and whatever its result [r] the next
    session starts from the world it leaves. *)
Inductive loop_trace : World -> list SessionResult.t -> World -> Prop :=
| trace_end (w : World) : loop_trace w [] w
| trace_session (w w1 w2 : World) (fl : FeatureList) (t t' : Feature)
                (q : AgentQueryOptions.t)
                (r : SessionResult.t) (rs : list SessionResult.t) :
    stores w fl ->
    earliest (eligible loop_filter) (features fl) (Some t) ->
    earliest ContextBuilder.pending (features fl) (Some t') ->
    target_of q = Some t' ->
    CodingAgent.runSession query session_options w = (w1, Returned r) ->
    w1 = world_after w q (query q w) ->
    SessionResult.featureId r = id t' ->
    loop_trace w1 rs w2 ->
    loop_trace w (r :: rs) w2.
End LoopTrace.

(** *** Scenarios *)

Module Scenario.

Definition todo (i : string) : Feature :=
  {| id := i; title := ("Task " ++ i)%string;
     description := "Implement it";
     acceptance_criteria := ["It works"];
     passes := false; type := None; target := None |}.

Definition list_of (fs : list Feature) : FeatureList :=
  {| project_name := "demo"; project_description := "A demo project";
     tech_stack := None; features := fs |}.

Definition disk_of (content : file list_content) : Disk :=
  {| feature_list_json := content;
     progress_log := Missing;
     harness_debug_output := Missing;
     harness_atomizer_debug := Missing |}.

Definition env0 : Env :=
  {| git_rev_parse := Thrown "fatal: not a git repository";
     git_log := fun _ => Thrown "fatal: not a git repository";
     directory_tree := fun _ => "./";
     now := "2025-01-01T00:00:00.000Z";
     write_error := None;
     auth_configured := true |}.

Definition world_of (fs : list Feature) : World :=
  {| disk := disk_of (Holds (Encodes (list_of fs)));
     env := env0;
     queries := [] |}.

Definition two_tasks : World := world_of [todo "F001"; todo "F002"].
Definition three_tasks : World :=
  world_of [todo "F001"; todo "F002"; todo "F003"].

(** A workspace whose [feature_list.json] is there and is not JSON. *)
Definition corrupt : World :=
  {| disk := disk_of (Holds (Malformed "Unexpected token o in JSON"));
     env := env0;
     queries := [] |}.

Definition no_store : World :=
  {| disk := disk_of Missing; env := env0; queries := [] |}.

Definition succeeded : list SDKMessage :=
  [AssistantMessage [TextBlock "Done."];
   ResultMessage "success" (Some "Feature implemented.") None].

Definition out_of_turns : list SDKMessage :=
  [AssistantMessage [TextBlock "Working..."];
   ResultMessage "error_max_turns" None (Some ["Reached maximum turns"])].

(** Setting the completion flag of the task [task_id]. *)
Definition mark_done (task_id : string) (d : Disk) : Disk :=
  match feature_list_json d with
  | Holds (Encodes fl) =>
      put_feature_list_json
        (Holds (Encodes
           {| project_name := project_name fl;
              project_description := project_description fl;
              tech_stack := tech_stack fl;
              features :=
                map (fun f =>
                       if String.eqb (id f) task_id then
                         {| id := id f; title := title f;
                            description := description f;
                            acceptance_criteria := acceptance_criteria f;
                            passes := true;
                            type := type f; target := target f |}
                       else f) (features fl) |})) d
  | _ => d
  end.

Definition done_target (q : AgentQueryOptions.t) (d : Disk) : Disk :=
  match target_of q with
  | Some f => mark_done (id f) d
  | None => d
  end.

(** Reports success and never touches the workspace. *)
Definition claims_success : Collaborator :=
  fun q w =>
    {| after_disk := disk w; after_env := env w;
       messages := succeeded; thrown := None |}.

(** Completes the task it is given and reports success. *)
Definition diligent : Collaborator :=
  fun q w =>
    {| after_disk := done_target q (disk w); after_env := env w;
       messages := succeeded; thrown := None |}.

(** Completes the task, then runs out of turns. *)
Definition done_but_out_of_turns : Collaborator :=
  fun q w =>
    {| after_disk := done_target q (disk w); after_env := env w;
       messages := out_of_turns; thrown := None |}.

(** Cannot be reached. *)
Definition unreachable : Collaborator :=
  fun q w =>
    {| after_disk := disk w; after_env := env w;
       messages := []; thrown := Some "connect ECONNREFUSED" |}.

(** Answers with the text [output] and touches nothing. *)
Definition answers (output : string) : Collaborator :=
  fun q w =>
    {| after_disk := disk w; after_env := env w;
       messages := [ResultMessage "success" (Some output) None];
       thrown := None |}.

Definition session : CodingAgent.CodingAgentOptions :=
  {| CodingAgent.workspacePath := "/work/demo";
     CodingAgent.maxTurns := None |}.

Definition loop_with (m : Z) : Cli.LoopOptions :=
  {| Cli.maxSessions := Some m; Cli.maxTurns := 50%Z;
     Cli.projectPath := "/work/demo"; Cli.featureType := None |}.

Definition atomize : FeatureAtomizerOptions.t :=
  {| FeatureAtomizerOptions.workspacePath := "/work/demo";
     FeatureAtomizerOptions.featureType := TyFeature;
     FeatureAtomizerOptions.description := "Accounts" |}.

Definition add : FeatureAdderOptions.t :=
  {| FeatureAdderOptions.workspacePath := "/work/demo";
     FeatureAdderOptions.featureType := TyFeature;
     FeatureAdderOptions.description := "Login";
     FeatureAdderOptions.relatedFiles := None |}.

End Scenario.

(* ===================================================================== *)
(** ** More of [ContextBuilder]: the progress statistics *)
(* ===================================================================== *)

(** [{ completed: number; pending: number }], an entry of [byType]. *)
Module TypeCount.
Record t := { completed : nat; pending : nat }.
End TypeCount.

(** What [getProgressStats] returns. *)
Module ProgressStats.
Record t := {
  total : nat;
  completed : nat;
  pending : nat;
  percentage : nat
}.
End ProgressStats.

(** What [getProgressStatsByType] returns; [byType] lists its keys in the
    order in which the loop created them. *)
Module ProgressStatsByType.
Record t := {
  total : nat;
  completed : nat;
  pending : nat;
  percentage : nat;
  byType : list (string * TypeCount.t)
}.
End ProgressStatsByType.

Module Statistics.

(** [feature.type || 'feature'] *)
Definition type_or_feature (f : Feature) : string :=
  match type f with
  | Some t => FeatureType_name t
  | None => "feature"
  end.

(** One turn of the loop over the features:
<<
    if (!byType[type]) byType[type] = { completed: 0, pending: 0 };
    if (feature.passes) byType[type].completed++;
    else byType[type].pending++;
>>  *)
Definition count_one (done : bool) (c : TypeCount.t) : TypeCount.t :=
  if done
  then {| TypeCount.completed := S (TypeCount.completed c);
          TypeCount.pending := TypeCount.pending c |}
  else {| TypeCount.completed := TypeCount.completed c;
          TypeCount.pending := S (TypeCount.pending c) |}.

Fixpoint count_in (ty : string) (done : bool)
         (byType : list (string * TypeCount.t))
  : list (string * TypeCount.t) :=
  match byType with
  | [] =>
      [(ty, count_one done
              {| TypeCount.completed := 0; TypeCount.pending := 0 |})]
  | (k, c) :: rest =>
      if String.eqb k ty then (k, count_one done c) :: rest
      else (k, c) :: count_in ty done rest
  end.

Definition breakdown (fs : list Feature) : list (string * TypeCount.t) :=
  fold_left (fun byType f => count_in (type_or_feature f) (passes f) byType)
            fs [].

Section WithRounding.

(** [Math.round((completed / total) * 100)] is computed in floating
    point; the statistics are given for any such function of the two
    counts. *)
Variable round_percent : nat -> nat -> nat.

Definition percentage_of (completed total : nat) : nat :=
  if 0 <? total then round_percent completed total else 0.

Definition getProgressStats : M ProgressStats.t :=
  featureList <- ContextBuilder.loadFeatureList ;;
  match featureList with
  | None =>
      ret {| ProgressStats.total := 0; ProgressStats.completed := 0;
             ProgressStats.pending := 0; ProgressStats.percentage := 0 |}
  | Some featureList =>
      let total := length (features featureList) in
      let completed := length (filter passes (features featureList)) in
      let pending := total - completed in
      ret {| ProgressStats.total := total;
             ProgressStats.completed := completed;
             ProgressStats.pending := pending;
             ProgressStats.percentage := percentage_of completed total |}
  end.

Definition getProgressStatsByType : M ProgressStatsByType.t :=
  featureList <- ContextBuilder.loadFeatureList ;;
  match featureList with
  | None =>
      ret {| ProgressStatsByType.total := 0;
             ProgressStatsByType.completed := 0;
             ProgressStatsByType.pending := 0;
             ProgressStatsByType.percentage := 0;
             ProgressStatsByType.byType := [] |}
  | Some featureList =>
      let total := length (features featureList) in
      let completed := length (filter passes (features featureList)) in
      let pending := total - completed in
      ret {| ProgressStatsByType.total := total;
             ProgressStatsByType.completed := completed;
             ProgressStatsByType.pending := pending;
             ProgressStatsByType.percentage := percentage_of completed total;
             ProgressStatsByType.byType := breakdown (features featureList) |}
  end.

End WithRounding.

End Statistics.

(* ===================================================================== *)
(** ** The [run] and [reset] commands ([cli.ts]) *)
(* ===================================================================== *)

Module Commands.

(** The options of the [run] commands after [resolve] and [parseInt]. *)
Record RunOptions := {
  project : string;
  maxTurns : Z
}.

(** How a [run] command ends: [process.exit(code)], or the end of the
    handler with the task it announced and the result of the session. *)
Inductive run_ending : Type :=
| RunExit (code : Z)
| RunDone (announced : Feature) (result : SessionResult.t).

(** How [reset] ends. *)
Inductive reset_ending : Type :=
| ResetExit (code : Z)
| ResetDone.

(** [answer.toLowerCase()], for the letters of ASCII. *)
Definition toLowerCase_char (c : ascii) : ascii :=
  let n := nat_of_ascii c in
  if (65 <=? n) && (n <=? 90) then ascii_of_nat (n + 32) else c.

Definition toLowerCase (s : string) : string :=
  to_string (map toLowerCase_char (of_string s)).

(** [feature.passes = false] *)
Definition unset_passes (f : Feature) : Feature :=
  {| id := id f; title := title f; description := description f;
     acceptance_criteria := acceptance_criteria f;
     passes := false;
     type := type f; target := target f |}.

(** The action of [reset]; [answer] is what the user types at the
    prompt. *)
Definition reset (answer : string) : M reset_ending :=
  featureList <- ContextBuilder.loadFeatureList ;;
  match featureList with
  | None => ret (ResetExit 1)
  | Some featureList =>
      if negb (String.eqb (toLowerCase answer) "y") then ret (ResetExit 0)
      else
        let featureList :=
          {| project_name := project_name featureList;
             project_description := project_description featureList;
             tech_stack := tech_stack featureList;
             features := map unset_passes (features featureList) |} in
        ContextBuilder.saveFeatureList featureList ;;;
        ret ResetDone
  end.

Section WithCollaborator.
Variable query : Collaborator.

(** [runCommandHandler(options, featureType?)], the handler shared by
    [run], [refactor], [fix], [improve] and [docs].  What it prints,
    the statistics included, is left out. *)
Definition runCommandHandler (options : RunOptions)
           (featureType : option FeatureType) : M run_ending :=
  e <- get_env ;;
  if negb (auth_configured e) then ret (RunExit 1)
  else
    d <- get_disk ;;
    if negb (existsSync (feature_list_json d)) then ret (RunExit 1)
    else
      (* Load next feature (filtered by type if specified) *)
      feature <-
        match featureType with
        | Some ty =>
            ContextBuilder.getNextFeatureByType (FeatureType_name ty)
        | None => ContextBuilder.getNextFeature
        end ;;
      match feature with
      | None => ret (RunExit 0)
      | Some feature =>
          result <- CodingAgent.runSession query
                      {| CodingAgent.workspacePath := project options;
                         CodingAgent.maxTurns := Some (maxTurns options) |} ;;
          ret (RunDone feature result)
      end.

End WithCollaborator.

End Commands.

(* ===================================================================== *)
(** ** Credentials ([core/agent-sdk-client.ts]) *)
(* ===================================================================== *)

Module Auth.

(** The variables of [process.env] the two functions read; [None] when
    the variable is not set. *)
Record ProcessEnv := {
  CLAUDE_CODE_OAUTH_TOKEN : option string;
  ANTHROPIC_API_KEY : option string
}.

Inductive AuthMethod : Type := oauth | api_key | none.

(** The truthiness of [process.env[name]]. *)
Definition is_set (v : option string) : bool :=
  match v with
  | Some s => negb (String.eqb s "")
  | None => false
  end.

Definition isAuthConfigured (e : ProcessEnv) : bool :=
  is_set (CLAUDE_CODE_OAUTH_TOKEN e) || is_set (ANTHROPIC_API_KEY e).

Definition getAuthMethod (e : ProcessEnv) : AuthMethod :=
  if is_set (CLAUDE_CODE_OAUTH_TOKEN e) then oauth
  else if is_set (ANTHROPIC_API_KEY e) then api_key
  else none.

End Auth.

(* ===================================================================== *)
(** ** [OutputFormatter] ([core/output-formatter.ts]) *)
(* ===================================================================== *)

Module OutputFormatter.

(** [enum Section] *)
Inductive OutputSection : Type :=
| EXPLORING | EDITING | RUNNING | PLANNING.

Definition OutputSection_eqb (a b : OutputSection) : bool :=
  match a, b with
  | EXPLORING, EXPLORING | EDITING, EDITING
  | RUNNING, RUNNING | PLANNING, PLANNING => true
  | _, _ => false
  end.

(** The patterns of [SECTION_PATTERNS] are sequences of groups, each
    group a choice between literal texts; an optional group [(?:a|b)?]
    has the empty text among its choices.  All carry the flag [i]. *)
Definition pattern := list (list string).

(** Two characters are equal under the flag [i]. *)
Definition eq_ci (a b : ascii) : bool :=
  Ascii.eqb (Commands.toLowerCase_char a) (Commands.toLowerCase_char b).

(** The literal [p] is at the head of [t], letter case apart. *)
Fixpoint startsWith_ci (p t : text) : bool :=
  match p, t with
  | [], _ => true
  | x :: p', y :: t' => eq_ci x y && startsWith_ci p' t'
  | _ :: _, [] => false
  end.

(** The pattern matches at the head of [t]. *)
Fixpoint matches_at (p : pattern) (t : text) : bool :=
  match p with
  | [] => true
  | choices :: rest =>
      existsb
        (fun choice =>
           startsWith_ci (of_string choice) t
           && matches_at rest (skipn (String.length choice) t))
        choices
  end.

(** [pattern.test(t)]: the pattern matches somewhere in [t]. *)
Fixpoint test (p : pattern) (t : text) : bool :=
  matches_at p t
  || match t with
     | [] => false
     | _ :: r => test p r
     end.

Definition verbs_exploring : list string :=
  ["examine"; "read"; "check"; "look at"; "explore"; "search"].
Definition verbs_editing : list string :=
  ["edit"; "modify"; "update"; "change"; "create"; "write"].

(** [SECTION_PATTERNS], in the order of the object's keys. *)
Definition SECTION_PATTERNS : list (OutputSection * list pattern) :=
  [(EXPLORING,
    [[["Let me "]; ["first "; "now "; ""]; verbs_exploring];
     [["I'll "]; ["first "; "now "; ""]; verbs_exploring];
     [["Reading"; "Examining"; "Exploring"; "Checking"]]]);
   (EDITING,
    [[["Let me "]; ["now "; ""]; verbs_editing];
     [["I'll "]; ["now "; ""]; verbs_editing];
     [["Creating"; "Editing"; "Modifying"; "Updating"; "Writing"];
      [" "]; ["the "; "a "; ""]; ["file"]]]);
   (RUNNING,
    [[["Let me"; "I'll"]; [" "]; ["now "; ""]; ["run"; "execute"];
      [" "]; ["the "; ""]; ["command"]];
     [["Running"; "Executing"]]]);
   (PLANNING,
    [[["Let me "]; ["first "; ""]; ["plan"; "think"; "consider"; "analyze"]];
     [["I'll "]; ["first "; ""]; ["plan"; "outline"; "design"]]])].

(** The fields of the formatter. *)
Record state := {
  currentSection : option OutputSection;
  buffer : text
}.

Definition initial : state := {| currentSection := None; buffer := [] |}.

Definition MAX_BUFFER_SIZE : nat := 500.

(** [detectSection()]: the first section one of whose patterns matches
    the buffer. *)
Definition detectSection (buffer : text) : option OutputSection :=
  option_map fst
    (find (fun entry => existsb (fun p => test p buffer) (snd entry))
          SECTION_PATTERNS).

(** [buffer.slice(-MAX_BUFFER_SIZE)] *)
Definition slice_tail (n : nat) (t : text) : text :=
  skipn (length t - n) t.

Section WithHeaders.

(** [getSectionHeader(section)]: the coloured header, as [chalk] renders
    it for the terminal at hand. *)
Variable getSectionHeader : OutputSection -> string.

(** [formatText(chunk)]: the new fields and the text returned. *)
Definition formatText (chunk : string) (st : state) : state * string :=
  let buffer1 := buffer st ++ of_string chunk in
  let buffer2 :=
    if MAX_BUFFER_SIZE <? length buffer1
    then slice_tail MAX_BUFFER_SIZE buffer1
    else buffer1 in
  match detectSection buffer2 with
  | Some detectedSection =>
      if negb (match currentSection st with
               | Some current => OutputSection_eqb detectedSection current
               | None => false
               end)
      then ({| currentSection := Some detectedSection; buffer := buffer2 |},
            (getSectionHeader detectedSection ++ chunk)%string)
      else ({| currentSection := currentSection st; buffer := buffer2 |},
            chunk)
  | None => ({| currentSection := currentSection st; buffer := buffer2 |},
             chunk)
  end.

(** [reset()] *)
Definition reset (st : state) : state := initial.

End WithHeaders.

End OutputFormatter.

(* ===================================================================== *)
(** ** The commands that add tasks ([cli.ts]) *)
(* ===================================================================== *)

Module AddCommands.

(** [const VALID_TARGETS] *)
Definition VALID_TARGETS : list string :=
  ["web"; "mobile"; "shared"; "full"; "backend"; "api"].

(** The options of the [add-*] commands, [project] after [resolve]. *)
Record AddOptions := {
  project : string;
  file : option string;
  atomize : bool;
  target : option string
}.

(** How a handler ends: [process.exit(code)], or its end after the
    task or the tasks it reports as added. *)
Inductive ending : Type :=
| Exit (code : Z)
| Added (feature : Feature)
| Atomized (features : list Feature).

(** [target.toUpperCase()], for the letters of ASCII. *)
Definition toUpperCase_char (c : ascii) : ascii :=
  let n := nat_of_ascii c in
  if (97 <=? n) && (n <=? 122) then ascii_of_nat (n - 32) else c.

Definition toUpperCase (s : string) : string :=
  to_string (map toUpperCase_char (of_string s)).

(** [target ? ... : ...]: an empty string counts as no target. *)
Definition target_given (target : option string) : option string :=
  match target with
  | Some t => if String.eqb t "" then None else Some t
  | None => None
  end.

(** [target && !VALID_TARGETS.includes(target)] *)
Definition invalid_target (target : option string) : bool :=
  match target_given target with
  | Some t => negb (existsb (String.eqb t) VALID_TARGETS)
  | None => false
  end.

(** [!description || description.trim().length === 0] *)
Definition blank (description : string) : bool :=
  String.eqb description ""
  || (length (trim (of_string description)) =? 0).

(** [target ? `[${target.toUpperCase()}] ${description}` : description] *)
Definition fullDescription (target : option string) (description : string)
  : string :=
  match target_given target with
  | Some t => ("[" ++ toUpperCase t ++ "] " ++ description)%string
  | None => description
  end.

Section WithCollaborator.
Variable query : Collaborator.

(** [atomizeFeatureHandler(description, featureType, options)]; the
    result is [None] where that of [atomizeFeature] is. *)
Definition atomizeFeatureHandler (description : string)
           (featureType : FeatureType) (project : string)
           (target : option string) : M (option ending) :=
  e <- get_env ;;
  if negb (auth_configured e) then ret (Some (Exit 1))
  else if blank description then ret (Some (Exit 1))
  else
    d <- get_disk ;;
    if negb (existsSync (feature_list_json d)) then ret (Some (Exit 1))
    else
      result <- FeatureAtomizerAgent.atomizeFeature query
                  {| FeatureAtomizerOptions.workspacePath := project;
                     FeatureAtomizerOptions.featureType := featureType;
                     FeatureAtomizerOptions.description :=
                       fullDescription target description |} ;;
      match result with
      | None => ret None
      | Some result =>
          match FeatureAtomizerResult.success result,
                FeatureAtomizerResult.features result with
          | true, Some features => ret (Some (Atomized features))
          | _, _ => ret (Some (Exit 1))
          end
      end.

(** [addFeatureHandler(description, featureType, options)] *)
Definition addFeatureHandler (description : string)
           (featureType : FeatureType) (options : AddOptions)
  : M (option ending) :=
  (* Validate target if provided *)
  if invalid_target (target options) then ret (Some (Exit 1))
  (* If --atomize flag is set, use atomizeFeatureHandler instead *)
  else if atomize options then
    atomizeFeatureHandler description featureType (project options)
      (target options)
  else
    e <- get_env ;;
    if negb (auth_configured e) then ret (Some (Exit 1))
    else if blank description then ret (Some (Exit 1))
    else
      d <- get_disk ;;
      if negb (existsSync (feature_list_json d)) then ret (Some (Exit 1))
      else
        result <- FeatureAdderAgent.addFeature query
                    {| FeatureAdderOptions.workspacePath := project options;
                       FeatureAdderOptions.featureType := featureType;
                       FeatureAdderOptions.description :=
                         fullDescription (target options) description;
                       FeatureAdderOptions.relatedFiles := file options |} ;;
        match result with
        | None => ret None
        | Some result =>
            match FeatureAdderResult.success result,
                  FeatureAdderResult.feature result with
            | true, Some feature => ret (Some (Added feature))
            | _, _ => ret (Some (Exit 1))
            end
        end.

End WithCollaborator.

End AddCommands.

(* ===================================================================== *)
(** ** Vocabulary for the properties of the remaining code *)
(* ===================================================================== *)

(** *** The stream of a query *)

Definition is_result (m : SDKMessage) : bool :=
  match m with
  | ResultMessage _ _ _ => true
  | _ => false
  end.

(** The last result message of the stream [ms] has the subtype [s]. *)
Definition last_result (ms : list SDKMessage) (s : string) : Prop :=
  exists before r e after,
    ms = before ++ ResultMessage s r e :: after
    /\ Forall (fun m => is_result m = false) after.

(** The text blocks of a message, and of the assistant messages of a
    stream, one after the other. *)
Fixpoint blocks_text (content : list ContentBlock) : string :=
  match content with
  | [] => ""
  | TextBlock text :: r => (text ++ blocks_text r)%string
  | OtherBlock :: r => blocks_text r
  end.

Fixpoint assistant_text (ms : list SDKMessage) : string :=
  match ms with
  | [] => ""
  | AssistantMessage content :: r =>
      (blocks_text content ++ assistant_text r)%string
  | _ :: r => assistant_text r
  end.

(** The variables of [runAgentQuery] before the first message. *)
Definition before_stream : AgentSdkClient.acc :=
  {| AgentSdkClient.output := "";
     AgentSdkClient.success := false;
     AgentSdkClient.error := None |}.

(** A result message that reports success and carries a text. *)
Definition carries_final_text (m : SDKMessage) : bool :=
  match m with
  | ResultMessage s (Some r) _ => String.eqb s "success" && negb (String.eqb r "")
  | _ => false
  end.

(** *** The journal *)

(** No blank line inside the text: no two line feeds in a row. *)
Fixpoint no_blank_line (t : text) : bool :=
  match t with
  | a :: r =>
      match r with
      | b :: _ => negb (Ascii.eqb a lf && Ascii.eqb b lf) && no_blank_line r
      | [] => true
      end
  | [] => true
  end.

(** An entry that reads back as it was written: it begins and ends with
    a character that is no white space and has no blank line inside. *)
Definition tidy (entry : string) : bool :=
  match of_string entry with
  | c :: r =>
      negb (is_space c) && negb (is_space (last (c :: r) c))
      && no_blank_line (c :: r)
  | [] => false
  end.

(** The entries joined as the journal holds them. *)
Definition journal_text (entries : list string) : string :=
  to_string (ContextBuilder.join_blank (map of_string entries)).

(** [appendToProgressLog] for each entry in turn. *)
Fixpoint appendAll (entries : list string) : M unit :=
  match entries with
  | [] => ret tt
  | entry :: rest =>
      ContextBuilder.appendToProgressLog entry ;;; appendAll rest
  end.

(** *** Bracket counting *)

(** The counter of the scanning loop after the text [t], started at
    [count]: one up for every [open], one down for every [close]. *)
Definition depth (open close : ascii) (count : Z) (t : text) : Z :=
  fold_left
    (fun n c =>
       let n1 := if Ascii.eqb c open then (n + 1)%Z else n in
       if Ascii.eqb c close then (n1 - 1)%Z else n1)
    t count.

(** *** The loops of the matcher, by name *)

Section MatcherLoops.
Context {A : Type}.
Variable a : re.
Variable k : text -> option text -> option A.

(** The iterations of [Star a] before the continuation [k]. *)
Fixpoint star_loop (n : nat) (t : text) (cap : option text) : option A :=
  match n with
  | O => k t cap
  | S n' =>
      match run a t cap
              (fun t' cap' =>
                 if length t' <? length t then star_loop n' t' cap'
                 else None) with
      | Some x => Some x
      | None => k t cap
      end
  end.

(** The iterations of [LazyStar a] before the continuation [k]. *)
Fixpoint lazy_loop (n : nat) (t : text) (cap : option text) : option A :=
  match n with
  | O => k t cap
  | S n' =>
      match k t cap with
      | Some x => Some x
      | None =>
          run a t cap
            (fun t' cap' =>
               if length t' <? length t then lazy_loop n' t' cap'
               else None)
      end
  end.

End MatcherLoops.

(** *** Growing the task list *)

(** The list [fl] with the tasks [added] after its own. *)
Definition with_added (fl : FeatureList) (added : list Feature)
  : FeatureList :=
  {| project_name := project_name fl;
     project_description := project_description fl;
     tech_stack := tech_stack fl;
     features := features fl ++ added |}.

(** The requests the two agents send for the list [fl] from the world
    [w]. *)
Definition atomizer_request (options : FeatureAtomizerOptions.t)
           (fl : FeatureList) (w : World) : AgentQueryOptions.t :=
  FeatureAtomizerAgent.queryOptions options fl (directory_tree (env w) 3).

Definition adder_request (options : FeatureAdderOptions.t)
           (fl : FeatureList) (w : World) : AgentQueryOptions.t :=
  FeatureAdderAgent.queryOptions options fl (directory_tree (env w) 3).

(** *** Counting tasks *)

(** The tasks of the category named [ty], completed or not. *)
Definition of_category (ty : string) (done : bool) (f : Feature) : bool :=
  String.eqb (Statistics.type_or_feature f) ty && Bool.eqb (passes f) done.

(** The counts [byType] should hold for the category named [ty]. *)
Definition counts_of (ty : string) (fs : list Feature) : TypeCount.t :=
  {| TypeCount.completed := length (filter (of_category ty true) fs);
     TypeCount.pending := length (filter (of_category ty false) fs) |}.

(** The entry of a category no task has. *)
Definition no_counts : TypeCount.t :=
  {| TypeCount.completed := 0; TypeCount.pending := 0 |}.

(** The sums over the entries of [byType]. *)
Definition sum_completed (byType : list (string * TypeCount.t)) : nat :=
  list_sum (map (fun entry => TypeCount.completed (snd entry)) byType).

Definition sum_pending (byType : list (string * TypeCount.t)) : nat :=
  list_sum (map (fun entry => TypeCount.pending (snd entry)) byType).

(** *** Commands *)

(** The list [fl] with every completion flag cleared. *)
Definition reset_list (fl : FeatureList) : FeatureList :=
  {| project_name := project_name fl;
     project_description := project_description fl;
     tech_stack := tech_stack fl;
     features := map Commands.unset_passes (features fl) |}.

(** The user confirms with [y] or [Y]. *)
Definition confirms (answer : string) : Prop :=
  answer = "y" \/ answer = "Y".

(** The filter a [run] command selects with. *)
Definition run_filter (featureType : option FeatureType) : option string :=
  option_map FeatureType_name featureType.

(** The options of the session a [run] command starts. *)
Definition run_session_options (options : Commands.RunOptions)
  : CodingAgent.CodingAgentOptions :=
  {| CodingAgent.workspacePath := Commands.project options;
     CodingAgent.maxTurns := Some (Commands.maxTurns options) |}.

(** *** A collaborator that does its work *)

(** Whatever it is asked, the collaborator sets the flag of the task of
    the request, leaves the rest of the disk alone and reports
    success. *)
Definition completes_its_task (query : Collaborator) : Prop :=
  forall q w,
    after_disk (query q w) = Scenario.done_target q (disk w)
    /\ AgentQueryResult.success (AgentSdkClient.result_of (query q w)) = true.

(** The task [f] with its flag set. *)
Definition completed (f : Feature) : Feature :=
  {| id := id f; title := title f; description := description f;
     acceptance_criteria := acceptance_criteria f;
     passes := true;
     type := type f; target := target f |}.

(** What setting the flag of the task [task_id] makes of a task. *)
Definition mark_task (task_id : string) (f : Feature) : Feature :=
  if String.eqb (id f) task_id then completed f else f.

(** *** The formatter over a stream *)

(** The formatter fed with the chunks of a stream, one after the other:
    its fields at the end and the texts it returned. *)
Fixpoint feed (header : OutputFormatter.OutputSection -> string)
         (chunks : list string) (st : OutputFormatter.state)
  : OutputFormatter.state * list string :=
  match chunks with
  | [] => (st, [])
  | chunk :: rest =>
      let (st1, out) := OutputFormatter.formatText header chunk st in
      let (st2, outs) := feed header rest st1 in
      (st2, out :: outs)
  end.

(** The text of a stream. *)
Definition stream_text (chunks : list string) : text :=
  concat (map of_string chunks).

(** One of the words of the third exploring pattern occurs in the
    buffer, letter case apart. *)
Definition shows_exploring_word (buffer : text) : Prop :=
  exists word,
    In word ["Reading"; "Examining"; "Exploring"; "Checking"]
    /\ OutputFormatter.test [[word]] buffer = true.

(** *** The commands that add tasks *)

(** The checks a handler makes before it calls its agent. *)
Definition add_guard (description : string) (w : World) : bool :=
  auth_configured (env w)
  && negb (AddCommands.blank description)
  && existsSync (feature_list_json (disk w)).

(** The options the handlers pass to the agents. *)
Definition adder_options (description : string) (featureType : FeatureType)
           (options : AddCommands.AddOptions) : FeatureAdderOptions.t :=
  {| FeatureAdderOptions.workspacePath := AddCommands.project options;
     FeatureAdderOptions.featureType := featureType;
     FeatureAdderOptions.description :=
       AddCommands.fullDescription (AddCommands.target options) description;
     FeatureAdderOptions.relatedFiles := AddCommands.file options |}.

Definition atomizer_options (description : string)
           (featureType : FeatureType) (project : string)
           (target : option string) : FeatureAtomizerOptions.t :=
  {| FeatureAtomizerOptions.workspacePath := project;
     FeatureAtomizerOptions.featureType := featureType;
     FeatureAtomizerOptions.description :=
       AddCommands.fullDescription target description |}.

(** The world is as it was, or the collaborator was called once for the
    list [fl] and [feature_list.json] is as it left it. *)
Definition untouched_or_as_left (query : Collaborator) (w w' : World)
           (request : FeatureList -> World -> AgentQueryOptions.t) : Prop :=
  w' = w
  \/ exists fl,
       stores w fl
       /\ queries w' = queries w ++ [request fl w]
       /\ feature_list_json (disk w')
          = feature_list_json (after_disk (query (request fl w) w)).

(** A result message that reports a failure and lists errors. *)
Definition carries_errors (m : SDKMessage) : bool :=
  match m with
  | ResultMessage s _ (Some _) => negb (String.eqb s "success")
  | _ => false
  end.

(** *** The shapes in which a task reaches the extractor *)












(** A valid task with a closing brace in its title, alone and after
    prose. *)
Module Fragile.

Definition task : Feature :=
  {| id := "F005"; title := "Close the } brace";
     description := "Handle a closing brace";
     acceptance_criteria := ["The brace is kept"];
     passes := false; type := None; target := None |}.

Definition raw : string :=
  q "{'id':'F005','title':'Close the } brace','description':'Handle a closing brace','acceptance_criteria':['The brace is kept'],'passes':false}".

Definition prose_prefixed : string :=
  (q "Here is the feature you asked for:|" ++ raw
     ++ q " Let me know if you want changes.")%string.

End Fragile.

(* ===================================================================== *)
(** * The JSON parser has fuel enough *)
(* ===================================================================== *)

Section JsonFuel.

Lemma eat_length (c : ascii) (t r : text) :
  eat c t = Some r -> length t = S (length r).
Proof.
  destruct t as [|x t]; simpl; [discriminate|].
  destruct (Ascii.eqb x c); [|discriminate].
  intros H. injection H as ->. reflexivity.
Qed.

Lemma skipn_shorter {A} (k : nat) (l : list A) :
  length (skipn k l) <= length l.
Proof. rewrite length_skipn. lia. Qed.

Lemma skip_ws_length (t : text) : length (skip_ws t) <= length t.
Proof.
  induction t as [|c t IH]; simpl; [lia|].
  destruct (is_json_ws c); simpl; lia.
Qed.

Lemma digits_length (t : text) :
  forall acc k a k' r, digits acc k t = (a, k', r) -> length r <= length t.
Proof.
  induction t as [|c t IH]; simpl; intros acc k a k' r H.
  - injection H as _ _ <-. simpl. lia.
  - destruct (digit_of c).
    + apply IH in H. lia.
    + injection H as _ _ <-. simpl. lia.
Qed.

Lemma parse_number_length (t : text) (x : number) (r : text) :
  parse_number t = Some (x, r) -> length r <= length t.
Proof.
  unfold parse_number. intros H.
  repeat (cbv beta iota zeta in H;
          match type of H with
          | context [eat ?c ?u] =>
              let E := fresh "E" in
              destruct (eat c u) eqn:E; [apply eat_length in E|]
          | context [digits ?a ?k ?u] =>
              let E := fresh "E" in
              destruct (digits a k u) as [[? [|?]] ?] eqn:E;
              apply digits_length in E
          end);
    cbv beta iota zeta in H;
    try discriminate; injection H as _ <-; lia.
Qed.

Lemma parse_string_body_length (t : text) :
  forall acc s r, parse_string_body acc t = Some (s, r) -> length r < length t.
Proof.
  induction t as [t IH] using (well_founded_induction
                                 (Wf_nat.well_founded_ltof _ (@length ascii))).
  unfold Wf_nat.ltof in IH.
  intros acc s r. destruct t as [|c t]; simpl; [discriminate|].
  destruct (Ascii.eqb c dquote).
  { intros H. injection H as _ <-. lia. }
  destruct (Ascii.eqb c "\"%char).
  - destruct t as [|e t']; [discriminate|].
    repeat match goal with
           | |- context [if Ascii.eqb e ?x then _ else _] =>
               destruct (Ascii.eqb e x);
               [intros H; apply IH in H; simpl in *; lia|]
           end.
    destruct (Ascii.eqb e "u"%char); [|discriminate].
    destruct t' as [|h1 [|h2 [|h3 [|h4 t'']]]]; try discriminate.
    destruct (hex_of h1), (hex_of h2), (hex_of h3), (hex_of h4);
      try discriminate.
    intros H. apply IH in H; simpl in *; lia.
  - destruct (nat_of_ascii c <? 32); [discriminate|].
    intros H. apply IH in H; simpl in *; lia.
Qed.

Lemma value_step_mono elements elements' members members' :
  agrees_with elements elements' -> agrees_with members members' ->
  agrees_with (value_step elements members) (value_step elements' members').
Proof.
  intros He Hm t x. unfold value_step.
  destruct (skip_ws t) as [|c r]; [discriminate|].
  destruct (Ascii.eqb c dquote); [auto|].
  destruct (Ascii.eqb c "["%char).
  { destruct (eat _ _); [auto|].
    destruct (elements r) as [[vs r']|] eqn:E; [|discriminate].
    now rewrite (He _ _ E). }
  destruct (Ascii.eqb c "{"%char).
  { destruct (eat _ _); [auto|].
    destruct (members r) as [[ms r']|] eqn:E; [|discriminate].
    now rewrite (Hm _ _ E). }
  auto.
Qed.

Lemma elements_step_mono value value' elements elements' :
  agrees_with value value' -> agrees_with elements elements' ->
  agrees_with (elements_step value elements) (elements_step value' elements').
Proof.
  intros Hv He t x. unfold elements_step.
  destruct (value t) as [[v r]|] eqn:E; [|discriminate].
  rewrite (Hv _ _ E).
  destruct (eat ","%char _) as [r'|]; [|auto].
  destruct (elements r') as [[vs r'']|] eqn:E'; [|discriminate].
  now rewrite (He _ _ E').
Qed.

Lemma members_step_mono value value' members members' :
  agrees_with value value' -> agrees_with members members' ->
  agrees_with (members_step value members) (members_step value' members').
Proof.
  intros Hv Hm t x. unfold members_step.
  destruct (skip_ws t) as [|c r]; [discriminate|].
  destruct (Ascii.eqb c dquote); [|discriminate].
  destruct (parse_string_body [] r) as [[k r1]|]; [|discriminate].
  destruct (eat ":"%char _) as [r2|]; [|discriminate].
  destruct (value r2) as [[v r3]|] eqn:E; [|discriminate].
  rewrite (Hv _ _ E).
  destruct (eat ","%char _) as [r4|]; [|auto].
  destruct (members r4) as [[ms r5]|] eqn:E'; [|discriminate].
  now rewrite (Hm _ _ E').
Qed.

(** More fuel never changes a result. *)
Lemma parse_fuel_step (n : nat) :
  agrees_with (parse_value n) (parse_value (S n))
  /\ agrees_with (parse_elements n) (parse_elements (S n))
  /\ agrees_with (parse_members n) (parse_members (S n)).
Proof.
  induction n as [|n (IHv & IHe & IHm)].
  - repeat split; intros t x H; discriminate H.
  - split; [|split].
    + exact (value_step_mono _ _ _ _ IHe IHm).
    + exact (elements_step_mono _ _ _ _ IHv IHe).
    + exact (members_step_mono _ _ _ _ IHv IHm).
Qed.

Lemma parse_fuel_mono (n m : nat) :
  n <= m ->
  agrees_with (parse_value n) (parse_value m)
  /\ agrees_with (parse_elements n) (parse_elements m)
  /\ agrees_with (parse_members n) (parse_members m).
Proof.
  induction 1 as [|m Hle (IHv & IHe & IHm)].
  - repeat split; intros t x H; exact H.
  - destruct (parse_fuel_step m) as (Sv & Se & Sm).
    repeat split; intros t x H; auto.
Qed.

(** A successful parse reads forward, and succeeds as well with fuel
    proportional to what it read. *)
Lemma parse_fuel_bound (n : nat) :
  (forall t v r,
      parse_value n t = Some (v, r) ->
      length r <= length t
      /\ parse_value (2 * (length t - length r) + 1) t = Some (v, r))
  /\ (forall t vs r,
        parse_elements n t = Some (vs, r) ->
        length r < length t
        /\ parse_elements (2 * (length t - length r)) t = Some (vs, r))
  /\ (forall t ms r,
        parse_members n t = Some (ms, r) ->
        length r < length t
        /\ parse_members (2 * (length t - length r)) t = Some (ms, r)).
Proof.
  induction n as [|n (IHv & IHe & IHm)];
    [repeat split; intros; discriminate|].
  assert (more_v : forall a b t x, a <= b ->
                     parse_value a t = Some x -> parse_value b t = Some x).
  { intros a b t x Hab. apply (parse_fuel_mono a b Hab). }
  assert (more_e : forall a b t x, a <= b ->
                     parse_elements a t = Some x ->
                     parse_elements b t = Some x).
  { intros a b t x Hab. apply (parse_fuel_mono a b Hab). }
  assert (more_m : forall a b t x, a <= b ->
                     parse_members a t = Some x ->
                     parse_members b t = Some x).
  { intros a b t x Hab. apply (parse_fuel_mono a b Hab). }
  split; [|split].
  - intros t v r. rewrite Nat.add_1_r.
    set (m := 2 * (length t - length r)).
    change (parse_value (S m) t)
      with (value_step (parse_elements m) (parse_members m) t).
    change (parse_value (S n) t)
      with (value_step (parse_elements n) (parse_members n) t).
    unfold value_step.
    pose proof (skip_ws_length t) as Hws.
    destruct (skip_ws t) as [|c r0]; [discriminate|]. simpl in Hws.
    destruct (Ascii.eqb c dquote).
    { destruct (parse_string_body [] r0) as [[s r']|] eqn:E; [|discriminate].
      apply parse_string_body_length in E.
      intros H. injection H as <- <-. split; [lia|reflexivity]. }
    destruct (Ascii.eqb c "["%char).
    { pose proof (skip_ws_length r0) as Hws'.
      destruct (eat "]"%char (skip_ws r0)) as [r'|] eqn:E.
      - apply eat_length in E.
        intros H. injection H as <- <-. split; [lia|reflexivity].
      - destruct (parse_elements n r0) as [[vs r']|] eqn:E'; [|discriminate].
        destruct (IHe _ _ _ E') as [Hlen Hfuel].
        intros H. injection H as <- <-. split; [lia|].
        rewrite (more_e (2 * (length r0 - length r')) m _ _
                   ltac:(unfold m; lia) Hfuel).
        reflexivity. }
    destruct (Ascii.eqb c "{"%char).
    { pose proof (skip_ws_length r0) as Hws'.
      destruct (eat "}"%char (skip_ws r0)) as [r'|] eqn:E.
      - apply eat_length in E.
        intros H. injection H as <- <-. split; [lia|reflexivity].
      - destruct (parse_members n r0) as [[ms r']|] eqn:E'; [|discriminate].
        destruct (IHm _ _ _ E') as [Hlen Hfuel].
        intros H. injection H as <- <-. split; [lia|].
        rewrite (more_m (2 * (length r0 - length r')) m _ _
                   ltac:(unfold m; lia) Hfuel).
        reflexivity. }
    destruct (startsWith (of_string "null") (c :: r0)).
    { match goal with
      | |- context [skipn ?k (c :: r0)] =>
          pose proof (skipn_shorter k (c :: r0)) as Hrest;
          set (rest := skipn k (c :: r0)) in *; clearbody rest
      end.
      intros H. injection H as <- <-. simpl in Hrest.
      split; [lia|reflexivity]. }
    destruct (startsWith (of_string "true") (c :: r0)).
    { match goal with
      | |- context [skipn ?k (c :: r0)] =>
          pose proof (skipn_shorter k (c :: r0)) as Hrest;
          set (rest := skipn k (c :: r0)) in *; clearbody rest
      end.
      intros H. injection H as <- <-. simpl in Hrest.
      split; [lia|reflexivity]. }
    destruct (startsWith (of_string "false") (c :: r0)).
    { match goal with
      | |- context [skipn ?k (c :: r0)] =>
          pose proof (skipn_shorter k (c :: r0)) as Hrest;
          set (rest := skipn k (c :: r0)) in *; clearbody rest
      end.
      intros H. injection H as <- <-. simpl in Hrest.
      split; [lia|reflexivity]. }
    destruct (parse_number (c :: r0)) as [[x r']|] eqn:E; [|discriminate].
    apply parse_number_length in E. simpl in E.
    intros H. injection H as <- <-. split; [lia|reflexivity].
  - intros t vs r.
    change (parse_elements (S n) t)
      with (elements_step (parse_value n) (parse_elements n) t).
    unfold elements_step at 1.
    destruct (parse_value n t) as [[v r1]|] eqn:Ev; [|discriminate].
    destruct (IHv _ _ _ Ev) as [Hlen1 Hfuel1].
    pose proof (skip_ws_length r1) as Hws.
    destruct (eat ","%char (skip_ws r1)) as [r2|] eqn:E2.
    + pose proof (eat_length _ _ _ E2) as H2.
      destruct (parse_elements n r2) as [[vs' r3]|] eqn:Ee; [|discriminate].
      destruct (IHe _ _ _ Ee) as [Hlen3 Hfuel3].
      intros H. injection H as <- <-. split; [lia|].
      destruct (2 * (length t - length r3)) as [|m] eqn:Efuel; [lia|].
      change (parse_elements (S m) t)
        with (elements_step (parse_value m) (parse_elements m) t).
      unfold elements_step.
      rewrite (more_v (2 * (length t - length r1) + 1) m _ _
                 ltac:(lia) Hfuel1), E2.
      rewrite (more_e (2 * (length r2 - length r3)) m _ _
                 ltac:(lia) Hfuel3). reflexivity.
    + destruct (eat "]"%char (skip_ws r1)) as [r2|] eqn:E3; [|discriminate].
      pose proof (eat_length _ _ _ E3) as H3.
      intros H. injection H as <- <-. split; [lia|].
      destruct (2 * (length t - length r2)) as [|m] eqn:Efuel; [lia|].
      change (parse_elements (S m) t)
        with (elements_step (parse_value m) (parse_elements m) t).
      unfold elements_step.
      rewrite (more_v (2 * (length t - length r1) + 1) m _ _
                 ltac:(lia) Hfuel1), E2, E3. reflexivity.
  - intros t ms r.
    change (parse_members (S n) t)
      with (members_step (parse_value n) (parse_members n) t).
    unfold members_step at 1.
    pose proof (skip_ws_length t) as Hws0.
    destruct (skip_ws t) as [|c r0] eqn:Et; [discriminate|]. simpl in Hws0.
    destruct (Ascii.eqb c dquote) eqn:Ec; [|discriminate].
    destruct (parse_string_body [] r0) as [[k r1]|] eqn:Ek; [|discriminate].
    pose proof (parse_string_body_length _ _ _ _ Ek) as Hk.
    pose proof (skip_ws_length r1) as Hws1.
    destruct (eat ":"%char (skip_ws r1)) as [r2|] eqn:E2; [|discriminate].
    pose proof (eat_length _ _ _ E2) as H2.
    destruct (parse_value n r2) as [[v r3]|] eqn:Ev; [|discriminate].
    destruct (IHv _ _ _ Ev) as [Hlen3 Hfuel3].
    pose proof (skip_ws_length r3) as Hws3.
    destruct (eat ","%char (skip_ws r3)) as [r4|] eqn:E4.
    + pose proof (eat_length _ _ _ E4) as H4.
      destruct (parse_members n r4) as [[ms' r5]|] eqn:Em; [|discriminate].
      destruct (IHm _ _ _ Em) as [Hlen5 Hfuel5].
      intros H. injection H as <- <-. split; [lia|].
      destruct (2 * (length t - length r5)) as [|m] eqn:Efuel; [lia|].
      change (parse_members (S m) t)
        with (members_step (parse_value m) (parse_members m) t).
      unfold members_step.
      rewrite Et, Ec, Ek, E2.
      rewrite (more_v (2 * (length r2 - length r3) + 1) m _ _
                 ltac:(lia) Hfuel3), E4.
      rewrite (more_m (2 * (length r4 - length r5)) m _ _
                 ltac:(lia) Hfuel5). reflexivity.
    + destruct (eat "}"%char (skip_ws r3)) as [r4|] eqn:E5; [|discriminate].
      pose proof (eat_length _ _ _ E5) as H5.
      intros H. injection H as <- <-. split; [lia|].
      destruct (2 * (length t - length r4)) as [|m] eqn:Efuel; [lia|].
      change (parse_members (S m) t)
        with (members_step (parse_value m) (parse_members m) t).
      unfold members_step.
      rewrite Et, Ec, Ek, E2.
      rewrite (more_v (2 * (length r2 - length r3) + 1) m _ _
                 ltac:(lia) Hfuel3), E4, E5. reflexivity.
Qed.

(** Whatever some amount of fuel parses, the fuel [parse] gives parses
    too: [parse] never fails for want of fuel. *)
Lemma parse_value_fuel_enough (n : nat) (t : text) (v : json) (r : text) :
  parse_value n t = Some (v, r) ->
  parse_value (2 * length t + 2) t = Some (v, r).
Proof.
  intros H. destruct (parse_fuel_bound n) as (Hv & _ & _).
  destruct (Hv _ _ _ H) as [Hlen Hfuel].
  refine (proj1 (parse_fuel_mono _ _ _) _ _ Hfuel). lia.
Qed.

End JsonFuel.
(* ===================================================================== *)
(** * Properties of the extractor *)
(* ===================================================================== *)

Section ExtractorFacts.

Lemma truthy_filled (v : jsvalue) : truthy v = true -> filled v.
Proof.
  destruct v as [x|]; [|discriminate].
  intros H. exists x. split; [reflexivity|].
  destruct x as [|b|n|s|items|ms]; simpl in H; try discriminate;
    repeat split; try discriminate.
  - intros E. injection E as ->. discriminate.
  - intros E. injection E as ->. discriminate.
Qed.

Lemma nonempty_array_inv (v : jsvalue) :
  nonempty_array v = true -> exists c cs, v = Some (JArray (c :: cs)).
Proof.
  destruct v as [[| | | |[|c cs]|]|]; simpl; try discriminate.
  intros _. exists c, cs. reflexivity.
Qed.

Lemma is_boolean_inv (v : jsvalue) :
  is_boolean v = true -> exists b, v = Some (JBool b).
Proof.
  destruct v as [[|b| | | |]|]; simpl; try discriminate.
  intros _. exists b. reflexivity.
Qed.

(** The seven conjuncts both validators share. *)
Lemma checks_sound (ms : list (string * json)) :
  truthy (lookup "id" ms)
  && truthy (lookup "title" ms)
  && truthy (lookup "description" ms)
  && truthy (lookup "acceptance_criteria" ms)
  && isArray (lookup "acceptance_criteria" ms)
  && nonempty_array (lookup "acceptance_criteria" ms)
  && is_boolean (lookup "passes" ms) = true ->
  well_formed_task (JObject ms).
Proof.
  intros H.
  repeat (apply andb_prop in H; destruct H as [H ?]).
  exists ms.
  split; [reflexivity|].
  split; [now apply truthy_filled|].
  split; [now apply truthy_filled|].
  split; [now apply truthy_filled|].
  split; [now apply nonempty_array_inv | now apply is_boolean_inv].
Qed.

Lemma adder_validate_sound (v : json) :
  FeatureAdderAgent.validateFeature v = Returned true -> well_formed_task v.
Proof.
  unfold FeatureAdderAgent.validateFeature.
  destruct v; simpl; try discriminate.
  intros H. injection H as H. now apply checks_sound.
Qed.

Lemma atomizer_validate_sound (v : json) :
  FeatureAtomizerAgent.validateFeature v = true -> well_formed_task v.
Proof.
  unfold FeatureAtomizerAgent.validateFeature.
  destruct v as [|b|n|s|items|ms]; simpl;
    try (intros H; repeat (apply andb_prop in H; destruct H as [H ?]);
         discriminate).
  apply checks_sound.
Qed.

Lemma adder_attempt_sound (t : text) (v : json) :
  FeatureAdderAgent.attempt t = Some v -> well_formed_task v.
Proof.
  unfold FeatureAdderAgent.attempt.
  destruct (Json.parse t) as [f|]; [|discriminate].
  destruct (FeatureAdderAgent.validateFeature f) as [[|]|] eqn:E;
    try discriminate.
  intros H. injection H as <-. now apply adder_validate_sound.
Qed.

Lemma atomizer_attempt_sound (t : text) (vs : list json) :
  FeatureAtomizerAgent.attempt t = Some vs -> Forall well_formed_task vs.
Proof.
  unfold FeatureAtomizerAgent.attempt.
  destruct (Json.parse t) as [[| | | |items|]|]; try discriminate.
  destruct (forallb FeatureAtomizerAgent.validateFeature items) eqn:E;
    [|discriminate].
  intros H. injection H as <-.
  rewrite forallb_forall in E. apply Forall_forall.
  intros x Hx. apply atomizer_validate_sound. now apply E.
Qed.

Lemma adder_attempt_valid (t : text) (v : json) :
  FeatureAdderAgent.attempt t = Some v ->
  FeatureAdderAgent.validateFeature v = Returned true.
Proof.
  unfold FeatureAdderAgent.attempt.
  destruct (Json.parse t) as [f|]; [|discriminate].
  destruct (FeatureAdderAgent.validateFeature f) as [[|]|] eqn:E;
    try discriminate.
  intros H. injection H as <-. exact E.
Qed.

Lemma atomizer_attempt_valid (t : text) (vs : list json) :
  FeatureAtomizerAgent.attempt t = Some vs ->
  forallb FeatureAtomizerAgent.validateFeature vs = true.
Proof.
  unfold FeatureAtomizerAgent.attempt.
  destruct (Json.parse t) as [[| | | |items|]|]; try discriminate.
  destruct (forallb _ items) eqn:E; [|discriminate].
  intros H. injection H as <-. exact E.
Qed.

(** Every strategy ends in [attempt]: what holds of all it returns holds
    of all the cascade returns. *)
Section AdderCascade.
Variable P : json -> Prop.
Hypothesis attempt_P :
  forall t v, FeatureAdderAgent.attempt t = Some v -> P v.

Lemma first_valid_P (ms : list text) (v : json) :
  FeatureAdderAgent.first_valid ms = Some v -> P v.
Proof.
  induction ms as [|m ms IH]; simpl; [discriminate|].
  destruct (FeatureAdderAgent.attempt m) eqn:E.
  - intros H. injection H as <-. eapply attempt_P; eauto.
  - exact IH.
Qed.

Lemma adder_strategies_P (t : text) (v : json) :
  FeatureAdderAgent.strategy1 t = Some v
  \/ FeatureAdderAgent.strategy2 t = Some v
  \/ FeatureAdderAgent.strategy3 t = Some v
  \/ FeatureAdderAgent.strategy4 t = Some v
  \/ FeatureAdderAgent.strategy5 t = Some v ->
  P v.
Proof.
  unfold FeatureAdderAgent.strategy1, FeatureAdderAgent.strategy2,
    FeatureAdderAgent.strategy3, FeatureAdderAgent.strategy4,
    FeatureAdderAgent.strategy5.
  intros [H|[H|[H|[H|H]]]].
  - eapply attempt_P; eauto.
  - destruct (exec _ t) as [m|]; [|discriminate].
    destruct (group1 m) as [[|c inner]|]; try discriminate.
    eapply attempt_P; eauto.
  - destruct (exec _ t) as [m|]; [|discriminate].
    destruct (indexOf _ t); [|discriminate].
    eapply attempt_P; eauto.
  - destruct (FeatureAdderAgent.scan_lines _ _ _ _) as [[a b]|];
      [|discriminate].
    eapply attempt_P; eauto.
  - destruct (match_all _ t); [|discriminate].
    eapply first_valid_P; eauto.
Qed.

Lemma parseFeature_P (output : string) (v : json) :
  FeatureAdderAgent.parseFeature output = Some v -> P v.
Proof.
  unfold FeatureAdderAgent.parseFeature. intros H.
  apply (adder_strategies_P (of_string output)).
  destruct (FeatureAdderAgent.strategy1 _); [now left|].
  destruct (FeatureAdderAgent.strategy2 _); [now right; left|].
  destruct (FeatureAdderAgent.strategy3 _); [now right; right; left|].
  destruct (FeatureAdderAgent.strategy4 _);
    [now right; right; right; left|].
  now right; right; right; right.
Qed.
End AdderCascade.

Section AtomizerCascade.
Variable P : list json -> Prop.
Hypothesis attempt_P :
  forall t vs, FeatureAtomizerAgent.attempt t = Some vs -> P vs.

Lemma atomizer_strategies_P (t : text) (vs : list json) :
  FeatureAtomizerAgent.strategy1 t = Some vs
  \/ FeatureAtomizerAgent.strategy2 t = Some vs
  \/ FeatureAtomizerAgent.strategy3 t = Some vs
  \/ FeatureAtomizerAgent.strategy4 t = Some vs ->
  P vs.
Proof.
  unfold FeatureAtomizerAgent.strategy1, FeatureAtomizerAgent.strategy2,
    FeatureAtomizerAgent.strategy3, FeatureAtomizerAgent.strategy4.
  intros [H|[H|[H|H]]].
  - eapply attempt_P; eauto.
  - destruct (exec _ t) as [m|]; [|discriminate].
    destruct (group1 m) as [[|c inner]|]; try discriminate.
    eapply attempt_P; eauto.
  - destruct (indexOf _ t); [|discriminate].
    destruct (scan_balanced _ _ _ _ _); [|discriminate].
    eapply attempt_P; eauto.
  - destruct (exec _ t) as [m|]; [|discriminate].
    eapply attempt_P; eauto.
Qed.

Lemma parseFeatures_P (output : string) (vs : list json) :
  FeatureAtomizerAgent.parseFeatures output = Some vs -> P vs.
Proof.
  unfold FeatureAtomizerAgent.parseFeatures. intros H.
  apply (atomizer_strategies_P (of_string output)).
  destruct (FeatureAtomizerAgent.strategy1 _); [now left|].
  destruct (FeatureAtomizerAgent.strategy2 _); [now right; left|].
  destruct (FeatureAtomizerAgent.strategy3 _); [now right; right; left|].
  now right; right; right.
Qed.
End AtomizerCascade.

Lemma parseFeature_sound (output : string) (v : json) :
  FeatureAdderAgent.parseFeature output = Some v -> well_formed_task v.
Proof. apply (parseFeature_P well_formed_task). exact adder_attempt_sound. Qed.

Lemma parseFeature_valid (output : string) (v : json) :
  FeatureAdderAgent.parseFeature output = Some v ->
  FeatureAdderAgent.validateFeature v = Returned true.
Proof.
  apply (parseFeature_P
           (fun v => FeatureAdderAgent.validateFeature v = Returned true)).
  exact adder_attempt_valid.
Qed.

Lemma parseFeatures_sound (output : string) (vs : list json) :
  FeatureAtomizerAgent.parseFeatures output = Some vs ->
  Forall well_formed_task vs.
Proof.
  apply (parseFeatures_P (Forall well_formed_task)).
  exact atomizer_attempt_sound.
Qed.

(** What [parseFeatures] returns passes the atomizer's own check
    again. *)
Lemma parseFeatures_valid (output : string) (vs : list json) :
  FeatureAtomizerAgent.parseFeatures output = Some vs ->
  forallb FeatureAtomizerAgent.validateFeature vs = true.
Proof.
  apply (parseFeatures_P
           (fun vs => forallb FeatureAtomizerAgent.validateFeature vs = true)).
  exact atomizer_attempt_valid.
Qed.

End ExtractorFacts.

(** C4.  Whatever the text, a record returned by [parseFeature], and
    every record of a list returned by [parseFeatures], has a filled
    [id], [title] and [description], a non-empty list of acceptance
    criteria and a boolean completion flag; so has what each single
    strategy of the two cascades returns.  An object that fails the
    validation is never returned. *)
Theorem extractors_accept_only_valid_tasks (output : string) :
  only_valid (FeatureAdderAgent.parseFeature output)
  /\ only_valid_list (FeatureAtomizerAgent.parseFeatures output)
  /\ Forall (fun strategy => only_valid (strategy (of_string output)))
       [FeatureAdderAgent.strategy1; FeatureAdderAgent.strategy2;
        FeatureAdderAgent.strategy3; FeatureAdderAgent.strategy4;
        FeatureAdderAgent.strategy5]
  /\ Forall (fun strategy => only_valid_list (strategy (of_string output)))
       [FeatureAtomizerAgent.strategy1; FeatureAtomizerAgent.strategy2;
        FeatureAtomizerAgent.strategy3; FeatureAtomizerAgent.strategy4].
Proof.
  split; [|split; [|split]].
  - unfold only_valid.
    destruct (FeatureAdderAgent.parseFeature output) eqn:E; [|exact I].
    now apply parseFeature_sound with output.
  - unfold only_valid_list.
    destruct (FeatureAtomizerAgent.parseFeatures output) eqn:E; [|exact I].
    now apply parseFeatures_sound with output.
  - repeat constructor; unfold only_valid;
      match goal with
      | |- match ?s with _ => _ end => destruct s eqn:E; [|exact I]
      end;
      apply (adder_strategies_P well_formed_task adder_attempt_sound
               (of_string output)); tauto.
  - repeat constructor; unfold only_valid_list;
      match goal with
      | |- match ?s with _ => _ end => destruct s eqn:E; [|exact I]
      end;
      apply (atomizer_strategies_P (Forall well_formed_task)
               atomizer_attempt_sound (of_string output)); tauto.
Qed.

(** Objects that parse and fail a check are refused in every shape:
    [parseFeature] returns nothing, and [parseFeatures] nothing or an
    empty list (the brackets of an empty list of criteria are an array
    of no records), which [atomizeFeature] treats as a failure. *)
Example invalid_objects_refused :
  forallb
    (fun output =>
       match FeatureAdderAgent.parseFeature output,
             FeatureAtomizerAgent.parseFeatures output with
       | None, None => true
       | None, Some [] => true
       | _, _ => false
       end)
    (Samples.shapes Samples.no_criteria
       ++ Samples.shapes Samples.empty_criteria
       ++ Samples.shapes Samples.no_title
       ++ Samples.shapes Samples.flag_as_text) = true.
Proof. vm_compute. reflexivity. Qed.

(** Which strategy does the work on each sample. *)
Example raw_by_strategy1 :
  option_map asFeature (FeatureAdderAgent.strategy1 (of_string Samples.raw))
  = Some (Some Samples.task).
Proof. vm_compute. reflexivity. Qed.

Example fenced_by_strategy2 :
  FeatureAdderAgent.strategy1 (of_string Samples.fenced) = None
  /\ option_map asFeature
       (FeatureAdderAgent.strategy2 (of_string Samples.fenced))
     = Some (Some Samples.task).
Proof. split; vm_compute; reflexivity. Qed.

Example prose_by_strategy3 :
  FeatureAdderAgent.strategy1 (of_string Samples.prose_prefixed) = None
  /\ FeatureAdderAgent.strategy2 (of_string Samples.prose_prefixed) = None
  /\ option_map asFeature
       (FeatureAdderAgent.strategy3 (of_string Samples.prose_prefixed))
     = Some (Some Samples.task).
Proof. repeat split; vm_compute; reflexivity. Qed.

Example multi_line_by_strategy4 :
  option_map asFeature
    (FeatureAdderAgent.strategy4 (of_string Samples.multi_line_in_prose))
  = Some (Some Samples.braces_task).
Proof. vm_compute. reflexivity. Qed.

Example multi_line_by_strategy5 :
  option_map asFeature
    (FeatureAdderAgent.strategy5 (of_string Samples.multi_line_in_prose))
  = Some (Some Samples.braces_task).
Proof. vm_compute. reflexivity. Qed.

(** [JSON.parse] on a text that is not JSON. *)
Example not_json : Json.parse (of_string "{ oops") = None.
Proof. vm_compute. reflexivity. Qed.

(** The fragile case: after prose, one unmatched brace inside a string
    defeats every strategy. *)
Example unbalanced_brace_defeats_cascade :
  FeatureAdderAgent.parseFeature Samples.unbalanced_in_prose = None.
Proof. vm_compute. reflexivity. Qed.

(** The samples: the task is recovered, and passes validation, from the
    raw JSON alone, from a fenced code block, from JSON between prose,
    and from JSON over several lines with braces inside its strings
    (alone, between prose, and alone with an unmatched brace); from an
    array of two objects [parseFeature] recovers the first object and
    [parseFeatures] both, also when the array is fenced or stands between
    prose. *)
Example samples_are_recovered :
  recovers_one Samples.raw Samples.task
  /\ recovers_one Samples.fenced Samples.task
  /\ recovers_one Samples.prose_prefixed Samples.task
  /\ recovers_one Samples.multi_line Samples.braces_task
  /\ recovers_one Samples.multi_line_in_prose Samples.braces_task
  /\ recovers_one Samples.unbalanced Samples.unbalanced_task
  /\ recovers_one Samples.array_of_two Samples.task
  /\ recovers_many Samples.array_of_two [Samples.task; Samples.braces_task]
  /\ recovers_many Samples.fenced_array [Samples.task; Samples.braces_task]
  /\ recovers_many Samples.array_in_prose [Samples.task; Samples.braces_task].
Proof.
  repeat split;
    (eexists; split; [vm_compute; reflexivity|];
     split; vm_compute; reflexivity).
Qed.

(* ===================================================================== *)
(** ** How the matcher runs on the shapes of a wrapped task *)
(* ===================================================================== *)

Section TextFacts.











End TextFacts.

Section ParserFacts.



End ParserFacts.

Section MatcherFacts.
Context {A : Type}.
Implicit Types (k : text -> option text -> option A).












End MatcherFacts.

Section SearchFacts.




End SearchFacts.

Section FencedShape.




End FencedShape.

Section AfterProseShape.




End AfterProseShape.

Section OwnLinesShape.







End OwnLinesShape.

Section Cascade.




End Cascade.




(* ===================================================================== *)
(** * Properties of the task store *)
(* ===================================================================== *)

Section StoreFacts.

Lemma loadFeatureList_eq (w : World) :
  ContextBuilder.loadFeatureList w = (w, Returned (loaded w)).
Proof.
  unfold ContextBuilder.loadFeatureList, loaded, bind, get_disk, try_catch,
    lift_outcome, ret.
  destruct (feature_list_json (disk w)) as [|why|[why|fl]]; reflexivity.
Qed.

Lemma loaded_stores (w : World) (fl : FeatureList) :
  loaded w = Some fl <-> stores w fl.
Proof.
  unfold loaded, stores.
  destruct (feature_list_json (disk w)) as [|why|[why|fl']]; split;
    intros H; try discriminate; congruence.
Qed.

Lemma getNextFeature_eq (w : World) :
  ContextBuilder.getNextFeature w
  = (w, Returned (match loaded w with
                  | Some fl => find ContextBuilder.pending (features fl)
                  | None => None
                  end)).
Proof.
  unfold ContextBuilder.getNextFeature, bind.
  rewrite loadFeatureList_eq. destruct (loaded w); reflexivity.
Qed.

Lemma getNextFeatureByType_eq (ty : string) (w : World) :
  ContextBuilder.getNextFeatureByType ty w
  = (w, Returned (match loaded w with
                  | Some fl =>
                      find (ContextBuilder.pending_of_type ty) (features fl)
                  | None => None
                  end)).
Proof.
  unfold ContextBuilder.getNextFeatureByType, bind.
  rewrite loadFeatureList_eq. destruct (loaded w); reflexivity.
Qed.

Lemma pending_eligible (f : Feature) :
  ContextBuilder.pending f = eligible None f.
Proof. unfold ContextBuilder.pending, eligible. now rewrite andb_true_r. Qed.

Lemma pending_of_type_eligible (ty : string) (f : Feature) :
  ContextBuilder.pending_of_type ty f = eligible (Some ty) f.
Proof.
  unfold ContextBuilder.pending_of_type, eligible, ContextBuilder.type_is,
    ContextBuilder.no_type, category.
  destruct (type f) as [t|]; simpl.
  - now rewrite orb_false_r.
  - now rewrite String.eqb_sym.
Qed.

Lemma find_ext {A} (p p' : A -> bool) (l : list A) :
  (forall x, p x = p' x) -> find p l = find p' l.
Proof.
  intros E. induction l as [|x l IH]; simpl; [reflexivity|].
  now rewrite E, IH.
Qed.

Lemma nextTask_eq (filter : option string) (w : World) :
  nextTask filter w
  = (w, Returned (match loaded w with
                  | Some fl => find (eligible filter) (features fl)
                  | None => None
                  end)).
Proof.
  destruct filter as [ty|]; simpl.
  - rewrite getNextFeatureByType_eq. destruct (loaded w); [|reflexivity].
    do 2 f_equal. apply find_ext, pending_of_type_eligible.
  - rewrite getNextFeature_eq. destruct (loaded w); [|reflexivity].
    do 2 f_equal. apply find_ext, pending_eligible.
Qed.

Lemma find_earliest (p : Feature -> bool) (l : list Feature) :
  earliest p l (find p l).
Proof.
  induction l as [|x l IH]; simpl; [constructor|].
  destruct (p x) eqn:E.
  - exists [], l. repeat split; auto.
  - destruct (find p l) as [t|]; simpl in *.
    + destruct IH as (before & after & -> & Ht & Hb).
      exists (x :: before), after. repeat split; auto.
    + constructor; auto.
Qed.

Lemma earliest_unique (p : Feature -> bool) (l : list Feature)
      (r : option Feature) :
  earliest p l r -> r = find p l.
Proof.
  destruct r as [t|]; simpl.
  - intros (before & after & -> & Ht & Hb).
    induction Hb as [|x before Hx Hb IH]; simpl.
    + now rewrite Ht.
    + now rewrite Hx.
  - intros H. induction H as [|x l Hx H IH]; simpl; [reflexivity|].
    now rewrite Hx.
Qed.

Lemma find_skip (p : Feature -> bool) (skipped rest : list Feature) :
  Forall (fun f => p f = false) skipped ->
  find p (skipped ++ rest) = find p rest.
Proof.
  induction 1 as [|x l Hx H IH]; simpl; [reflexivity|]. now rewrite Hx.
Qed.

Lemma completed_not_eligible (filter : option string) (f : Feature) :
  passes f = true -> eligible filter f = false.
Proof. unfold eligible. now intros ->. Qed.

(** With distinct identifiers, the first task found by the identifier
    of a task of the list is that task. *)
Lemma find_id_unique (l : list Feature) (t g : Feature) :
  NoDup (map id l) ->
  In t l ->
  find (fun f => String.eqb (id f) (id t)) l = Some g ->
  g = t.
Proof.
  induction l as [|x l IH]; simpl; intros Hnd Hin Hfind; [contradiction|].
  inversion Hnd as [|? ? Hx Hl]; subst.
  destruct (String.eqb (id x) (id t)) eqn:E.
  - injection Hfind as <-. apply String.eqb_eq in E.
    destruct Hin as [Hin|Hin]; [exact Hin|].
    exfalso. apply Hx. rewrite E. now apply in_map.
  - destruct Hin as [->|Hin]; [now rewrite String.eqb_refl in E|].
    now apply IH.
Qed.

Lemma earliest_in (p : Feature -> bool) (l : list Feature) (t : Feature) :
  earliest p l (Some t) -> In t l /\ p t = true.
Proof.
  intros (before & after & -> & Ht & _). split; [|exact Ht].
  apply in_or_app. right. now left.
Qed.

End StoreFacts.

(** C2.  For every stored task list and every filter, [nextTask] leaves
    the world as it is and returns the earliest task of the list whose
    completion flag is false and whose category (the default one when the
    field is absent) matches the filter, any category matching when no
    filter is given; it returns nothing when there is no such task.  The
    result is the same with the completed tasks at the head of the list
    taken away. *)
Theorem next_task_is_earliest_eligible
        (filter : option string) (w : World) (fl : FeatureList) :
  stores w fl ->
  exists r,
    nextTask filter w = (w, Returned r)
    /\ earliest (eligible filter) (features fl) r
    /\ (forall completed rest,
          features fl = completed ++ rest ->
          Forall (fun f => passes f = true) completed ->
          earliest (eligible filter) rest r).
Proof.
  intros Hfl. apply loaded_stores in Hfl.
  exists (find (eligible filter) (features fl)).
  split; [rewrite nextTask_eq, Hfl; reflexivity|].
  split; [apply find_earliest|].
  intros completed rest -> Hdone.
  rewrite find_skip; [apply find_earliest|].
  eapply Forall_impl; [|exact Hdone].
  intros f. apply completed_not_eligible.
Qed.

Lemma next_task_is_earliest_eligible_witness :
  stores Scenario.three_tasks
         (Scenario.list_of
            [Scenario.todo "F001"; Scenario.todo "F002"; Scenario.todo "F003"])
  /\ exists r,
       nextTask (Some "feature") Scenario.three_tasks
       = (Scenario.three_tasks, Returned r)
       /\ earliest (eligible (Some "feature"))
            [Scenario.todo "F001"; Scenario.todo "F002"; Scenario.todo "F003"]
            r.
Proof.
  split; [reflexivity|].
  destruct (next_task_is_earliest_eligible (Some "feature")
              Scenario.three_tasks _ eq_refl) as (r & H1 & H2 & _).
  exists r. split; assumption.
Defined.

(** C9, as the claim states it, fails: a store that is present and cannot
    be parsed is reported exactly as a store that is absent, and nothing
    is thrown. *)
Lemma unparsable_store_reads_as_not_found :
  existsSync (feature_list_json (disk Scenario.corrupt)) = true
  /\ snd (ContextBuilder.loadFeatureList Scenario.corrupt) = Returned None
  /\ snd (ContextBuilder.loadFeatureList Scenario.no_store) = Returned None
  /\ ~ (exists e,
          snd (ContextBuilder.loadFeatureList Scenario.corrupt) = Thrown e).
Proof.
  repeat split; try reflexivity.
  intros [e H]. discriminate H.
Qed.

(** C9, amended.  [loadFeatureList] never throws and changes nothing.  It
    returns the task list when the file is present, readable and
    parsable, and the same "not found" value [null] in every other case:
    when the file is missing, when it cannot be read and when it cannot
    be parsed. *)
Theorem load_masks_read_and_parse_failures (w : World) :
  exists r,
    ContextBuilder.loadFeatureList w = (w, Returned r)
    /\ (forall fl, r = Some fl <-> stores w fl)
    /\ (r = None <->
        feature_list_json (disk w) = Missing
        \/ (exists why, feature_list_json (disk w) = Unreadable why)
        \/ (exists why, feature_list_json (disk w) = Holds (Malformed why))).
Proof.
  exists (loaded w). split; [apply loadFeatureList_eq|].
  split; [intros fl; apply loaded_stores|].
  unfold loaded.
  destruct (feature_list_json (disk w)) as [|why|[why|fl]]; split;
    try discriminate; eauto.
  intros [H|[[? H]|[? H]]]; discriminate H.
Qed.

(* ===================================================================== *)
(** * Properties of the session executor *)
(* ===================================================================== *)

Section SessionFacts.
Variable query : Collaborator.
Variable options : CodingAgent.CodingAgentOptions.

Lemma getProgressLog_eq (n : nat) (w : World) :
  ContextBuilder.getProgressLog n w
  = (w, Returned
          match progress_log (disk w) with
          | Holds content =>
              to_string
                (ContextBuilder.join_blank
                   (ContextBuilder.slice_last n
                      (ContextBuilder.split_blank (trim (of_string content)))))
          | _ => ""
          end).
Proof.
  unfold ContextBuilder.getProgressLog, bind, get_disk, try_catch,
    lift_outcome, ret.
  destruct (progress_log (disk w)); reflexivity.
Qed.

Lemma getGitLog_eq (n : nat) (w : World) :
  ContextBuilder.getGitLog n w
  = (w, Returned
          match git_log (env w) n with
          | Returned stdout => to_string (trim (of_string stdout))
          | Thrown _ => "(no git history)"
          end).
Proof.
  unfold ContextBuilder.getGitLog, bind, get_env, try_catch, lift_outcome,
    ret.
  destruct (git_log (env w) n); reflexivity.
Qed.

Lemma buildSessionContext_eq (w : World) :
  ContextBuilder.buildSessionContext w
  = (w, Returned
          (option_map (context_of w)
             match loaded w with
             | Some fl => find ContextBuilder.pending (features fl)
             | None => None
             end)).
Proof.
  unfold ContextBuilder.buildSessionContext, bind.
  rewrite getNextFeature_eq.
  destruct (match loaded w with Some _ => _ | None => _ end) as [f|];
    [|reflexivity].
  rewrite getProgressLog_eq, getGitLog_eq. reflexivity.
Qed.

Lemma currentCommit_eq (w : World) :
  CodingAgent.currentCommit w = (w, Returned (commit_of (env w))).
Proof.
  unfold CodingAgent.currentCommit, commit_of, bind, get_env, try_catch,
    lift_outcome, ret.
  destruct (git_rev_parse (env w)); reflexivity.
Qed.

Lemma session_request_eq (w : World) :
  session_request options w
  = option_map (fun f => CodingAgent.queryOptions options (context_of w f))
      match loaded w with
      | Some fl => find ContextBuilder.pending (features fl)
      | None => None
      end.
Proof.
  unfold session_request. rewrite buildSessionContext_eq.
  destruct (match loaded w with Some _ => _ | None => _ end); reflexivity.
Qed.

(** A session that finds no task returns at once and changes nothing. *)
Lemma runSession_idle (w : World) :
  session_request options w = None ->
  CodingAgent.runSession query options w = (w, Returned nothing_to_do).
Proof.
  rewrite session_request_eq. unfold CodingAgent.runSession, bind.
  rewrite buildSessionContext_eq.
  destruct (match loaded w with Some _ => _ | None => _ end);
    [discriminate|reflexivity].
Qed.

(** A session that finds a task calls the collaborator once, leaves the
    world as the collaborator left it, and reports [session_result]. *)
Lemma runSession_eq (w : World) (q : AgentQueryOptions.t) :
  session_request options w = Some q ->
  exists f,
    target_of q = Some f
    /\ match loaded w with
       | Some fl => find ContextBuilder.pending (features fl)
       | None => None
       end = Some f
    /\ CodingAgent.runSession query options w
       = (world_after w q (query q w),
          Returned (session_result f (query q w))).
Proof.
  rewrite session_request_eq. unfold CodingAgent.runSession, bind.
  rewrite buildSessionContext_eq.
  destruct (match loaded w with Some _ => _ | None => _ end) as [f|];
    [|discriminate].
  simpl. intros H. injection H as <-.
  exists f. split; [reflexivity|]. split; [reflexivity|].
  unfold try_catch, bind, AgentSdkClient.runAgentQuery, session_result.
  simpl feature.
  set (q := CodingAgent.queryOptions options (context_of w f)).
  set (run := query q w).
  fold (world_after w q run).
  destruct (AgentQueryResult.success (AgentSdkClient.result_of run)) eqn:E;
    simpl.
  - rewrite loadFeatureList_eq, currentCommit_eq.
    unfold CodingAgent.toISOString, bind, get_env, ret. simpl.
    unfold task_on_disk, loaded. simpl.
    destruct (feature_list_json (after_disk run)) as [|why|[why|fl]];
      try reflexivity.
    destruct (find _ (features fl)) as [g|]; [|reflexivity].
    destruct (passes g); reflexivity.
  - reflexivity.
Qed.

End SessionFacts.

(** C1, as the claim states it, fails: the collaborator sets the flag of
    F001 on disk and then runs out of turns; the re-read would show the
    task completed, and the session reports failure, because the
    collaborator's own unsuccessful result decides the outcome before any
    re-read. *)
Lemma reported_failure_decides_despite_flag :
  exists w' r,
    CodingAgent.runSession Scenario.done_but_out_of_turns Scenario.session
      Scenario.two_tasks = (w', Returned r)
    /\ SessionResult.featureId r = "F001"
    /\ done_on_disk (disk w') "F001"
    /\ SessionResult.success r = false
    /\ ~ (SessionResult.success r = true <-> done_on_disk (disk w') "F001").
Proof.
  eexists. eexists. split; [vm_compute; reflexivity|].
  assert (D : done_on_disk
                (Scenario.mark_done "F001" (disk Scenario.two_tasks)) "F001").
  { eexists. split; vm_compute; reflexivity. }
  repeat split; try exact D.
  intros [_ H]. specialize (H D). discriminate H.
Qed.

(** C1, amended.  A session that selects the task [f] calls the
    collaborator once and reports success exactly when the collaborator's
    terminal result is successful and, in the task list re-read from disk
    afterwards, the first task that carries the identifier of [f] has its
    completion flag set.  When the identifiers of the re-read list are
    distinct, a task of that list with the identifier of [f] is the only
    one, so that the flag read is its flag; and if the list still holds
    [f] as it was selected, with its flag unset, the session fails
    whatever the collaborator reports. *)
Theorem session_success_iff_reported_and_flag_set
        (query : Collaborator) (options : CodingAgent.CodingAgentOptions)
        (w : World) (fl : FeatureList) (f : Feature) :
  stores w fl ->
  earliest ContextBuilder.pending (features fl) (Some f) ->
  exists q r,
    session_request options w = Some q
    /\ target_of q = Some f
    /\ CodingAgent.runSession query options w
       = (world_after w q (query q w), Returned r)
    /\ SessionResult.featureId r = id f
    /\ (SessionResult.success r = true <->
        AgentQueryResult.success (AgentSdkClient.result_of (query q w)) = true
        /\ done_on_disk (after_disk (query q w)) (id f))
    /\ (forall fl',
          feature_list_json (after_disk (query q w)) = Holds (Encodes fl') ->
          NoDup (map id (features fl')) ->
          (forall g,
              In g (features fl') -> id g = id f ->
              (SessionResult.success r = true <->
               AgentQueryResult.success
                 (AgentSdkClient.result_of (query q w)) = true
               /\ passes g = true))
          /\ (In f (features fl') -> SessionResult.success r = false)).
Proof.
  intros Hfl Hf. pose proof (earliest_in _ _ _ Hf) as [_ Hpending].
  apply loaded_stores in Hfl. apply earliest_unique in Hf.
  pose proof (session_request_eq options w) as Hq.
  rewrite Hfl, <- Hf in Hq. simpl in Hq.
  destruct (runSession_eq query options w _ Hq) as (f' & Ht & Hsel & Hrun).
  rewrite Hfl, <- Hf in Hsel. injection Hsel as <-.
  eexists. eexists. split; [exact Hq|]. split; [exact Ht|].
  split; [exact Hrun|].
  set (run := query _ w).
  assert (Hiff :
            SessionResult.success (session_result f run) = true <->
            AgentQueryResult.success (AgentSdkClient.result_of run) = true
            /\ done_on_disk (after_disk run) (id f)).
  { unfold session_result, done_on_disk.
    destruct (AgentQueryResult.success (AgentSdkClient.result_of run)); simpl.
    - split.
      + intros H. split; [reflexivity|].
        destruct (task_on_disk _ _) as [g|]; [|discriminate].
        exists g. split; [reflexivity|exact H].
      + intros [_ (g & -> & Hg)]. exact Hg.
    - split; [discriminate|]. intros [H _]. discriminate H. }
  split.
  { unfold session_result.
    now destruct (AgentQueryResult.success (AgentSdkClient.result_of run)). }
  split; [exact Hiff|].
  intros fl' Hfl' Hnd.
  assert (Hone : forall g,
             In g (features fl') -> id g = id f ->
             (SessionResult.success (session_result f run) = true <->
              AgentQueryResult.success (AgentSdkClient.result_of run) = true
              /\ passes g = true)).
  { intros g Hin Hid. rewrite Hiff. unfold done_on_disk, task_on_disk.
    rewrite Hfl', <- Hid.
    split; intros [Hs Hd]; (split; [exact Hs|]).
    - destruct Hd as (g' & Hfind & Hg').
      apply (find_id_unique _ g g' Hnd Hin) in Hfind. now subst g'.
    - destruct (find (fun x => String.eqb (id x) (id g)) (features fl'))
        as [g'|] eqn:Hfind.
      + pose proof (find_id_unique _ g g' Hnd Hin Hfind) as ->.
        exists g. split; [reflexivity|exact Hd].
      + exfalso. apply (find_none _ _ Hfind g) in Hin.
        now rewrite String.eqb_refl in Hin. }
  split; [exact Hone|].
  intros Hin.
  destruct (SessionResult.success (session_result f run)) eqn:Hs;
    [|reflexivity].
  destruct (proj1 (Hone f Hin eq_refl) eq_refl) as [_ Hp].
  unfold ContextBuilder.pending in Hpending. rewrite Hp in Hpending.
  discriminate Hpending.
Qed.

Lemma session_success_iff_reported_and_flag_set_witness :
  stores Scenario.two_tasks
         (Scenario.list_of [Scenario.todo "F001"; Scenario.todo "F002"])
  /\ earliest ContextBuilder.pending
       [Scenario.todo "F001"; Scenario.todo "F002"]
       (Some (Scenario.todo "F001"))
  /\ exists q r,
       CodingAgent.runSession Scenario.claims_success Scenario.session
         Scenario.two_tasks
       = (world_after Scenario.two_tasks q
            (Scenario.claims_success q Scenario.two_tasks), Returned r)
       /\ SessionResult.featureId r = "F001"
       /\ SessionResult.success r = false.
Proof.
  assert (E : earliest ContextBuilder.pending
                [Scenario.todo "F001"; Scenario.todo "F002"]
                (Some (Scenario.todo "F001"))).
  { exists [], [Scenario.todo "F002"]. repeat split. constructor. }
  split; [reflexivity|]. split; [exact E|].
  destruct (session_success_iff_reported_and_flag_set
              Scenario.claims_success Scenario.session Scenario.two_tasks
              _ _ eq_refl E) as (q & r & _ & _ & Hrun & Hid & _ & Hdistinct).
  exists q, r. split; [exact Hrun|]. split; [exact Hid|].
  apply (Hdistinct
           (Scenario.list_of [Scenario.todo "F001"; Scenario.todo "F002"])).
  - reflexivity.
  - repeat constructor; simpl; intuition discriminate.
  - now left.
Defined.

(** The scenario of the specification: one session against a two-task
    queue, the collaborator reporting success and setting no flag. *)
Example claimed_success_without_flag_fails :
  exists w' r,
    CodingAgent.runSession Scenario.claims_success Scenario.session
      Scenario.two_tasks = (w', Returned r)
    /\ AgentQueryResult.success
         (AgentSdkClient.result_of
            (Scenario.claims_success
               (CodingAgent.queryOptions Scenario.session
                  (context_of Scenario.two_tasks (Scenario.todo "F001")))
               Scenario.two_tasks)) = true
    /\ SessionResult.featureId r = "F001"
    /\ SessionResult.success r = false
    /\ disk w' = disk Scenario.two_tasks.
Proof.
  eexists. eexists. split; [vm_compute; reflexivity|].
  repeat split; vm_compute; reflexivity.
Qed.

(** C7.  When the collaborator's call ends unsuccessfully, be it that the
    stream threw or that the terminal result is not a success, the
    session about the task [f] is reported failed; its [error] is the
    collaborator's error text, or a fixed message when there is none; and
    the disk is as the collaborator left it: the task list is unchanged
    unless the collaborator changed it. *)
Theorem collaborator_failure_fails_session
        (query : Collaborator) (options : CodingAgent.CodingAgentOptions)
        (w : World) (q : AgentQueryOptions.t) :
  session_request options w = Some q ->
  AgentQueryResult.success (AgentSdkClient.result_of (query q w)) = false ->
  exists f w' r,
    target_of q = Some f
    /\ CodingAgent.runSession query options w = (w', Returned r)
    /\ SessionResult.success r = false
    /\ SessionResult.featureId r = id f
    /\ SessionResult.error r
       = Some (or_default
                 (AgentQueryResult.error (AgentSdkClient.result_of (query q w)))
                 "Claude Agent SDK session failed")
    /\ (forall e, e <> "" ->
                  thrown (query q w) = Some e
                  \/ AgentQueryResult.error
                       (AgentSdkClient.result_of (query q w)) = Some e ->
                  SessionResult.error r = Some e)
    /\ disk w' = after_disk (query q w)
    /\ (feature_list_json (after_disk (query q w))
        = feature_list_json (disk w) ->
        feature_list_json (disk w') = feature_list_json (disk w)).
Proof.
  intros Hq Hfail.
  destruct (runSession_eq query options w q Hq) as (f & Ht & _ & Hrun).
  exists f. eexists. eexists. split; [exact Ht|]. split; [exact Hrun|].
  unfold session_result. rewrite Hfail. simpl.
  repeat split; auto.
  intros e He H.
  assert (E : AgentQueryResult.error (AgentSdkClient.result_of (query q w))
              = Some e).
  { destruct H as [H|H]; [|exact H].
    unfold AgentSdkClient.result_of. now rewrite H. }
  rewrite E. unfold or_default.
  destruct (String.eqb_spec e ""); [contradiction|reflexivity].
Qed.

Lemma collaborator_failure_fails_session_witness :
  exists q,
    session_request Scenario.session Scenario.two_tasks = Some q
    /\ AgentQueryResult.success
         (AgentSdkClient.result_of (Scenario.unreachable q Scenario.two_tasks))
       = false
    /\ exists w' r,
         CodingAgent.runSession Scenario.unreachable Scenario.session
           Scenario.two_tasks = (w', Returned r)
         /\ SessionResult.success r = false
         /\ SessionResult.error r = Some "connect ECONNREFUSED"
         /\ disk w' = disk Scenario.two_tasks.
Proof.
  eexists. split; [vm_compute; reflexivity|]. split; [reflexivity|].
  destruct (collaborator_failure_fails_session Scenario.unreachable
              Scenario.session Scenario.two_tasks _ eq_refl eq_refl)
    as (f & w' & r & _ & Hrun & Hs & _ & _ & He & Hd & _).
  exists w', r. split; [exact Hrun|]. split; [exact Hs|].
  split; [|exact Hd].
  apply He; [discriminate|left; reflexivity].
Defined.


(** C8, as the claim states it, fails: after a session that the
    collaborator answers without touching the journal, [progress.log] is
    what it was; the executor built an entry and appended it nowhere. *)
Lemma session_appends_nothing_to_journal :
  exists w' r,
    CodingAgent.runSession Scenario.claims_success Scenario.session
      Scenario.two_tasks = (w', Returned r)
    /\ SessionResult.progressEntry r
       = "[2025-01-01T00:00:00.000Z] [F001] Task F001 - INCOMPLETE"
    /\ progress_log (disk w') = progress_log (disk Scenario.two_tasks)
    /\ progress_log (disk w')
       <> journal_with (progress_log (disk Scenario.two_tasks))
            (SessionResult.progressEntry r).
Proof.
  eexists. eexists. split; [vm_compute; reflexivity|].
  repeat split; vm_compute; try reflexivity. discriminate.
Qed.

(** C8, amended.  A session that selects the task [f] returns, in
    [progressEntry], exactly one entry: the bracketed ISO timestamp, the
    bracketed identifier of [f], its title and the outcome, which is
    COMPLETED for a successful session, INCOMPLETE when the collaborator
    reported success and the flag is not set, and ERROR when the
    collaborator's result is unsuccessful.  The executor does not write
    [progress.log]: the journal is after the session as the collaborator
    left it.  [appendToProgressLog], when something calls it, makes the
    entry the whole content of a journal that does not exist and
    otherwise adds it after a blank line. *)
Theorem session_returns_entry_and_leaves_journal
        (query : Collaborator) (options : CodingAgent.CodingAgentOptions)
        (w : World) (q : AgentQueryOptions.t) :
  session_request options w = Some q ->
  exists f w' r,
    target_of q = Some f
    /\ CodingAgent.runSession query options w = (w', Returned r)
    /\ progress_log (disk w') = progress_log (after_disk (query q w))
    /\ SessionResult.progressEntry r
       = ("[" ++ now (after_env (query q w)) ++ "] [" ++ id f ++ "] "
              ++ title f ++ " - "
              ++ (if SessionResult.success r then "COMPLETED"
                  else if AgentQueryResult.success
                            (AgentSdkClient.result_of (query q w))
                       then "INCOMPLETE" else "ERROR"))%string
    /\ (forall (entry : string) (w0 : World),
          write_error (env w0) = None ->
          (forall why, progress_log (disk w0) <> Unreadable why) ->
          ContextBuilder.appendToProgressLog entry w0
          = (with_disk w0
               (put_progress_log
                  (journal_with (progress_log (disk w0)) entry) (disk w0)),
             Returned tt)).
Proof.
  intros Hq.
  destruct (runSession_eq query options w q Hq) as (f & Ht & _ & Hrun).
  exists f. eexists. eexists. split; [exact Ht|]. split; [exact Hrun|].
  split; [reflexivity|]. split.
  - unfold session_result, CodingAgent.entry.
    destruct (AgentQueryResult.success (AgentSdkClient.result_of _)); simpl;
      [|reflexivity].
    destruct (match task_on_disk _ _ with Some g => passes g | None => false end);
      reflexivity.
  - intros entry w0 Hw Hr.
    unfold ContextBuilder.appendToProgressLog, appendFile_progress_log,
      writeFile, bind, get_disk, get_env, set_disk, with_disk, journal_with.
    destruct (progress_log (disk w0)) as [|why|old] eqn:E; simpl;
      rewrite ?Hw, ?E; try reflexivity.
    exfalso. exact (Hr why eq_refl).
Qed.

Lemma session_returns_entry_and_leaves_journal_witness :
  exists q,
    session_request Scenario.session Scenario.two_tasks = Some q
    /\ exists w' r,
         CodingAgent.runSession Scenario.diligent Scenario.session
           Scenario.two_tasks = (w', Returned r)
         /\ progress_log (disk w') = Missing
         /\ SessionResult.progressEntry r
            = "[2025-01-01T00:00:00.000Z] [F001] Task F001 - COMPLETED".
Proof.
  eexists. split; [vm_compute; reflexivity|].
  destruct (session_returns_entry_and_leaves_journal Scenario.diligent
              Scenario.session Scenario.two_tasks _ eq_refl)
    as (f & w' & r & Ht & Hrun & Hlog & Hentry & _).
  exists w', r. split; [exact Hrun|]. split; [exact Hlog|].
  rewrite Hentry.
  injection Ht as <-.
  assert (Hr : r = session_result (Scenario.todo "F001")
                     (Scenario.diligent
                        (CodingAgent.queryOptions Scenario.session
                           (context_of Scenario.two_tasks (Scenario.todo "F001")))
                        Scenario.two_tasks)).
  { assert (H := Hrun). vm_compute in H. injection H as _ <-.
    vm_compute. reflexivity. }
  rewrite Hr. vm_compute. reflexivity.
Defined.

(* ===================================================================== *)
(** * Properties of appending tasks *)
(* ===================================================================== *)

Section AppendFacts.
Variable query : Collaborator.

Lemma has_id_spec (fl : FeatureList) (v : json) :
  FeatureAtomizerAgent.has_id (features fl) v = true <-> id_exists fl v.
Proof.
  unfold FeatureAtomizerAgent.has_id, id_exists.
  destruct (field v "id") as [[| | |s| |]|]; split;
    try discriminate;
    try (intros (s' & f & H & _); discriminate H).
  - intros H. apply existsb_exists in H. destruct H as (f & Hin & Hf).
    apply String.eqb_eq in Hf. exists s, f. auto.
  - intros (s' & f & H & Hin & Hf). injection H as <-.
    apply existsb_exists. exists f. split; [exact Hin|].
    now apply String.eqb_eq.
Qed.

Lemma same_id_spec (fl : FeatureList) (v : json) :
  existsb (FeatureAdderAgent.same_id v) (features fl) = true
  <-> id_exists fl v.
Proof.
  unfold id_exists. rewrite existsb_exists.
  unfold FeatureAdderAgent.same_id.
  destruct (field v "id") as [[| | |s| |]|]; split;
    try (intros (f & _ & H); discriminate H);
    try (intros (s' & f & H & _); discriminate H).
  - intros (f & Hin & Hf). apply String.eqb_eq in Hf. exists s, f. auto.
  - intros (s' & f & H & Hin & Hf). injection H as <-.
    exists f. split; [exact Hin|]. now apply String.eqb_eq.
Qed.

Lemma writeFile_eq {A} (put : file A -> Disk -> Disk) (content : A)
      (w : World) :
  writeFile put content w
  = match write_error (env w) with
    | Some why => (w, Thrown why)
    | None => (with_disk w (put (Holds content) (disk w)), Returned tt)
    end.
Proof.
  unfold writeFile, bind, get_env, get_disk, set_disk, throw, with_disk.
  destruct (write_error (env w)); reflexivity.
Qed.

(** The goal left by a branch that returns a failure without saving. *)
Ltac failed_unchanged :=
  eexists; eexists; split; [reflexivity|]; split; reflexivity.

Lemma filter_nonempty {A} (p : A -> bool) (l : list A) :
  (exists x, In x l /\ p x = true) -> (length (filter p l) =? 0) = false.
Proof.
  intros (x & Hin & Hx).
  assert (H : In x (filter p l)) by (apply filter_In; auto).
  destruct (filter p l); [contradiction|reflexivity].
Qed.

(** The atomizer rejects a batch with a known identifier. *)
Lemma atomize_rejects_duplicates
      (options : FeatureAtomizerOptions.t) (w : World) (fl : FeatureList)
      (batch : list json) :
  stores w fl ->
  let run :=
    query (FeatureAtomizerAgent.queryOptions options fl
             (directory_tree (env w) 3)) w in
  FeatureAtomizerAgent.parseFeatures
    (AgentQueryResult.output (AgentSdkClient.result_of run)) = Some batch ->
  Exists (id_exists fl) batch ->
  exists w' r,
    FeatureAtomizerAgent.atomizeFeature query options w
    = (w', Returned (Some r))
    /\ FeatureAtomizerResult.success r = false
    /\ feature_list_json (disk w') = feature_list_json (after_disk run).
Proof.
  intros Hfl run Hparse Hdup.
  apply loaded_stores in Hfl.
  unfold FeatureAtomizerAgent.atomizeFeature, try_catch, bind.
  rewrite loadFeatureList_eq, Hfl.
  unfold ContextBuilder.getProjectStructure, AgentSdkClient.runAgentQuery,
    CodingAgent.toISOString, bind, get_env, ret.
  cbv beta iota. fold run.
  rewrite writeFile_eq. cbv beta iota. simpl env. simpl disk.
  assert (Hdups :
            (length (filter (FeatureAtomizerAgent.has_id (features fl)) batch)
             =? 0) = false).
  { apply filter_nonempty.
    apply Exists_exists in Hdup. destruct Hdup as (x & Hin & Hx).
    exists x. split; [exact Hin|]. now apply has_id_spec. }
  destruct (write_error (after_env run)) as [why|]; cbv beta iota.
  - destruct (negb _ || _)%bool; [failed_unchanged|].
    rewrite Hparse.
    destruct batch as [|v batch']; [failed_unchanged|].
    destruct (negb (length (filter _ (v :: batch')) =? 0));
      [failed_unchanged|].
    rewrite Hdups. failed_unchanged.
  - destruct (negb _ || _)%bool; [failed_unchanged|].
    rewrite Hparse.
    destruct batch as [|v batch']; [failed_unchanged|].
    destruct (negb (length (filter _ (v :: batch')) =? 0));
      [failed_unchanged|].
    rewrite Hdups. failed_unchanged.
Qed.

(** The adder rejects a task with a known identifier. *)
Lemma add_rejects_duplicate
      (options : FeatureAdderOptions.t) (w : World) (fl : FeatureList)
      (v : json) :
  stores w fl ->
  let run :=
    query (FeatureAdderAgent.queryOptions options fl
             (directory_tree (env w) 3)) w in
  FeatureAdderAgent.parseFeature
    (AgentQueryResult.output (AgentSdkClient.result_of run)) = Some v ->
  id_exists fl v ->
  exists w' r,
    FeatureAdderAgent.addFeature query options w = (w', Returned (Some r))
    /\ FeatureAdderResult.success r = false
    /\ feature_list_json (disk w') = feature_list_json (after_disk run).
Proof.
  intros Hfl run Hparse Hdup.
  apply loaded_stores in Hfl.
  unfold FeatureAdderAgent.addFeature, try_catch, bind.
  rewrite loadFeatureList_eq, Hfl.
  unfold ContextBuilder.getProjectStructure, AgentSdkClient.runAgentQuery,
    CodingAgent.toISOString, bind, get_env, ret, lift_outcome.
  cbv beta iota. fold run.
  rewrite writeFile_eq. cbv beta iota. simpl env. simpl disk.
  apply same_id_spec in Hdup.
  destruct (write_error (after_env run)) as [why|]; cbv beta iota.
  - destruct (negb _ || _)%bool; [failed_unchanged|].
    rewrite Hparse, (parseFeature_valid _ _ Hparse). cbv beta iota.
    simpl negb. cbv iota. rewrite Hdup. failed_unchanged.
  - destruct (negb _ || _)%bool; [failed_unchanged|].
    rewrite Hparse, (parseFeature_valid _ _ Hparse). cbv beta iota.
    simpl negb. cbv iota. rewrite Hdup. failed_unchanged.
Qed.

End AppendFacts.

(** C3.  When a task list is stored and the batch the atomizer extracts
    from the collaborator's answer holds a record whose identifier a
    stored task already has, [atomizeFeature] returns a failure and
    writes no task list: [feature_list.json] is as the collaborator left
    it, the stored list itself if the collaborator did not touch it, so
    that nothing of the batch is applied.  [addFeature] does the same for
    the single record it extracts. *)
Theorem duplicate_id_rejects_whole_batch
        (query : Collaborator) (w : World) (fl : FeatureList) :
  stores w fl ->
  (forall (options : FeatureAtomizerOptions.t) (batch : list json),
      let run :=
        query (FeatureAtomizerAgent.queryOptions options fl
                 (directory_tree (env w) 3)) w in
      FeatureAtomizerAgent.parseFeatures
        (AgentQueryResult.output (AgentSdkClient.result_of run)) = Some batch ->
      Exists (id_exists fl) batch ->
      exists w' r,
        FeatureAtomizerAgent.atomizeFeature query options w
        = (w', Returned (Some r))
        /\ FeatureAtomizerResult.success r = false
        /\ feature_list_json (disk w') = feature_list_json (after_disk run)
        /\ (feature_list_json (after_disk run) = feature_list_json (disk w) ->
            stores w' fl))
  /\ (forall (options : FeatureAdderOptions.t) (v : json),
        let run :=
          query (FeatureAdderAgent.queryOptions options fl
                   (directory_tree (env w) 3)) w in
        FeatureAdderAgent.parseFeature
          (AgentQueryResult.output (AgentSdkClient.result_of run)) = Some v ->
        id_exists fl v ->
        exists w' r,
          FeatureAdderAgent.addFeature query options w = (w', Returned (Some r))
          /\ FeatureAdderResult.success r = false
          /\ feature_list_json (disk w') = feature_list_json (after_disk run)
          /\ (feature_list_json (after_disk run) = feature_list_json (disk w) ->
              stores w' fl)).
Proof.
  intros Hfl. split.
  - intros options batch run Hparse Hdup.
    destruct (atomize_rejects_duplicates query options w fl batch Hfl
                Hparse Hdup) as (w' & r & Hrun & Hr & Hlist).
    exists w', r. repeat split; auto.
    intros Hsame. unfold stores in *. subst run.
    rewrite Hlist, Hsame. exact Hfl.
  - intros options v run Hparse Hdup.
    destruct (add_rejects_duplicate query options w fl v Hfl Hparse Hdup)
      as (w' & r & Hrun & Hr & Hlist).
    exists w', r. repeat split; auto.
    intros Hsame. unfold stores in *. subst run.
    rewrite Hlist, Hsame. exact Hfl.
Qed.

(** A list with F001, and a collaborator that answers with the array of
    F001 and F002: nothing is added, not even F002. *)
Lemma duplicate_id_rejects_whole_batch_witness :
  let w := Scenario.world_of [Scenario.todo "F001"] in
  let fl := Scenario.list_of [Scenario.todo "F001"] in
  stores w fl
  /\ exists w' r,
       FeatureAtomizerAgent.atomizeFeature
         (Scenario.answers Samples.array_of_two) Scenario.atomize w
       = (w', Returned (Some r))
       /\ FeatureAtomizerResult.success r = false
       /\ stores w' fl.
Proof.
  intros w fl. split; [reflexivity|].
  destruct (duplicate_id_rejects_whole_batch
              (Scenario.answers Samples.array_of_two) w fl eq_refl)
    as [Hatomize _].
  assert (Hparse :
            FeatureAtomizerAgent.parseFeatures Samples.array_of_two
            = Some [JObject [("id", JString "F001");
                             ("title", JString "Login form");
                             ("description", JString "Add a login form");
                             ("acceptance_criteria",
                              JArray [JString "User can log in"]);
                             ("passes", JBool false)];
                    JObject [("id", JString "F002");
                             ("title", JString "Render {name} template");
                             ("description",
                              JString "Replace {name} and {date} in templates");
                             ("acceptance_criteria",
                              JArray [JString "The text {name} is replaced"]);
                             ("type", JString "improvement");
                             ("passes", JBool false)]]).
  { vm_compute. reflexivity. }
  destruct (Hatomize Scenario.atomize _ Hparse) as (w' & r & Hrun & Hr & _ & Hst).
  - apply Exists_cons_hd.
    exists "F001", (Scenario.todo "F001").
    split; [reflexivity|]. split; [left; reflexivity|reflexivity].
  - exists w', r. split; [exact Hrun|]. split; [exact Hr|].
    apply Hst. reflexivity.
Defined.

(** The same request in the same scenario, computed: the failure names
    the duplicate, and the list still holds F001 alone. *)
Example atomize_with_known_id :
  FeatureAtomizerAgent.atomizeFeature
    (Scenario.answers Samples.array_of_two) Scenario.atomize
    (Scenario.world_of [Scenario.todo "F001"])
  = (with_disk
       {| disk := disk (Scenario.world_of [Scenario.todo "F001"]);
          env := Scenario.env0;
          queries :=
            [FeatureAtomizerAgent.queryOptions Scenario.atomize
               (Scenario.list_of [Scenario.todo "F001"]) "./"] |}
       (put_harness_atomizer_debug
          (Holds (FeatureAtomizerAgent.debugContent "2025-01-01T00:00:00.000Z"
                    {| AgentQueryResult.success := true;
                       AgentQueryResult.output := Samples.array_of_two;
                       AgentQueryResult.error := None |}))
          (disk (Scenario.world_of [Scenario.todo "F001"]))),
     Returned (Some (FeatureAtomizerAgent.failure
                       "Duplicate feature IDs found: F001"))).
Proof. vm_compute. reflexivity. Qed.

(** Without a known identifier the whole batch is appended, in order. *)
Example atomize_with_new_ids :
  exists w' r,
    FeatureAtomizerAgent.atomizeFeature
      (Scenario.answers Samples.array_of_two) Scenario.atomize
      (Scenario.world_of [Scenario.todo "F100"])
    = (w', Returned (Some r))
    /\ FeatureAtomizerResult.success r = true
    /\ stores w'
         (Scenario.list_of
            [Scenario.todo "F100"; Samples.task; Samples.braces_task]).
Proof.
  eexists. eexists. split; [vm_compute; reflexivity|].
  split; reflexivity.
Qed.

Example add_with_known_id :
  exists w' r,
    FeatureAdderAgent.addFeature
      (Scenario.answers Samples.fenced) Scenario.add
      (Scenario.world_of [Scenario.todo "F001"])
    = (w', Returned (Some r))
    /\ FeatureAdderResult.error r
       = Some "Feature ID F001 already exists. Please try again."
    /\ stores w' (Scenario.list_of [Scenario.todo "F001"]).
Proof.
  eexists. eexists. split; [vm_compute; reflexivity|].
  split; reflexivity.
Qed.

Example add_with_new_id :
  exists w' r,
    FeatureAdderAgent.addFeature
      (Scenario.answers Samples.fenced) Scenario.add
      (Scenario.world_of [Scenario.todo "F100"])
    = (w', Returned (Some r))
    /\ FeatureAdderResult.success r = true
    /\ stores w' (Scenario.list_of [Scenario.todo "F100"; Samples.task]).
Proof.
  eexists. eexists. split; [vm_compute; reflexivity|].
  split; reflexivity.
Qed.

(* ===================================================================== *)
(** * Properties of the loop *)
(* ===================================================================== *)

Section LoopFacts.
Variable query : Collaborator.
Variable options : Cli.LoopOptions.

Lemma below_remaining (session : Z) :
  Cli.below session (Cli.maxSessions options) = true ->
  remaining options session = S (remaining options (session + 1)).
Proof.
  unfold Cli.below, remaining.
  destruct (Cli.maxSessions options) as [m|]; [|discriminate].
  intros H. apply Z.ltb_lt in H. lia.
Qed.

Lemma not_below_remaining (session : Z) :
  Cli.below session (Cli.maxSessions options) = false ->
  remaining options session = 0.
Proof.
  unfold Cli.below, remaining.
  destruct (Cli.maxSessions options) as [m|]; [|reflexivity].
  intros H. apply Z.ltb_ge in H. lia.
Qed.

Lemma eligible_is_pending (filter : option string) (l : list Feature)
      (t : Feature) :
  find (eligible filter) l = Some t ->
  exists t', find ContextBuilder.pending l = Some t'.
Proof.
  induction l as [|x l IH]; simpl; [discriminate|].
  unfold eligible at 1, ContextBuilder.pending at 1.
  destruct (passes x); simpl; [exact IH|].
  intros _. exists x. reflexivity.
Qed.

(** One turn of the [while] loop. *)
Lemma sessions_unfold (n : nat) (session : Z) (w : World) :
  Cli.sessions query (S n) options session w
  = if Cli.below session (Cli.maxSessions options) then
      match nextTask (loop_filter options) w with
      | (w0, Returned None) => (w0, Returned ((session + 1)%Z, []))
      | (w0, Returned (Some _)) =>
          match CodingAgent.runSession query (session_options options) w0 with
          | (w1, Returned r) =>
              match Cli.sessions query n options (session + 1)%Z w1 with
              | (w2, Returned rest) => (w2, Returned (fst rest, r :: snd rest))
              | (w2, Thrown e) => (w2, Thrown e)
              end
          | (w1, Thrown e) => (w1, Thrown e)
          end
      | (w0, Thrown e) => (w0, Thrown e)
      end
    else (w, Returned (session, [])).
Proof.
  simpl. unfold bind, ret, nextTask, loop_filter, session_options.
  destruct (Cli.below session (Cli.maxSessions options)); [|reflexivity].
  destruct (Cli.filter_given (Cli.featureType options)) as [ty|].
  - destruct (ContextBuilder.getNextFeatureByType ty w) as [w0 [[t|]|e]];
      reflexivity.
  - destruct (ContextBuilder.getNextFeature w) as [w0 [[t|]|e]];
      reflexivity.
Qed.

(** With more fuel than iterations left, the loop ends by its own
    condition or by [break], after a sequence of sessions. *)
Lemma sessions_trace (n : nat) :
  forall (session : Z) (w : World),
    remaining options session < n ->
    exists w' s rs requests,
      Cli.sessions query n options session w = (w', Returned (s, rs))
      /\ loop_trace query options w rs w'
      /\ length rs <= remaining options session
      /\ queries w' = queries w ++ requests
      /\ length requests = length rs
      /\ (length rs = remaining options session
          \/ nextTask (loop_filter options) w' = (w', Returned None)).
Proof.
  induction n as [|n IH]; intros session w Hfuel; [lia|].
  rewrite sessions_unfold.
  destruct (Cli.below session (Cli.maxSessions options)) eqn:Hb.
  2:{ exists w, session, [], [].
      rewrite (not_below_remaining _ Hb).
      split; [reflexivity|]. split; [constructor|].
      split; [simpl; lia|]. split; [now rewrite app_nil_r|].
      split; [reflexivity|]. left; reflexivity. }
  pose proof (below_remaining _ Hb) as Hrem.
  pose proof (nextTask_eq (loop_filter options) w) as Hnext.
  rewrite Hnext.
  destruct (loaded w) as [fl|] eqn:Hfl.
  2:{ exists w, (session + 1)%Z, [], [].
      split; [reflexivity|]. split; [constructor|].
      split; [simpl; lia|]. split; [now rewrite app_nil_r|].
      split; [reflexivity|]. right. exact Hnext. }
  destruct (find (eligible (loop_filter options)) (features fl)) as [t|] eqn:Ht.
  2:{ exists w, (session + 1)%Z, [], [].
      split; [reflexivity|]. split; [constructor|].
      split; [simpl; lia|]. split; [now rewrite app_nil_r|].
      split; [reflexivity|]. right. exact Hnext. }
  destruct (eligible_is_pending _ _ _ Ht) as (t' & Ht').
  pose proof (session_request_eq (session_options options) w) as Hq.
  rewrite Hfl, Ht' in Hq. simpl in Hq.
  destruct (runSession_eq query _ w _ Hq) as (f & Htarget & Hsel & Hrun).
  rewrite Hfl, Ht' in Hsel. injection Hsel as <-.
  rewrite Hrun.
  set (q := CodingAgent.queryOptions (session_options options)
              (context_of w t')) in *.
  set (w1 := world_after w q (query q w)) in *.
  destruct (IH (session + 1)%Z w1) as (w2 & s & rs & reqs & Hloop & Htr
                                       & Hlen & Hqs & Hreqs & Hstop);
    [lia|].
  rewrite Hloop.
  exists w2, s, (session_result t' (query q w) :: rs), (q :: reqs).
  split; [reflexivity|]. split.
  { apply trace_session with (w1 := w1) (fl := fl) (t := t) (t' := t')
                             (q := q); auto.
    - now apply loaded_stores.
    - rewrite <- Ht. apply find_earliest.
    - rewrite <- Ht'. apply find_earliest.
    - unfold session_result.
      destruct (AgentQueryResult.success _); reflexivity. }
  split; [simpl; lia|].
  split; [rewrite Hqs; unfold w1, world_after; simpl;
          now rewrite <- app_assoc|].
  split; [simpl; lia|].
  destruct Hstop as [Hstop|Hstop]; [left; simpl; lia|right; exact Hstop].
Qed.

(** The command, once past its two checks, is the loop. *)
Lemma loop_eq (w : World) :
  auth_configured (env w) = true ->
  existsSync (feature_list_json (disk w)) = true ->
  Cli.loop query options w
  = match Cli.sessions query (S (Cli.iterations options)) options 0%Z w with
    | (w', Returned r) => (w', Returned (Cli.Finished (fst r) (snd r)))
    | (w', Thrown e) => (w', Thrown e)
    end.
Proof.
  intros Ha He. unfold Cli.loop, bind, get_env, get_disk, ret.
  cbv beta iota. rewrite Ha. cbn [negb]. cbv beta iota.
  rewrite He. reflexivity.
Qed.

(** Without credentials or without a task list the command exits at
    once. *)
Lemma loop_exit (w : World) :
  auth_configured (env w) = false
  \/ existsSync (feature_list_json (disk w)) = false ->
  Cli.loop query options w = (w, Returned (Cli.Exit 1)).
Proof.
  unfold Cli.loop, bind, get_env, get_disk, ret. cbv beta iota.
  destruct (auth_configured (env w)); cbn [negb]; cbv beta iota;
    [|reflexivity].
  intros [H|H]; [discriminate|]. now rewrite H.
Qed.

(** The result does not depend on the fuel, once there is enough. *)
Lemma sessions_fuel_irrelevant (n m : nat) :
  forall (session : Z) (w : World),
    remaining options session < n ->
    remaining options session < m ->
    Cli.sessions query n options session w
    = Cli.sessions query m options session w.
Proof.
  revert m. induction n as [|n IH]; intros m session w Hn Hm; [lia|].
  destruct m as [|m]; [lia|].
  rewrite !sessions_unfold.
  destruct (Cli.below session (Cli.maxSessions options)) eqn:Hb;
    [|reflexivity].
  pose proof (below_remaining _ Hb) as Hrem.
  destruct (nextTask (loop_filter options) w) as [w0 [[t|]|e]];
    try reflexivity.
  destruct (CodingAgent.runSession query (session_options options) w0)
    as [w1 [r|e]]; [|reflexivity].
  rewrite (IH m (session + 1)%Z w1); [reflexivity|lia|lia].
Qed.

End LoopFacts.

Section LoopScenarios.

(** With [maxSessions = 1] and three pending tasks, whatever the
    collaborator does: one session, about F001, and the loop ends with
    [session = 1]. *)
Lemma one_session_of_three (query : Collaborator) :
  exists q r,
    target_of q = Some (Scenario.todo "F001")
    /\ Cli.loop query (Scenario.loop_with 1) Scenario.three_tasks
       = (world_after Scenario.three_tasks q (query q Scenario.three_tasks),
          Returned (Cli.Finished 1 [r]))
    /\ SessionResult.featureId r = "F001".
Proof.
  assert (Hq : session_request (session_options (Scenario.loop_with 1))
                 Scenario.three_tasks
               = Some (CodingAgent.queryOptions
                         (session_options (Scenario.loop_with 1))
                         (context_of Scenario.three_tasks
                            (Scenario.todo "F001")))).
  { rewrite session_request_eq. reflexivity. }
  destruct (runSession_eq query _ _ _ Hq) as (f & Ht & Hsel & Hrun).
  injection Ht as <-.
  set (q := CodingAgent.queryOptions (session_options (Scenario.loop_with 1))
              (context_of Scenario.three_tasks (Scenario.todo "F001"))) in *.
  exists q, (session_result (Scenario.todo "F001")
               (query q Scenario.three_tasks)).
  split; [reflexivity|]. split.
  - rewrite loop_eq; [|reflexivity|reflexivity].
    change (Cli.iterations (Scenario.loop_with 1)) with 1.
    rewrite sessions_unfold.
    change (Cli.below 0 (Cli.maxSessions (Scenario.loop_with 1))) with true.
    cbv iota. rewrite nextTask_eq.
    change (loaded Scenario.three_tasks)
      with (Some (Scenario.list_of
                    [Scenario.todo "F001"; Scenario.todo "F002";
                     Scenario.todo "F003"])).
    cbv iota.
    change (find (eligible (loop_filter (Scenario.loop_with 1))) _)
      with (Some (Scenario.todo "F001")).
    cbv iota. rewrite Hrun. rewrite sessions_unfold.
    change (Cli.below (0 + 1) (Cli.maxSessions (Scenario.loop_with 1)))
      with false.
    reflexivity.
  - unfold session_result.
    destruct (AgentQueryResult.success _); reflexivity.
Qed.

(** Two pending tasks, [maxSessions = 5] and a collaborator that
    completes what it is given: F001, then F002, both successful; the
    third turn finds nothing and the collaborator is not called again. *)
Lemma two_tasks_end_to_end :
  exists w' r1 r2,
    Cli.loop Scenario.diligent (Scenario.loop_with 5) Scenario.two_tasks
    = (w', Returned (Cli.Finished 3 [r1; r2]))
    /\ map SessionResult.featureId [r1; r2] = ["F001"; "F002"]
    /\ map SessionResult.success [r1; r2] = [true; true]
    /\ map target_of (queries w')
       = [Some (Scenario.todo "F001"); Some (Scenario.todo "F002")]
    /\ nextTask None w' = (w', Returned None).
Proof.
  eexists. eexists. eexists. split; [vm_compute; reflexivity|].
  repeat split; vm_compute; reflexivity.
Qed.

(** A collaborator that always fails consumes sessions up to the cap,
    each about the same first task. *)
Lemma persistent_failure_consumes_sessions :
  exists w' rs,
    Cli.loop Scenario.unreachable (Scenario.loop_with 4) Scenario.three_tasks
    = (w', Returned (Cli.Finished 4 rs))
    /\ map SessionResult.featureId rs = ["F001"; "F001"; "F001"; "F001"]
    /\ map SessionResult.success rs = [false; false; false; false]
    /\ length (queries w') = 4
    /\ disk w' = disk Scenario.three_tasks.
Proof.
  eexists. eexists. split; [vm_compute; reflexivity|].
  repeat split; vm_compute; reflexivity.
Qed.

End LoopScenarios.

(** C6.  For every collaborator, options and world, the [loop] command
    either exits at once, for want of credentials or of a task list, or
    ends normally after a sequence of sessions, at most [maxSessions] of
    them (none when [maxSessions] is not a number), with one call of the
    collaborator per session.  Each session starts
    when the stored list has an eligible pending task, the earliest in
    list order being the one selected, and whatever a session returns the
    next turn starts from the world it leaves.  The loop stops only when
    the cap is reached or when no eligible pending task remains, and then
    it calls the collaborator no more.  With [maxSessions = 1] and three
    pending tasks exactly one session runs; with two pending tasks,
    [maxSessions = 5] and two successful sessions the loop takes F001,
    then F002, and the collaborator is not called a third time; a
    collaborator that always fails uses up the sessions without halting
    the loop. *)
Theorem loop_runs_bounded_sessions_in_order :
  (forall (query : Collaborator) (options : Cli.LoopOptions) (w : World),
      exists w' e,
        Cli.loop query options w = (w', Returned e)
        /\ match e with
           | Cli.Exit code =>
               code = 1%Z /\ w' = w
               /\ (auth_configured (env w) = false
                   \/ existsSync (feature_list_json (disk w)) = false)
           | Cli.Finished session results =>
               exists requests,
                 loop_trace query options w results w'
                 /\ length results <= Cli.iterations options
                 /\ (forall m, Cli.maxSessions options = Some m ->
                               (Z.of_nat (length results) <= Z.max 0 m)%Z)
                 /\ queries w' = queries w ++ requests
                 /\ length requests = length results
                 /\ (length results = Cli.iterations options
                     \/ nextTask (loop_filter options) w'
                        = (w', Returned None))
           end)
  /\ (forall query : Collaborator,
        exists q r,
          target_of q = Some (Scenario.todo "F001")
          /\ Cli.loop query (Scenario.loop_with 1) Scenario.three_tasks
             = (world_after Scenario.three_tasks q
                  (query q Scenario.three_tasks),
                Returned (Cli.Finished 1 [r]))
          /\ SessionResult.featureId r = "F001")
  /\ (exists w' r1 r2,
        Cli.loop Scenario.diligent (Scenario.loop_with 5) Scenario.two_tasks
        = (w', Returned (Cli.Finished 3 [r1; r2]))
        /\ map SessionResult.featureId [r1; r2] = ["F001"; "F002"]
        /\ map SessionResult.success [r1; r2] = [true; true]
        /\ map target_of (queries w')
           = [Some (Scenario.todo "F001"); Some (Scenario.todo "F002")]
        /\ nextTask None w' = (w', Returned None))
  /\ (exists w' rs,
        Cli.loop Scenario.unreachable (Scenario.loop_with 4)
          Scenario.three_tasks
        = (w', Returned (Cli.Finished 4 rs))
        /\ map SessionResult.featureId rs = ["F001"; "F001"; "F001"; "F001"]
        /\ map SessionResult.success rs = [false; false; false; false]
        /\ length (queries w') = 4
        /\ disk w' = disk Scenario.three_tasks).
Proof.
  split; [|split; [exact one_session_of_three|
                   split; [exact two_tasks_end_to_end|
                           exact persistent_failure_consumes_sessions]]].
  intros query options w.
  destruct (auth_configured (env w)) eqn:Ha.
  2:{ exists w, (Cli.Exit 1). split; [apply loop_exit; now left|].
      repeat split. now left. }
  destruct (existsSync (feature_list_json (disk w))) eqn:He.
  2:{ exists w, (Cli.Exit 1). split; [apply loop_exit; now right|].
      repeat split. now right. }
  assert (Hrem : remaining options 0 = Cli.iterations options).
  { unfold remaining, Cli.iterations.
    destruct (Cli.maxSessions options); [f_equal; lia|reflexivity]. }
  destruct (sessions_trace query options (S (Cli.iterations options)) 0%Z w)
    as (w' & s & rs & reqs & Hrun & Htr & Hlen & Hqs & Hreqs & Hstop);
    [lia|].
  rewrite Hrem in *.
  exists w', (Cli.Finished s rs).
  split; [rewrite loop_eq, Hrun by assumption; reflexivity|].
  exists reqs. repeat split; auto.
  intros m Hm. unfold Cli.iterations in Hlen. rewrite Hm in Hlen. lia.
Qed.

(* ===================================================================== *)
(** * Further properties: the call of the collaborator *)
(* ===================================================================== *)

Section StringFacts.

Lemma string_app_assoc (a b c : string) :
  ((a ++ b) ++ c = a ++ (b ++ c))%string.
Proof. induction a as [|x a IH]; simpl; [reflexivity|]. now rewrite IH. Qed.

Lemma string_app_nil_r (a : string) : (a ++ "" = a)%string.
Proof. induction a as [|x a IH]; simpl; [reflexivity|]. now rewrite IH. Qed.

Lemma of_string_app (a b : string) :
  of_string (a ++ b) = of_string a ++ of_string b.
Proof.
  unfold of_string. induction a as [|x a IH]; simpl; [reflexivity|].
  now rewrite IH.
Qed.

Lemma to_string_app (a b : text) :
  to_string (a ++ b) = (to_string a ++ to_string b)%string.
Proof.
  unfold to_string. induction a as [|x a IH]; simpl; [reflexivity|].
  now rewrite IH.
Qed.

Lemma of_to_string (t : text) : of_string (to_string t) = t.
Proof. apply list_ascii_of_string_of_list_ascii. Qed.

Lemma to_of_string (s : string) : to_string (of_string s) = s.
Proof. apply string_of_list_ascii_of_string. Qed.

End StringFacts.

Section QueryFacts.

Lemma last_result_cons_result (s s' : string) (r : option string)
      (e : option (list string)) (ms : list SDKMessage) :
  last_result (ResultMessage s' r e :: ms) s
  <-> last_result ms s \/ (Forall (fun m => is_result m = false) ms /\ s' = s).
Proof.
  unfold last_result. split.
  - intros (before & r0 & e0 & after & Heq & Hafter).
    destruct before as [|m before]; simpl in Heq.
    + injection Heq as -> -> -> ->. right. split; [exact Hafter|reflexivity].
    + injection Heq as _ ->. left. exists before, r0, e0, after. auto.
  - intros [(before & r0 & e0 & after & -> & Hafter)|(Hall & ->)].
    + exists (ResultMessage s' r e :: before), r0, e0, after. auto.
    + exists [], r, e, ms. auto.
Qed.

Lemma last_result_cons_other (s : string) (m : SDKMessage)
      (ms : list SDKMessage) :
  is_result m = false ->
  (last_result (m :: ms) s <-> last_result ms s).
Proof.
  intros Hm. unfold last_result. split.
  - intros (before & r0 & e0 & after & Heq & Hafter).
    destruct before as [|m' before]; simpl in Heq.
    + injection Heq as ->. discriminate Hm.
    + injection Heq as _ ->. exists before, r0, e0, after. auto.
  - intros (before & r0 & e0 & after & -> & Hafter).
    exists (m :: before), r0, e0, after. auto.
Qed.

(** The flag after the loop: the last result message decides, and
    without one the flag is as it was. *)
Lemma fold_success (ms : list SDKMessage) :
  forall a,
    AgentSdkClient.success (fold_left AgentSdkClient.on_message ms a) = true
    <-> last_result ms "success"
        \/ (Forall (fun m => is_result m = false) ms
            /\ AgentSdkClient.success a = true).
Proof.
  induction ms as [|m ms IH]; intros a; simpl.
  - split.
    + intros H. right. auto.
    + intros [(before & r & e & after & Heq & _)|[_ H]]; [|exact H].
      destruct before; discriminate Heq.
  - rewrite IH. destruct m as [content|s r e|].
    + rewrite last_result_cons_other by reflexivity. simpl.
      split; intros [H|[H1 H2]]; auto.
      right. split; [now inversion H1|exact H2].
    + rewrite last_result_cons_result.
      unfold AgentSdkClient.on_message.
      destruct (String.eqb s "success") eqn:E; simpl.
      * apply String.eqb_eq in E. subst s.
        split; [intros [H|[H _]]; auto|].
        intros [[H|[H _]]|[H _]]; auto. inversion H. discriminate.
      * apply String.eqb_neq in E.
        split; [intros [H|[_ H]]; [auto|discriminate]|].
        intros [[H|[_ H]]|[H _]]; [auto|contradiction|].
        inversion H. discriminate.
    + rewrite last_result_cons_other by reflexivity. simpl.
      split; intros [H|[H1 H2]]; auto.
      right. split; [now inversion H1|exact H2].
Qed.

Lemma fold_blocks (content : list ContentBlock) :
  forall out,
    fold_left
      (fun out block =>
         match block with
         | TextBlock text => (out ++ text)%string
         | OtherBlock => out
         end) content out
    = (out ++ blocks_text content)%string.
Proof.
  induction content as [|[text|] content IH]; intros out; simpl.
  - now rewrite string_app_nil_r.
  - now rewrite IH, string_app_assoc.
  - apply IH.
Qed.

(** The text after the loop, when no message of the stream replaces
    it. *)
Lemma fold_output_streamed (ms : list SDKMessage) :
  Forall (fun m => carries_final_text m = false) ms ->
  forall a,
    AgentSdkClient.output (fold_left AgentSdkClient.on_message ms a)
    = (AgentSdkClient.output a ++ assistant_text ms)%string.
Proof.
  induction 1 as [|m ms Hm Hms IH]; intros a; simpl.
  - now rewrite string_app_nil_r.
  - rewrite IH. destruct m as [content|s r e|]; simpl.
    + now rewrite fold_blocks, string_app_assoc.
    + simpl in Hm. destruct (String.eqb s "success"); simpl; [|reflexivity].
      destruct r as [r|]; [|reflexivity]. simpl in Hm.
      destruct (String.eqb r ""); [reflexivity|discriminate].
    + reflexivity.
Qed.

Lemma fold_output_final (before after : list SDKMessage) (r : string)
      (e : option (list string)) :
  r <> "" ->
  Forall (fun m => carries_final_text m = false) after ->
  forall a,
    AgentSdkClient.output
      (fold_left AgentSdkClient.on_message
         (before ++ ResultMessage "success" (Some r) e :: after) a)
    = (r ++ assistant_text after)%string.
Proof.
  intros Hr Hafter a. rewrite fold_left_app. simpl fold_left.
  rewrite fold_output_streamed by exact Hafter. f_equal.
  unfold AgentSdkClient.on_message. simpl.
  apply String.eqb_neq in Hr. now rewrite Hr.
Qed.

Lemma result_of_output (run : Run) :
  AgentQueryResult.output (AgentSdkClient.result_of run)
  = AgentSdkClient.output
      (fold_left AgentSdkClient.on_message (messages run) before_stream).
Proof.
  unfold AgentSdkClient.result_of. destruct (thrown run); reflexivity.
Qed.

End QueryFacts.

(** X1.  [runAgentQuery] never throws, calls the collaborator once and
    leaves the world as the collaborator left it.  Its result is a
    success exactly when the stream ended without an exception and the
    last result message it carried has the subtype [success]: neither an
    earlier result message nor any assistant message counts. *)
Theorem query_succeeds_iff_last_result_is_success
        (query : Collaborator) (options : AgentQueryOptions.t) (w : World) :
  let run := query options w in
  exists result,
    AgentSdkClient.runAgentQuery query options w
    = (world_after w options run, Returned result)
    /\ (AgentQueryResult.success result = true
        <-> thrown run = None /\ last_result (messages run) "success").
Proof.
  intros run. exists (AgentSdkClient.result_of run).
  split; [reflexivity|].
  unfold AgentSdkClient.result_of.
  destruct (thrown run) as [err|]; simpl.
  - split; [discriminate|]. intros [H _]. discriminate H.
  - rewrite fold_success. simpl.
    split.
    + intros [H|[_ H]]; [auto|discriminate].
    + intros [_ H]. left. exact H.
Qed.

(** X2.  The text [runAgentQuery] returns, whether or not the stream
    threw in the end: when a result message reported success with a
    non-empty text, the text of the last such message followed by the
    text blocks of the assistant messages that came after it; when there
    was none, the text blocks of all assistant messages, in order.  What
    was streamed before the final text is dropped, and a result message
    that reports a failure changes nothing of the text. *)
Theorem query_output_is_final_text_then_later_stream (run : Run) :
  (forall before r e after,
      messages run = before ++ ResultMessage "success" (Some r) e :: after ->
      r <> "" ->
      Forall (fun m => carries_final_text m = false) after ->
      AgentQueryResult.output (AgentSdkClient.result_of run)
      = (r ++ assistant_text after)%string)
  /\ (Forall (fun m => carries_final_text m = false) (messages run) ->
      AgentQueryResult.output (AgentSdkClient.result_of run)
      = assistant_text (messages run)).
Proof.
  split.
  - intros before r e after Heq Hr Hafter.
    rewrite result_of_output, Heq. now apply fold_output_final.
  - intros Hall. rewrite result_of_output.
    now rewrite fold_output_streamed.
Qed.

Lemma query_output_is_final_text_then_later_stream_witness :
  AgentQueryResult.output
    (AgentSdkClient.result_of
       {| after_disk := Scenario.disk_of Missing;
          after_env := Scenario.env0;
          messages :=
            [AssistantMessage [TextBlock "Working..."];
             ResultMessage "success" (Some "All done.") None;
             AssistantMessage [TextBlock " Bye."]];
          thrown := Some "socket closed" |})
  = "All done. Bye."
  /\ AgentQueryResult.output
       (AgentSdkClient.result_of
          {| after_disk := Scenario.disk_of Missing;
             after_env := Scenario.env0;
             messages := Scenario.out_of_turns;
             thrown := None |})
     = "Working...".
Proof.
  split.
  - apply (proj1 (query_output_is_final_text_then_later_stream _)
             [AssistantMessage [TextBlock "Working..."]] "All done." None
             [AssistantMessage [TextBlock " Bye."]]).
    + reflexivity.
    + discriminate.
    + repeat constructor.
  - refine (proj2 (query_output_is_final_text_then_later_stream
                     {| after_disk := Scenario.disk_of Missing;
                        after_env := Scenario.env0;
                        messages := Scenario.out_of_turns;
                        thrown := None |}) _).
    repeat constructor.
Defined.

Section QueryErrors.

Lemma fold_error_kept (ms : list SDKMessage) :
  Forall (fun m => carries_errors m = false) ms ->
  forall a,
    AgentSdkClient.error (fold_left AgentSdkClient.on_message ms a)
    = AgentSdkClient.error a.
Proof.
  induction 1 as [|m ms Hm Hms IH]; intros a; simpl; [reflexivity|].
  rewrite IH. destruct m as [content|s r e|]; simpl; try reflexivity.
  simpl in Hm. destruct (String.eqb s "success"); simpl; [reflexivity|].
  destruct e; [discriminate|reflexivity].
Qed.

Lemma fold_error_last (before after : list SDKMessage) (s : string)
      (r : option string) (es : list string) :
  s <> "success" ->
  Forall (fun m => carries_errors m = false) after ->
  forall a,
    AgentSdkClient.error
      (fold_left AgentSdkClient.on_message
         (before ++ ResultMessage s r (Some es) :: after) a)
    = Some (AgentSdkClient.join_errors es).
Proof.
  intros Hs Hafter a. rewrite fold_left_app. simpl fold_left.
  rewrite fold_error_kept by exact Hafter.
  unfold AgentSdkClient.on_message.
  apply String.eqb_neq in Hs. now rewrite Hs.
Qed.

End QueryErrors.

(** X30.  The error [runAgentQuery] returns: the message of the
    exception when the stream threw; otherwise the errors, joined by
    line feeds, of the last result message that reported a failure and
    listed errors, and none when there was no such message.  A later
    result message that reports success does not clear it, so that a
    successful result can carry the error of an earlier failure. *)
Theorem query_error_is_exception_or_last_listed_errors (run : Run) :
  (forall e, thrown run = Some e ->
             AgentQueryResult.error (AgentSdkClient.result_of run) = Some e)
  /\ (thrown run = None ->
      forall before s r es after,
        messages run = before ++ ResultMessage s r (Some es) :: after ->
        s <> "success" ->
        Forall (fun m => carries_errors m = false) after ->
        AgentQueryResult.error (AgentSdkClient.result_of run)
        = Some (AgentSdkClient.join_errors es))
  /\ (thrown run = None ->
      Forall (fun m => carries_errors m = false) (messages run) ->
      AgentQueryResult.error (AgentSdkClient.result_of run) = None).
Proof.
  unfold AgentSdkClient.result_of. split; [|split].
  - intros e ->. reflexivity.
  - intros -> before s r es after Heq Hs Hafter. simpl.
    rewrite Heq. now apply fold_error_last.
  - intros -> Hall. simpl. now rewrite fold_error_kept.
Qed.

(** A failure with two errors, then a success: the result is a success
    and carries the two errors. *)
Lemma query_error_is_exception_or_last_listed_errors_witness :
  let run :=
    {| after_disk := Scenario.disk_of Missing;
       after_env := Scenario.env0;
       messages :=
         [ResultMessage "error_during_execution" None
            (Some ["tool failed"; "retrying"]);
          ResultMessage "success" (Some "Done.") None];
       thrown := None |} in
  AgentQueryResult.success (AgentSdkClient.result_of run) = true
  /\ AgentQueryResult.error (AgentSdkClient.result_of run)
     = Some (q "tool failed|retrying").
Proof.
  intros run. split; [reflexivity|].
  apply (proj1 (proj2 (query_error_is_exception_or_last_listed_errors run))
           eq_refl [] "error_during_execution" None
           ["tool failed"; "retrying"]
           [ResultMessage "success" (Some "Done.") None]).
  - reflexivity.
  - discriminate.
  - repeat constructor.
Defined.

(* ===================================================================== *)
(** * Further properties: the journal *)
(* ===================================================================== *)

Section JournalFacts.

Lemma split_blank_aux_nonempty (t : text) :
  forall cur, ContextBuilder.split_blank_aux cur t <> [].
Proof.
  induction t as [|a t IH]; intros cur; simpl; [discriminate|].
  destruct t as [|b r]; [discriminate|].
  destruct (Ascii.eqb a lf && Ascii.eqb b lf); [discriminate|apply IH].
Qed.

Lemma join_blank_cons (x : text) (l : list text) :
  l <> [] ->
  ContextBuilder.join_blank (x :: l)
  = x ++ lf :: lf :: ContextBuilder.join_blank l.
Proof. destruct l; [contradiction|reflexivity]. Qed.

(** Joining the pieces of a text gives the text back. *)
Lemma join_split_aux (n : nat) :
  forall t cur,
    length t <= n ->
    ContextBuilder.join_blank (ContextBuilder.split_blank_aux cur t)
    = rev cur ++ t.
Proof.
  induction n as [|n IH]; intros t cur Hlen.
  - destruct t; [|simpl in Hlen; lia]. simpl. now rewrite app_nil_r.
  - destruct t as [|a [|b r]].
    + simpl. now rewrite app_nil_r.
    + reflexivity.
    + change (ContextBuilder.split_blank_aux cur (a :: b :: r))
        with (if Ascii.eqb a lf && Ascii.eqb b lf
              then rev cur :: ContextBuilder.split_blank_aux [] r
              else ContextBuilder.split_blank_aux (a :: cur) (b :: r)).
      destruct (Ascii.eqb a lf && Ascii.eqb b lf) eqn:E.
      * apply andb_prop in E. destruct E as [Ea Eb].
        apply Ascii.eqb_eq in Ea, Eb. subst a b.
        rewrite join_blank_cons by apply split_blank_aux_nonempty.
        rewrite IH by (simpl in *; lia). reflexivity.
      * rewrite IH by (simpl in *; lia). simpl.
        now rewrite <- app_assoc.
Qed.

Lemma join_split (t : text) :
  ContextBuilder.join_blank (ContextBuilder.split_blank t) = t.
Proof. unfold ContextBuilder.split_blank. now rewrite (join_split_aux (length t)). Qed.

(** Joining the last pieces gives an end of the text. *)
Lemma join_skipn_suffix (k : nat) :
  forall l, exists prefix,
    ContextBuilder.join_blank l
    = prefix ++ ContextBuilder.join_blank (skipn k l).
Proof.
  induction k as [|k IH]; intros l; [exists []; reflexivity|].
  destruct l as [|x l]; [exists []; reflexivity|].
  simpl skipn. destruct (IH l) as (prefix & Hp).
  destruct l as [|y l].
  - exists x. rewrite skipn_nil. simpl. now rewrite app_nil_r.
  - rewrite join_blank_cons by discriminate.
    exists (x ++ lf :: lf :: prefix). rewrite Hp.
    now rewrite <- app_assoc.
Qed.

Lemma slice_last_skipn {A} (n : nat) (l : list A) :
  exists k, ContextBuilder.slice_last n l = skipn k l.
Proof.
  destruct n; [exists 0; reflexivity|].
  exists (length l - S n). reflexivity.
Qed.

Lemma slice_last_all {A} (n : nat) (l : list A) :
  n = 0 \/ length l <= n -> ContextBuilder.slice_last n l = l.
Proof.
  intros [->|H]; [reflexivity|]. destruct n; [reflexivity|].
  unfold ContextBuilder.slice_last.
  replace (length l - S n) with 0 by lia. reflexivity.
Qed.

End JournalFacts.

(** X3.  [getProgressLog] never throws and changes nothing.  It returns
    the empty string when [progress.log] is missing or cannot be read.
    Otherwise it returns an end of the trimmed content, which is the
    whole trimmed content when the log has at most [lastN] entries, and
    also when [lastN] is [0]: [slice(-0)] keeps every entry. *)
Theorem progress_log_read_is_an_end_of_the_log (lastN : nat) (w : World) :
  exists result,
    ContextBuilder.getProgressLog lastN w = (w, Returned result)
    /\ match progress_log (disk w) with
       | Holds content =>
           let trimmed := trim (of_string content) in
           (exists dropped, trimmed = dropped ++ of_string result)
           /\ (lastN = 0
               \/ length (ContextBuilder.split_blank trimmed) <= lastN ->
               result = to_string trimmed)
       | _ => result = ""
       end.
Proof.
  rewrite getProgressLog_eq. eexists. split; [reflexivity|].
  destruct (progress_log (disk w)) as [|why|content]; try reflexivity.
  cbv zeta. split.
  - rewrite of_to_string.
    destruct (slice_last_skipn lastN
                (ContextBuilder.split_blank (trim (of_string content))))
      as (k & ->).
    destruct (join_skipn_suffix k
                (ContextBuilder.split_blank (trim (of_string content))))
      as (prefix & Hp).
    exists prefix. rewrite <- Hp. now rewrite join_split.
  - intros H. rewrite slice_last_all by exact H. now rewrite join_split.
Qed.

Section RoundTrip.

Lemma split_blank_aux_step (a b : ascii) (r cur : text) :
  ContextBuilder.split_blank_aux cur (a :: b :: r)
  = if Ascii.eqb a lf && Ascii.eqb b lf
    then rev cur :: ContextBuilder.split_blank_aux [] r
    else ContextBuilder.split_blank_aux (a :: cur) (b :: r).
Proof. reflexivity. Qed.

Lemma no_blank_line_step (a b : ascii) (r : text) :
  no_blank_line (a :: b :: r)
  = negb (Ascii.eqb a lf && Ascii.eqb b lf) && no_blank_line (b :: r).
Proof. reflexivity. Qed.

(** A piece without a blank line that does not end with a line feed is
    cut off at the separator that follows it. *)
Lemma split_piece (e : text) :
  forall cur rest,
    no_blank_line e = true ->
    last e "000"%char <> lf ->
    ContextBuilder.split_blank_aux cur (e ++ lf :: lf :: rest)
    = (rev cur ++ e) :: ContextBuilder.split_blank_aux [] rest.
Proof.
  induction e as [|a e IH]; intros cur rest Hnb Hlast.
  - simpl app. rewrite split_blank_aux_step. simpl. now rewrite app_nil_r.
  - destruct e as [|b e'].
    + simpl in Hlast. simpl app. rewrite split_blank_aux_step.
      assert (Ea : Ascii.eqb a lf = false) by now apply Ascii.eqb_neq.
      rewrite Ea. cbn [andb].
      change (lf :: lf :: rest) with ([] ++ lf :: lf :: rest).
      rewrite (IH (a :: cur) rest) by (try reflexivity; discriminate).
      simpl. now rewrite app_nil_r.
    + rewrite no_blank_line_step in Hnb.
      apply andb_prop in Hnb. destruct Hnb as [Hab Hnb].
      apply negb_true_iff in Hab.
      change ((a :: b :: e') ++ lf :: lf :: rest)
        with (a :: b :: (e' ++ lf :: lf :: rest)).
      rewrite split_blank_aux_step, Hab.
      change (b :: e' ++ lf :: lf :: rest)
        with ((b :: e') ++ lf :: lf :: rest).
      rewrite (IH (a :: cur) rest Hnb) by exact Hlast.
      simpl. now rewrite <- app_assoc.
Qed.

Lemma split_whole (e : text) :
  forall cur,
    no_blank_line e = true ->
    ContextBuilder.split_blank_aux cur e = [rev cur ++ e].
Proof.
  induction e as [|a e IH]; intros cur Hnb.
  - simpl. now rewrite app_nil_r.
  - destruct e as [|b e']; [reflexivity|].
    rewrite no_blank_line_step in Hnb.
    apply andb_prop in Hnb. destruct Hnb as [Hab Hnb].
    apply negb_true_iff in Hab.
    rewrite split_blank_aux_step, Hab, (IH (a :: cur) Hnb).
    simpl. now rewrite <- app_assoc.
Qed.

(** Splitting the join of such pieces gives the pieces back. *)
Lemma split_join (es : list text) :
  es <> [] ->
  Forall (fun e => no_blank_line e = true /\ last e "000"%char <> lf) es ->
  ContextBuilder.split_blank (ContextBuilder.join_blank es) = es.
Proof.
  intros Hne Hall. unfold ContextBuilder.split_blank.
  induction Hall as [|e es [Hnb Hlast] Hall IH]; [contradiction|].
  destruct es as [|e2 es'].
  - simpl. now rewrite split_whole.
  - rewrite join_blank_cons by discriminate.
    rewrite split_piece by assumption. simpl app.
    now rewrite IH by discriminate.
Qed.

Lemma last_nonempty {A} (l : list A) (d d' : A) :
  l <> [] -> last l d = last l d'.
Proof.
  induction l as [|x l IH]; [contradiction|]. intros _.
  destruct l as [|y l]; [reflexivity|]. simpl in *. now apply IH.
Qed.

Lemma last_app_nonempty {A} (p e : list A) (d : A) :
  e <> [] -> last (p ++ e) d = last e d.
Proof.
  intros He. induction p as [|x p IH]; [reflexivity|].
  simpl app. destruct (p ++ e) eqn:E.
  - destruct p; [contradiction|discriminate].
  - simpl. rewrite <- IH. reflexivity.
Qed.

(** [trim] leaves a text alone that begins and ends with characters
    that are no white space. *)
Lemma trim_fixed (c : ascii) (r : text) :
  is_space c = false ->
  is_space (last (c :: r) c) = false ->
  trim (c :: r) = c :: r.
Proof.
  intros Hc Hl. unfold trim. cbn [trimStart]. rewrite Hc.
  unfold trimEnd.
  assert (Hrev : rev (c :: r)
                 = last (c :: r) c :: rev (removelast (c :: r))).
  { rewrite (app_removelast_last c (l := c :: r)) at 1 by discriminate.
    now rewrite rev_app_distr. }
  set (x := last (c :: r) c) in *.
  rewrite Hrev. cbn [trimStart]. rewrite Hl, <- Hrev.
  apply rev_involutive.
Qed.

(** The text form of a tidy entry. *)
Lemma tidy_inv (entry : string) :
  tidy entry = true ->
  exists c r,
    of_string entry = c :: r
    /\ is_space c = false
    /\ is_space (last (c :: r) c) = false
    /\ no_blank_line (c :: r) = true.
Proof.
  unfold tidy. destruct (of_string entry) as [|c r]; [discriminate|].
  intros H. apply andb_prop in H. destruct H as [H Hnb].
  apply andb_prop in H. destruct H as [Hc Hl].
  apply negb_true_iff in Hc, Hl. exists c, r. auto.
Qed.

Lemma space_lf (c : ascii) : is_space c = false -> c <> lf.
Proof. intros H ->. discriminate H. Qed.

Lemma tidy_pieces (es : list string) :
  Forall (fun e => tidy e = true) es ->
  Forall (fun e => no_blank_line e = true /\ last e "000"%char <> lf)
         (map of_string es).
Proof.
  induction 1 as [|e es He Hall IH]; simpl; constructor; [|exact IH].
  destruct (tidy_inv _ He) as (c & r & -> & Hc & Hl & Hnb).
  split; [exact Hnb|].
  rewrite (last_nonempty _ _ c) by discriminate. now apply space_lf.
Qed.

(** The join of tidy entries begins and ends as its first and last
    entries do. *)
Lemma join_tidy (es : list string) :
  es <> [] ->
  Forall (fun e => tidy e = true) es ->
  exists c r,
    ContextBuilder.join_blank (map of_string es) = c :: r
    /\ is_space c = false
    /\ is_space (last (c :: r) c) = false.
Proof.
  intros Hne Hall.
  induction Hall as [|e es He Hall IH]; [contradiction|].
  destruct (tidy_inv _ He) as (c & r & Heq & Hc & Hl & _).
  destruct es as [|e2 es'].
  - simpl. rewrite Heq. exists c, r. auto.
  - destruct IH as (c2 & r2 & Heq2 & Hc2 & Hl2); [discriminate|].
    change (map of_string (e :: e2 :: es'))
      with (of_string e :: map of_string (e2 :: es')).
    rewrite join_blank_cons by discriminate.
    rewrite Heq, Heq2. simpl app.
    exists c, (r ++ lf :: lf :: c2 :: r2). split; [reflexivity|].
    split; [exact Hc|].
    replace (c :: r ++ lf :: lf :: c2 :: r2)
      with ((c :: r ++ [lf; lf]) ++ c2 :: r2)
      by (simpl; now rewrite <- app_assoc).
    rewrite last_app_nonempty by discriminate.
    now rewrite (last_nonempty _ _ c2) by discriminate.
Qed.

Lemma join_blank_snoc (l : list text) (x : text) :
  l <> [] ->
  ContextBuilder.join_blank (l ++ [x])
  = ContextBuilder.join_blank l ++ lf :: lf :: x.
Proof.
  induction l as [|y l IH]; [contradiction|]. intros _.
  destruct l as [|z l]; [reflexivity|].
  change ((y :: z :: l) ++ [x]) with (y :: ((z :: l) ++ [x])).
  rewrite join_blank_cons by (simpl; discriminate).
  rewrite IH by discriminate.
  rewrite (join_blank_cons y (z :: l)) by discriminate.
  now rewrite <- app_assoc.
Qed.

Lemma journal_text_snoc (olds : list string) (e : string) :
  olds <> [] ->
  journal_text (olds ++ [e])
  = (journal_text olds ++ String lf (String lf e))%string.
Proof.
  intros Hne. unfold journal_text. rewrite map_app. simpl map.
  rewrite join_blank_snoc by (destruct olds; [contradiction|discriminate]).
  rewrite to_string_app. simpl. fold (to_string (of_string e)).
  now rewrite to_of_string.
Qed.

Lemma appendToProgressLog_eq (entry : string) (w : World) :
  write_error (env w) = None ->
  (forall why, progress_log (disk w) <> Unreadable why) ->
  ContextBuilder.appendToProgressLog entry w
  = (with_disk w
       (put_progress_log (journal_with (progress_log (disk w)) entry)
          (disk w)),
     Returned tt).
Proof.
  intros Hw Hr.
  unfold ContextBuilder.appendToProgressLog, appendFile_progress_log,
    writeFile, bind, get_disk, get_env, set_disk, with_disk.
  cbv beta iota.
  destruct (progress_log (disk w)) as [|why|old] eqn:E; simpl;
    rewrite Hw; try reflexivity; try now rewrite E.
  now destruct (Hr why).
Qed.

(** Appending entries to a journal of entries. *)
Lemma appendAll_journal (es : list string) :
  forall (olds : list string) (w : World),
    write_error (env w) = None ->
    progress_log (disk w)
    = match olds with [] => Missing | _ => Holds (journal_text olds) end ->
    exists w',
      appendAll es w = (w', Returned tt)
      /\ env w' = env w
      /\ progress_log (disk w')
         = match olds ++ es with
           | [] => Missing
           | _ => Holds (journal_text (olds ++ es))
           end.
Proof.
  induction es as [|e es IH]; intros olds w Hw Hlog.
  - exists w. rewrite app_nil_r. auto.
  - simpl appendAll. unfold bind.
    rewrite appendToProgressLog_eq;
      [|exact Hw|intros why; rewrite Hlog; destruct olds; discriminate].
    destruct (IH (olds ++ [e])
                (with_disk w
                   (put_progress_log
                      (journal_with (progress_log (disk w)) e) (disk w))))
      as (w' & Hrun & Henv & Hdisk).
    + exact Hw.
    + simpl. rewrite Hlog. destruct olds as [|o olds]; simpl.
      * unfold journal_text. cbn [map ContextBuilder.join_blank].
        now rewrite to_of_string.
      * destruct (olds ++ [e]) eqn:E;
          [destruct olds; discriminate|].
        rewrite <- E.
        change (o :: olds ++ [e]) with ((o :: olds) ++ [e]).
        now rewrite journal_text_snoc by discriminate.
    + exists w'. rewrite Hrun. split; [reflexivity|].
      split; [exact Henv|].
      rewrite <- app_assoc in Hdisk. exact Hdisk.
Qed.

End RoundTrip.

(** X4.  Entries written with [appendToProgressLog] are read back by
    [getProgressLog]: when the journal does not exist yet, writes
    succeed and every entry is tidy (it begins and ends with a character
    that is no white space and has no blank line inside), then after
    appending the entries in order, [getProgressLog lastN] returns the
    last [lastN] of them, in order and separated by blank lines (all of
    them when there are fewer, or when [lastN] is [0]). *)
Theorem appended_entries_are_read_back
        (entries : list string) (lastN : nat) (w : World) :
  entries <> [] ->
  Forall (fun e => tidy e = true) entries ->
  progress_log (disk w) = Missing ->
  write_error (env w) = None ->
  exists w',
    appendAll entries w = (w', Returned tt)
    /\ ContextBuilder.getProgressLog lastN w'
       = (w', Returned
                (journal_text (ContextBuilder.slice_last lastN entries))).
Proof.
  intros Hne Htidy Hlog Hw.
  destruct (appendAll_journal entries [] w Hw Hlog) as (w' & Hrun & _ & Hd).
  exists w'. split; [exact Hrun|].
  rewrite getProgressLog_eq. simpl app in Hd.
  destruct entries as [|e es]; [contradiction|]. rewrite Hd.
  do 2 f_equal. unfold journal_text. rewrite of_to_string.
  destruct (join_tidy (e :: es) Hne Htidy) as (c & r & Heq & Hc & Hl).
  rewrite Heq, (trim_fixed c r Hc Hl), <- Heq.
  rewrite split_join by (try discriminate; now apply tidy_pieces).
  f_equal. f_equal.
  unfold ContextBuilder.slice_last. destruct lastN; [reflexivity|].
  rewrite length_map. now rewrite skipn_map.
Qed.

Lemma appended_entries_are_read_back_witness :
  exists w',
    appendAll ["[t1] [F001] Login - COMPLETED"; "[t2] [F002] Logout - ERROR";
               "[t3] [F002] Logout - COMPLETED"] Scenario.two_tasks
    = (w', Returned tt)
    /\ ContextBuilder.getProgressLog 2 w'
       = (w', Returned
                (journal_text
                   ["[t2] [F002] Logout - ERROR";
                    "[t3] [F002] Logout - COMPLETED"])).
Proof.
  apply (appended_entries_are_read_back
           ["[t1] [F001] Login - COMPLETED"; "[t2] [F002] Logout - ERROR";
            "[t3] [F002] Logout - COMPLETED"] 2 Scenario.two_tasks).
  - discriminate.
  - repeat constructor.
  - reflexivity.
  - reflexivity.
Defined.

(* ===================================================================== *)
(** * Further properties: the extractor *)
(* ===================================================================== *)

(** X5.  The two copies of [validateFeature] accept the same values.
    They differ on [null] alone: the adder's copy throws on it (it
    reads [feature.id] first), the atomizer's copy returns [false]. *)
Theorem validators_differ_only_on_null (v : json) :
  match v with
  | JNull =>
      (exists e, FeatureAdderAgent.validateFeature v = Thrown e)
      /\ FeatureAtomizerAgent.validateFeature v = false
  | _ =>
      FeatureAdderAgent.validateFeature v
      = Returned (FeatureAtomizerAgent.validateFeature v)
  end.
Proof.
  unfold FeatureAdderAgent.validateFeature,
    FeatureAtomizerAgent.validateFeature.
  destruct v as [|b|n|s|vs|ms]; simpl.
  - split; [eexists; reflexivity|reflexivity].
  - now rewrite andb_false_r.
  - now rewrite andb_false_r.
  - now rewrite andb_false_r.
  - reflexivity.
  - reflexivity.
Qed.

Section ScanFacts.
Variables open close : ascii.

Lemma depth_cons (count : Z) (c : ascii) (t : text) :
  depth open close count (c :: t)
  = depth open close
      (let n1 := if Ascii.eqb c open then (count + 1)%Z else count in
       if Ascii.eqb c close then (n1 - 1)%Z else n1) t.
Proof. reflexivity. Qed.

End ScanFacts.

(** X6.  The loop that looks for the matching bracket (strategy 3 of
    both extractors), started with the counter at [count] (the program
    starts it at [0]), ends just after the first closing character at
    which the counter is back at zero: the region it cuts has as many
    opening as closing characters, counted from [count], and no shorter
    region that ends with a closing character has.  When there is no
    such character it assigns no end.  Characters inside JSON strings
    count like any other. *)
Theorem scan_ends_at_first_balanced_close
        (open close : ascii) (t : text) :
  forall (count : Z) (i : nat),
    match scan_balanced open close count i t with
    | Some e =>
        exists n,
          e = i + S n /\ n < length t
          /\ nth n t "000"%char = close
          /\ depth open close count (firstn (S n) t) = 0%Z
          /\ forall m, m < n -> nth m t "000"%char = close ->
                       depth open close count (firstn (S m) t) <> 0%Z
    | None =>
        forall m, m < length t -> nth m t "000"%char = close ->
                  depth open close count (firstn (S m) t) <> 0%Z
    end.
Proof.
  induction t as [|c r IH]; intros count i.
  - simpl. intros m Hm. lia.
  - cbn [scan_balanced]. cbv zeta.
    set (count1 := if Ascii.eqb c open then (count + 1)%Z else count).
    destruct (Ascii.eqb c close) eqn:Ec.
    + apply Ascii.eqb_eq in Ec.
      destruct (count1 - 1 =? 0)%Z eqn:Ez.
      * apply Z.eqb_eq in Ez. exists 0.
        split; [lia|]. split; [simpl; lia|]. split; [exact Ec|].
        split; [|intros m Hm; lia].
        simpl firstn. rewrite depth_cons. fold count1.
        subst c. rewrite Ascii.eqb_refl. exact Ez.
      * apply Z.eqb_neq in Ez.
        assert (Hstep : forall k,
                   depth open close count (firstn (S k) (c :: r))
                   = match k with
                     | O => (count1 - 1)%Z
                     | S k' =>
                         depth open close (count1 - 1)%Z (firstn (S k') r)
                     end).
        { intros k. cbn [firstn]. rewrite depth_cons. fold count1.
          subst c. rewrite Ascii.eqb_refl.
          destruct k; [destruct r|]; reflexivity. }
        specialize (IH (count1 - 1)%Z (S i)).
        destruct (scan_balanced open close (count1 - 1) (S i) r) as [e|].
        -- destruct IH as (n & -> & Hn & Hc & Hd & Hmin).
           exists (S n). split; [lia|]. split; [simpl; lia|].
           split; [exact Hc|]. split; [now rewrite Hstep|].
           intros m Hm Hcm. rewrite Hstep.
           destruct m as [|m]; [exact Ez|]. apply Hmin; [lia|exact Hcm].
        -- intros m Hm Hcm. rewrite Hstep.
           destruct m as [|m]; [exact Ez|].
           apply IH; [simpl in Hm; lia|exact Hcm].
    + assert (Hstep : forall k,
                 depth open close count (firstn (S k) (c :: r))
                 = match k with
                   | O => count1
                   | S k' => depth open close count1 (firstn (S k') r)
                   end).
      { intros k. cbn [firstn]. rewrite depth_cons. fold count1.
        rewrite Ec. destruct k; [destruct r|]; reflexivity. }
      apply Ascii.eqb_neq in Ec.
      specialize (IH count1 (S i)).
      destruct (scan_balanced open close count1 (S i) r) as [e|].
      * destruct IH as (n & -> & Hn & Hc & Hd & Hmin).
        exists (S n). split; [lia|]. split; [simpl; lia|].
        split; [exact Hc|]. split; [now rewrite Hstep|].
        intros m Hm Hcm. rewrite Hstep.
        destruct m as [|m]; [now destruct Ec|]. apply Hmin; [lia|exact Hcm].
      * intros m Hm Hcm. rewrite Hstep.
        destruct m as [|m]; [now destruct Ec|].
        apply IH; [simpl in Hm; lia|exact Hcm].
Qed.


Section RegexFacts.

Lemma re_nested_ind (P : re -> Prop) :
  (forall c, P (Chr c)) ->
  (forall rs, Forall P rs -> P (Seq rs)) ->
  (forall a, P a -> P (Star a)) ->
  (forall a, P a -> P (LazyStar a)) ->
  (forall a, P a -> P (Opt a)) ->
  (forall a, P a -> P (Capture a)) ->
  forall r, P r.
Proof.
  intros HChr HSeq HStar HLazy HOpt HCap. fix IH 1.
  intros [c|rs|a|a|a|a].
  - apply HChr.
  - apply HSeq. induction rs as [|r rs IHrs]; constructor;
      [apply IH|exact IHrs].
  - apply HStar, IH.
  - apply HLazy, IH.
  - apply HOpt, IH.
  - apply HCap, IH.
Qed.

(** Whatever the matcher returns, its continuation returned. *)
Lemma run_result_from_continuation (A : Type) (r : re) :
  forall (t : text) (cap : option text)
         (k : text -> option text -> option A) (x : A),
    run r t cap k = Some x -> exists t' cap', k t' cap' = Some x.
Proof.
  induction r as [c|rs IHrs|a IHa|a IHa|a IHa|a IHa] using re_nested_ind;
    intros t cap k x.
  - simpl. destruct t as [|y t']; [discriminate|].
    destruct (cls_matches c y); [|discriminate]. eauto.
  - simpl. revert t cap k.
    induction IHrs as [|r1 rs' Hr1 _ IH]; intros t cap k H; [eauto|].
    apply Hr1 in H. destruct H as (t' & cap' & H). now apply IH in H.
  - change (run (Star a) t cap k)
      with (star_loop a k (S (length t)) t cap).
    generalize (S (length t)). intros n. revert t cap.
    induction n as [|n IHn]; intros t cap H; [simpl in H; eauto|].
    cbn [star_loop] in H.
    match type of H with
    | match ?m with _ => _ end = _ => destruct m as [y|] eqn:E
    end; [|eauto].
    injection H as ->. apply IHa in E. destruct E as (t' & cap' & E).
    destruct (length t' <? length t); [|discriminate]. now apply IHn in E.
  - change (run (LazyStar a) t cap k)
      with (lazy_loop a k (S (length t)) t cap).
    generalize (S (length t)). intros n. revert t cap.
    induction n as [|n IHn]; intros t cap H; [simpl in H; eauto|].
    cbn [lazy_loop] in H.
    destruct (k t cap) as [y|] eqn:E; [injection H as ->; eauto|].
    apply IHa in H. destruct H as (t' & cap' & H).
    destruct (length t' <? length t); [|discriminate]. now apply IHn in H.
  - simpl. destruct (run a t cap k) as [y|] eqn:E; intros H; [|eauto].
    injection H as ->. now apply IHa in E.
  - simpl. intros H. apply IHa in H. destruct H as (t' & _ & H). eauto.
Qed.

Lemma match_here_prefix (r : re) (t m rest : text) (cap : option text) :
  match_here r t = Some (m, cap, rest) -> exists n, m = firstn n t.
Proof.
  unfold match_here. intros H.
  apply run_result_from_continuation in H.
  destruct H as (t' & cap' & H). injection H as <- _ _. eauto.
Qed.

Lemma search_finds_piece (r : re) (t : text) :
  forall i m,
    search r i t = Some m ->
    exists k n, index m = i + k /\ whole m = firstn n (skipn k t).
Proof.
  induction t as [|c t IH]; intros i m; simpl.
  - destruct (match_here r []) as [[[w cap] rest]|] eqn:E; [|discriminate].
    intros H. injection H as <-. simpl.
    destruct (match_here_prefix _ _ _ _ _ E) as (n & ->).
    exists 0, n. split; [lia|reflexivity].
  - destruct (match_here r (c :: t)) as [[[w cap] rest]|] eqn:E.
    + intros H. injection H as <-. simpl.
      destruct (match_here_prefix _ _ _ _ _ E) as (n & ->).
      exists 0, n. split; [lia|reflexivity].
    + intros H. apply IH in H. destruct H as (k & n & Hi & Hw).
      exists (S k), n. split; [lia|exact Hw].
Qed.

Lemma startsWith_firstn (n : nat) (t : text) :
  startsWith (firstn n t) t = true.
Proof.
  revert t. induction n as [|n IH]; intros [|c t]; simpl; try reflexivity.
  now rewrite Ascii.eqb_refl, IH.
Qed.

Lemma indexOf_finds (p : text) (k : nat) :
  forall t,
    startsWith p (skipn k t) = true ->
    exists j, indexOf p t = Some j /\ j <= k.
Proof.
  induction k as [|k IH]; intros t H.
  - simpl in H. exists 0. split; [|lia].
    destruct t; simpl in *; now rewrite H.
  - destruct t as [|c t].
    + simpl in H. exists 0. split; [|lia]. simpl. now rewrite H.
    + simpl in H. cbn [indexOf].
      destruct (startsWith p (c :: t)); [exists 0; split; [reflexivity|lia]|].
      destruct (IH t H) as (j & -> & Hj). exists (S j).
      split; [reflexivity|lia].
Qed.

End RegexFacts.

(** X7.  What a pattern matches is a piece of the text at the index the
    match reports, so that the [indexOf] by which strategy 3 of
    [parseFeature] looks the matched text up again always finds it, at
    the index of the match or before it. *)
Theorem matched_text_is_found_again (r : re) (t : text) (m : result) :
  exec r t = Some m ->
  (exists n, whole m = firstn n (skipn (index m) t))
  /\ exists startIndex,
       indexOf (whole m) t = Some startIndex /\ startIndex <= index m.
Proof.
  unfold exec. intros H.
  destruct (search_finds_piece _ _ _ _ H) as (k & n & Hi & Hw).
  simpl in Hi. subst k. split; [eauto|].
  apply indexOf_finds. rewrite Hw. apply startsWith_firstn.
Qed.

Lemma matched_text_is_found_again_witness :
  (exists n,
      of_string Samples.raw
      = firstn n (skipn 35 (of_string Samples.prose_prefixed)))
  /\ exists startIndex,
       indexOf (of_string Samples.raw) (of_string Samples.prose_prefixed)
       = Some startIndex
       /\ startIndex <= 35.
Proof.
  apply (matched_text_is_found_again FeatureAdderAgent.featurePattern
           (of_string Samples.prose_prefixed)
           {| index := 35; whole := of_string Samples.raw; group1 := None |}).
  vm_compute. reflexivity.
Defined.

(* ===================================================================== *)
(** * Further properties: adding tasks to the list *)
(* ===================================================================== *)

(** The goal left by a branch that ends without saving the list. *)
Ltac append_leaf :=
  eexists; eexists; split; [reflexivity|]; simpl; repeat split; reflexivity.

Section AppendOutcomes.
Variable query : Collaborator.

Lemma filter_empty {A} (p : A -> bool) (l : list A) :
  negb (length (filter p l) =? 0) = false ->
  forall x, In x l -> p x = false.
Proof.
  intros H x Hin. destruct (p x) eqn:E; [|reflexivity].
  assert (Hx : In x (filter p l)) by (apply filter_In; auto).
  destruct (filter p l); [contradiction|discriminate].
Qed.

(** Every way [atomizeFeature] can end once the list is loaded. *)
Lemma atomize_outcome (options : FeatureAtomizerOptions.t) (w : World)
      (fl : FeatureList) :
  stores w fl ->
  let q := atomizer_request options fl w in
  let run := query q w in
  let result := AgentSdkClient.result_of run in
  exists w' r,
    FeatureAtomizerAgent.atomizeFeature query options w = (w', Returned r)
    /\ env w' = after_env run
    /\ queries w' = queries w ++ [q]
    /\ progress_log (disk w') = progress_log (after_disk run)
    /\ match r with
       | Some r =>
           if FeatureAtomizerResult.success r then
             exists batch added,
               AgentQueryResult.success result = true
               /\ FeatureAtomizerAgent.parseFeatures
                    (AgentQueryResult.output result) = Some batch
               /\ batch <> []
               /\ (forall v, In v batch -> ~ id_exists fl v)
               /\ asFeatures batch = Some added
               /\ write_error (after_env run) = None
               /\ FeatureAtomizerResult.features r = Some added
               /\ feature_list_json (disk w')
                  = Holds (Encodes (with_added fl added))
           else
             feature_list_json (disk w') = feature_list_json (after_disk run)
       | None =>
           feature_list_json (disk w') = feature_list_json (after_disk run)
       end.
Proof.
  intros Hfl q run result.
  apply loaded_stores in Hfl.
  unfold FeatureAtomizerAgent.atomizeFeature, try_catch, bind.
  rewrite loadFeatureList_eq, Hfl.
  unfold ContextBuilder.getProjectStructure, AgentSdkClient.runAgentQuery,
    CodingAgent.toISOString, bind, get_env, ret.
  cbv beta iota. fold (atomizer_request options fl w). fold q. fold run.
  fold result.
  rewrite writeFile_eq. cbv beta iota. simpl env. simpl disk.
  destruct (write_error (after_env run)) as [why|] eqn:Hw; cbv beta iota.
  - destruct (negb _ || _)%bool eqn:Hs; [append_leaf|].
    destruct (FeatureAtomizerAgent.parseFeatures _) as [[|v batch]|] eqn:Hp;
      [append_leaf| |append_leaf].
    destruct (negb (length (filter (fun f => negb _) _) =? 0));
      [append_leaf|].
    destruct (negb (length (filter (FeatureAtomizerAgent.has_id _) _) =? 0));
      [append_leaf|].
    destruct (asFeatures (v :: batch)) as [added|]; [|append_leaf].
    unfold ContextBuilder.saveFeatureList. rewrite writeFile_eq.
    simpl env. rewrite Hw. append_leaf.
  - destruct (negb _ || _)%bool eqn:Hs; [append_leaf|].
    destruct (FeatureAtomizerAgent.parseFeatures _) as [[|v batch]|] eqn:Hp;
      [append_leaf| |append_leaf].
    destruct (negb (length (filter (fun f => negb _) _) =? 0));
      [append_leaf|].
    destruct (negb (length (filter (FeatureAtomizerAgent.has_id _) _) =? 0))
      eqn:Hd; [append_leaf|].
    destruct (asFeatures (v :: batch)) as [added|] eqn:Ha; [|append_leaf].
    unfold ContextBuilder.saveFeatureList. rewrite writeFile_eq.
    simpl env. rewrite Hw.
    eexists; eexists; split; [reflexivity|]. simpl.
    repeat (split; [reflexivity|]).
    exists (v :: batch), added.
    apply orb_false_elim in Hs. destruct Hs as [Hs _].
    apply negb_false_iff in Hs.
    split; [exact Hs|]. split; [reflexivity|]. split; [discriminate|].
    split.
    { intros x Hin Hx. apply has_id_spec in Hx.
      now rewrite (filter_empty _ _ Hd x Hin) in Hx. }
    repeat split; auto.
Qed.

(** Every way [addFeature] can end once the list is loaded. *)
Lemma add_outcome (options : FeatureAdderOptions.t) (w : World)
      (fl : FeatureList) :
  stores w fl ->
  let q := adder_request options fl w in
  let run := query q w in
  let result := AgentSdkClient.result_of run in
  exists w' r,
    FeatureAdderAgent.addFeature query options w = (w', Returned r)
    /\ env w' = after_env run
    /\ queries w' = queries w ++ [q]
    /\ progress_log (disk w') = progress_log (after_disk run)
    /\ match r with
       | Some r =>
           if FeatureAdderResult.success r then
             exists v added,
               AgentQueryResult.success result = true
               /\ FeatureAdderAgent.parseFeature
                    (AgentQueryResult.output result) = Some v
               /\ ~ id_exists fl v
               /\ asFeature v = Some added
               /\ write_error (after_env run) = None
               /\ FeatureAdderResult.feature r = Some added
               /\ feature_list_json (disk w')
                  = Holds (Encodes (with_added fl [added]))
           else
             feature_list_json (disk w') = feature_list_json (after_disk run)
       | None =>
           feature_list_json (disk w') = feature_list_json (after_disk run)
       end.
Proof.
  intros Hfl q run result.
  apply loaded_stores in Hfl.
  unfold FeatureAdderAgent.addFeature, try_catch, bind.
  rewrite loadFeatureList_eq, Hfl.
  unfold ContextBuilder.getProjectStructure, AgentSdkClient.runAgentQuery,
    CodingAgent.toISOString, bind, get_env, ret, lift_outcome.
  cbv beta iota. fold (adder_request options fl w). fold q. fold run.
  fold result.
  rewrite writeFile_eq. cbv beta iota. simpl env. simpl disk.
  destruct (write_error (after_env run)) as [why|] eqn:Hw; cbv beta iota.
  - destruct (negb _ || _)%bool eqn:Hs; [append_leaf|].
    destruct (FeatureAdderAgent.parseFeature _) as [v|] eqn:Hp.
    2:{ rewrite writeFile_eq. simpl env. rewrite Hw. append_leaf. }
    rewrite (parseFeature_valid _ _ Hp). cbv beta iota. cbn [negb].
    cbv iota.
    destruct (existsb (FeatureAdderAgent.same_id v) (features fl));
      [append_leaf|].
    destruct (asFeature v) as [added|]; [|append_leaf].
    unfold ContextBuilder.saveFeatureList. rewrite writeFile_eq.
    simpl env. rewrite Hw. append_leaf.
  - destruct (negb _ || _)%bool eqn:Hs; [append_leaf|].
    destruct (FeatureAdderAgent.parseFeature _) as [v|] eqn:Hp.
    2:{ rewrite writeFile_eq. simpl env. rewrite Hw. append_leaf. }
    rewrite (parseFeature_valid _ _ Hp). cbv beta iota. cbn [negb].
    cbv iota.
    destruct (existsb (FeatureAdderAgent.same_id v) (features fl)) eqn:Hd;
      [append_leaf|].
    destruct (asFeature v) as [added|] eqn:Ha; [|append_leaf].
    unfold ContextBuilder.saveFeatureList. rewrite writeFile_eq.
    simpl env. rewrite Hw.
    eexists; eexists; split; [reflexivity|]. simpl.
    repeat (split; [reflexivity|]).
    exists v, added.
    apply orb_false_elim in Hs. destruct Hs as [Hs _].
    apply negb_false_iff in Hs.
    split; [exact Hs|]. split; [reflexivity|].
    split.
    { intros Hx. apply same_id_spec in Hx. congruence. }
    repeat split; auto.
Qed.

(** Without a list that loads, neither agent does anything. *)
Lemma atomize_without_list (options : FeatureAtomizerOptions.t) (w : World) :
  loaded w = None ->
  FeatureAtomizerAgent.atomizeFeature query options w
  = (w, Returned (Some (FeatureAtomizerAgent.failure
       "Could not load feature_list.json. Is this a valid project?"))).
Proof.
  intros H. unfold FeatureAtomizerAgent.atomizeFeature, try_catch, bind.
  now rewrite loadFeatureList_eq, H.
Qed.

Lemma add_without_list (options : FeatureAdderOptions.t) (w : World) :
  loaded w = None ->
  FeatureAdderAgent.addFeature query options w
  = (w, Returned (Some (FeatureAdderAgent.failure
       "Could not load feature_list.json. Is this a valid project?"))).
Proof.
  intros H. unfold FeatureAdderAgent.addFeature, try_catch, bind.
  now rewrite loadFeatureList_eq, H.
Qed.

End AppendOutcomes.

(** X8.  [atomizeFeature] never throws.  When the task list does not
    load it returns a failure and does nothing else: the collaborator is
    not called and no file is written.  Otherwise it calls the
    collaborator exactly once, and unless it returns a success it leaves
    [feature_list.json] as the collaborator left it: whatever went
    wrong, a parse failure, an invalid record, a known identifier or a
    write that is refused, nothing of the batch is stored. *)
Theorem atomize_fails_without_writing
        (query : Collaborator) (options : FeatureAtomizerOptions.t)
        (w : World) :
  exists w' r,
    FeatureAtomizerAgent.atomizeFeature query options w = (w', Returned r)
    /\ match loaded w with
       | None =>
           w' = w
           /\ exists r0, r = Some r0 /\ FeatureAtomizerResult.success r0 = false
       | Some fl =>
           let q := atomizer_request options fl w in
           queries w' = queries w ++ [q]
           /\ forall r0,
                r = Some r0 -> FeatureAtomizerResult.success r0 = false ->
                feature_list_json (disk w')
                = feature_list_json (after_disk (query q w))
       end.
Proof.
  destruct (loaded w) as [fl|] eqn:Hfl.
  - apply loaded_stores in Hfl.
    destruct (atomize_outcome query options w fl Hfl)
      as (w' & r & Hrun & _ & Hq & _ & Hr).
    exists w', r. split; [exact Hrun|]. split; [exact Hq|].
    intros r0 -> Hr0. now rewrite Hr0 in Hr.
  - eexists; eexists. split; [now apply atomize_without_list|].
    split; [reflexivity|]. eexists. split; reflexivity.
Qed.

(** X9.  [addFeature] behaves in the same way: it never throws, does
    nothing at all when the task list does not load, and otherwise calls
    the collaborator once and, unless it returns a success, leaves
    [feature_list.json] as the collaborator left it. *)
Theorem add_fails_without_writing
        (query : Collaborator) (options : FeatureAdderOptions.t)
        (w : World) :
  exists w' r,
    FeatureAdderAgent.addFeature query options w = (w', Returned r)
    /\ match loaded w with
       | None =>
           w' = w
           /\ exists r0, r = Some r0 /\ FeatureAdderResult.success r0 = false
       | Some fl =>
           let q := adder_request options fl w in
           queries w' = queries w ++ [q]
           /\ forall r0,
                r = Some r0 -> FeatureAdderResult.success r0 = false ->
                feature_list_json (disk w')
                = feature_list_json (after_disk (query q w))
       end.
Proof.
  destruct (loaded w) as [fl|] eqn:Hfl.
  - apply loaded_stores in Hfl.
    destruct (add_outcome query options w fl Hfl)
      as (w' & r & Hrun & _ & Hq & _ & Hr).
    exists w', r. split; [exact Hrun|]. split; [exact Hq|].
    intros r0 -> Hr0. now rewrite Hr0 in Hr.
  - eexists; eexists. split; [now apply add_without_list|].
    split; [reflexivity|]. eexists. split; reflexivity.
Qed.

(** X10.  When [atomizeFeature] returns a success, the collaborator
    reported success, the batch extracted from its answer holds only
    well-formed tasks none of whose identifiers was in the list, and
    [feature_list.json] now holds the list that was read before the
    collaborator was called, followed by the tasks of the batch in
    their order: no stored task is removed, changed or moved, and what
    the collaborator itself may have written to the file during the
    call is overwritten. *)
Theorem atomize_success_appends_the_batch
        (query : Collaborator) (options : FeatureAtomizerOptions.t)
        (w w' : World) (fl : FeatureList) (r : FeatureAtomizerResult.t) :
  stores w fl ->
  FeatureAtomizerAgent.atomizeFeature query options w
  = (w', Returned (Some r)) ->
  FeatureAtomizerResult.success r = true ->
  let run := query (atomizer_request options fl w) w in
  exists batch added,
    AgentQueryResult.success (AgentSdkClient.result_of run) = true
    /\ FeatureAtomizerAgent.parseFeatures
         (AgentQueryResult.output (AgentSdkClient.result_of run))
       = Some batch
    /\ Forall well_formed_task batch
    /\ (forall v, In v batch -> ~ id_exists fl v)
    /\ asFeatures batch = Some added
    /\ FeatureAtomizerResult.features r = Some added
    /\ stores w' (with_added fl added).
Proof.
  intros Hfl Hrun Hr run.
  destruct (atomize_outcome query options w fl Hfl)
    as (w1 & r1 & Hrun1 & _ & _ & _ & Hcase).
  rewrite Hrun in Hrun1. injection Hrun1 as <- <-.
  rewrite Hr in Hcase.
  destruct Hcase as (batch & added & Hs & Hp & _ & Hfresh & Ha & _ & Hf & Hd).
  exists batch, added. split; [exact Hs|]. split; [exact Hp|].
  split; [now apply parseFeatures_sound with (1 := Hp)|].
  repeat split; auto.
Qed.

Lemma atomize_success_appends_the_batch_witness :
  let w := Scenario.world_of [Scenario.todo "F000"] in
  let res :=
    FeatureAtomizerAgent.atomizeFeature
      (Scenario.answers Samples.array_of_two) Scenario.atomize w in
  exists batch added,
    AgentQueryResult.success
      (AgentSdkClient.result_of
         (Scenario.answers Samples.array_of_two
            (atomizer_request Scenario.atomize
               (Scenario.list_of [Scenario.todo "F000"]) w) w)) = true
    /\ FeatureAtomizerAgent.parseFeatures
         (AgentQueryResult.output
            (AgentSdkClient.result_of
               (Scenario.answers Samples.array_of_two
                  (atomizer_request Scenario.atomize
                     (Scenario.list_of [Scenario.todo "F000"]) w) w)))
       = Some batch
    /\ Forall well_formed_task batch
    /\ (forall v, In v batch ->
                  ~ id_exists (Scenario.list_of [Scenario.todo "F000"]) v)
    /\ asFeatures batch = Some added
    /\ Some [Samples.task; Samples.braces_task] = Some added
    /\ stores (fst res)
         (with_added (Scenario.list_of [Scenario.todo "F000"]) added).
Proof.
  intros w res.
  apply (atomize_success_appends_the_batch
           (Scenario.answers Samples.array_of_two) Scenario.atomize
           w (fst res) (Scenario.list_of [Scenario.todo "F000"])
           {| FeatureAtomizerResult.success := true;
              FeatureAtomizerResult.features :=
                Some [Samples.task; Samples.braces_task];
              FeatureAtomizerResult.error := None |}).
  - reflexivity.
  - vm_compute. reflexivity.
  - reflexivity.
Defined.

(** X11.  When [addFeature] returns a success, the collaborator
    reported success, the record extracted from its answer is a
    well-formed task whose identifier was not in the list, and
    [feature_list.json] now holds the list that was read before the
    call followed by that one task. *)
Theorem add_success_appends_the_task
        (query : Collaborator) (options : FeatureAdderOptions.t)
        (w w' : World) (fl : FeatureList) (r : FeatureAdderResult.t) :
  stores w fl ->
  FeatureAdderAgent.addFeature query options w = (w', Returned (Some r)) ->
  FeatureAdderResult.success r = true ->
  let run := query (adder_request options fl w) w in
  exists v added,
    AgentQueryResult.success (AgentSdkClient.result_of run) = true
    /\ FeatureAdderAgent.parseFeature
         (AgentQueryResult.output (AgentSdkClient.result_of run))
       = Some v
    /\ well_formed_task v
    /\ ~ id_exists fl v
    /\ asFeature v = Some added
    /\ FeatureAdderResult.feature r = Some added
    /\ stores w' (with_added fl [added]).
Proof.
  intros Hfl Hrun Hr run.
  destruct (add_outcome query options w fl Hfl)
    as (w1 & r1 & Hrun1 & _ & _ & _ & Hcase).
  rewrite Hrun in Hrun1. injection Hrun1 as <- <-.
  rewrite Hr in Hcase.
  destruct Hcase as (v & added & Hs & Hp & Hfresh & Ha & _ & Hf & Hd).
  exists v, added. split; [exact Hs|]. split; [exact Hp|].
  split; [now apply parseFeature_sound with (1 := Hp)|].
  repeat split; auto.
Qed.

Lemma add_success_appends_the_task_witness :
  let w := Scenario.world_of [Scenario.todo "F000"] in
  let res :=
    FeatureAdderAgent.addFeature
      (Scenario.answers Samples.fenced) Scenario.add w in
  exists v added,
    AgentQueryResult.success
      (AgentSdkClient.result_of
         (Scenario.answers Samples.fenced
            (adder_request Scenario.add
               (Scenario.list_of [Scenario.todo "F000"]) w) w)) = true
    /\ FeatureAdderAgent.parseFeature
         (AgentQueryResult.output
            (AgentSdkClient.result_of
               (Scenario.answers Samples.fenced
                  (adder_request Scenario.add
                     (Scenario.list_of [Scenario.todo "F000"]) w) w)))
       = Some v
    /\ well_formed_task v
    /\ ~ id_exists (Scenario.list_of [Scenario.todo "F000"]) v
    /\ asFeature v = Some added
    /\ Some Samples.task = Some added
    /\ stores (fst res)
         (with_added (Scenario.list_of [Scenario.todo "F000"]) [added]).
Proof.
  intros w res.
  apply (add_success_appends_the_task
           (Scenario.answers Samples.fenced) Scenario.add
           w (fst res) (Scenario.list_of [Scenario.todo "F000"])
           {| FeatureAdderResult.success := true;
              FeatureAdderResult.feature := Some Samples.task;
              FeatureAdderResult.error := None |}).
  - reflexivity.
  - vm_compute. reflexivity.
  - reflexivity.
Defined.

Section AppendAccepted.
Variable query : Collaborator.

Lemma filter_none {A} (p : A -> bool) (l : list A) :
  (forall x, In x l -> p x = false) -> filter p l = [].
Proof.
  induction l as [|x l IH]; intros H; simpl; [reflexivity|].
  rewrite (H x) by (left; reflexivity).
  apply IH. intros y Hy. apply H. now right.
Qed.

Lemma parseFeatures_empty : FeatureAtomizerAgent.parseFeatures "" = None.
Proof. vm_compute. reflexivity. Qed.

(** The conditions under which [atomizeFeature] stores a batch. *)
Lemma atomize_accepts (options : FeatureAtomizerOptions.t) (w : World)
      (fl : FeatureList) (batch : list json) (added : list Feature) :
  stores w fl ->
  let run := query (atomizer_request options fl w) w in
  AgentQueryResult.success (AgentSdkClient.result_of run) = true ->
  FeatureAtomizerAgent.parseFeatures
    (AgentQueryResult.output (AgentSdkClient.result_of run)) = Some batch ->
  batch <> [] ->
  (forall v, In v batch -> ~ id_exists fl v) ->
  asFeatures batch = Some added ->
  write_error (after_env run) = None ->
  exists w',
    FeatureAtomizerAgent.atomizeFeature query options w
    = (w', Returned (Some
         {| FeatureAtomizerResult.success := true;
            FeatureAtomizerResult.features := Some added;
            FeatureAtomizerResult.error := None |}))
    /\ stores w' (with_added fl added).
Proof.
  intros Hfl run Hs Hp Hne Hfresh Ha Hw.
  apply loaded_stores in Hfl.
  unfold FeatureAtomizerAgent.atomizeFeature, try_catch, bind.
  rewrite loadFeatureList_eq, Hfl.
  unfold ContextBuilder.getProjectStructure, AgentSdkClient.runAgentQuery,
    CodingAgent.toISOString, bind, get_env, ret.
  cbv beta iota. fold (atomizer_request options fl w). fold run.
  rewrite writeFile_eq. cbv beta iota. simpl env. simpl disk.
  rewrite Hw. cbv beta iota. rewrite Hs. cbn [negb orb].
  destruct (String.eqb _ "") eqn:Eo.
  { apply String.eqb_eq in Eo. rewrite Eo, parseFeatures_empty in Hp.
    discriminate Hp. }
  rewrite Hp. destruct batch as [|v batch']; [contradiction|].
  rewrite (filter_none (fun f => negb (FeatureAtomizerAgent.validateFeature f))).
  2:{ intros x Hx. apply negb_false_iff.
      pose proof (parseFeatures_valid _ _ Hp) as Hv.
      rewrite forallb_forall in Hv. now apply Hv. }
  rewrite (filter_none (FeatureAtomizerAgent.has_id (features fl))).
  2:{ intros x Hx.
      destruct (FeatureAtomizerAgent.has_id (features fl) x) eqn:E;
        [|reflexivity].
      apply has_id_spec in E. now destruct (Hfresh x Hx). }
  cbn [length Nat.eqb negb]. rewrite Ha.
  unfold ContextBuilder.saveFeatureList. rewrite writeFile_eq.
  simpl env. rewrite Hw.
  eexists. split; reflexivity.
Qed.

End AppendAccepted.

(** X12.  [atomizeFeature] compares the identifiers of a batch with
    those of the stored list and not with each other.  Whenever the
    collaborator reports success, its answer yields a non-empty batch
    of records with the declared types, none of their identifiers is in
    the list and the write is accepted, the batch is stored; if two of
    its records share an identifier, so do two tasks of the stored list
    afterwards. *)
Theorem atomize_stores_a_batch_that_repeats_an_identifier
        (query : Collaborator) (options : FeatureAtomizerOptions.t)
        (w : World) (fl : FeatureList) (batch : list json)
        (added : list Feature) :
  stores w fl ->
  let run := query (atomizer_request options fl w) w in
  AgentQueryResult.success (AgentSdkClient.result_of run) = true ->
  FeatureAtomizerAgent.parseFeatures
    (AgentQueryResult.output (AgentSdkClient.result_of run)) = Some batch ->
  batch <> [] ->
  (forall v, In v batch -> ~ id_exists fl v) ->
  asFeatures batch = Some added ->
  write_error (after_env run) = None ->
  exists w' r,
    FeatureAtomizerAgent.atomizeFeature query options w
    = (w', Returned (Some r))
    /\ FeatureAtomizerResult.success r = true
    /\ FeatureAtomizerResult.features r = Some added
    /\ stores w' (with_added fl added)
    /\ (~ NoDup (map id added) ->
        ~ NoDup (map id (features (with_added fl added)))).
Proof.
  intros Hfl run Hs Hp Hne Hfresh Ha Hw.
  destruct (atomize_accepts query options w fl batch added Hfl Hs Hp Hne
              Hfresh Ha Hw) as (w' & Hrun & Hst).
  eexists; eexists. split; [exact Hrun|].
  split; [reflexivity|]. split; [reflexivity|]. split; [exact Hst|].
  intros Hdup Hnd. apply Hdup. simpl in Hnd. rewrite map_app in Hnd.
  now apply NoDup_app_remove_l in Hnd.
Qed.

(** The collaborator answers with an array that holds the task F001
    twice: both copies are stored. *)
Lemma atomize_stores_a_batch_that_repeats_an_identifier_witness :
  let w := Scenario.world_of [Scenario.todo "F000"] in
  let fl := Scenario.list_of [Scenario.todo "F000"] in
  let answer := ("[" ++ Samples.raw ++ "," ++ Samples.raw ++ "]")%string in
  exists w' r,
    FeatureAtomizerAgent.atomizeFeature (Scenario.answers answer)
      Scenario.atomize w
    = (w', Returned (Some r))
    /\ FeatureAtomizerResult.success r = true
    /\ FeatureAtomizerResult.features r = Some [Samples.task; Samples.task]
    /\ stores w' (with_added fl [Samples.task; Samples.task])
    /\ (~ NoDup (map id [Samples.task; Samples.task]) ->
        ~ NoDup (map id (features
                           (with_added fl [Samples.task; Samples.task])))).
Proof.
  intros w fl answer.
  assert (Hparse :
            FeatureAtomizerAgent.parseFeatures answer
            = Some [JObject [("id", JString "F001");
                             ("title", JString "Login form");
                             ("description", JString "Add a login form");
                             ("acceptance_criteria",
                              JArray [JString "User can log in"]);
                             ("passes", JBool false)];
                    JObject [("id", JString "F001");
                             ("title", JString "Login form");
                             ("description", JString "Add a login form");
                             ("acceptance_criteria",
                              JArray [JString "User can log in"]);
                             ("passes", JBool false)]]).
  { vm_compute. reflexivity. }
  match type of Hparse with
  | _ = Some ?batch =>
      apply (atomize_stores_a_batch_that_repeats_an_identifier
               (Scenario.answers answer) Scenario.atomize w fl batch
               [Samples.task; Samples.task])
  end.
  - reflexivity.
  - reflexivity.
  - exact Hparse.
  - discriminate.
  - intros v Hv (s & f & Hid & Hin & Hf).
    destruct Hin as [<-|[]]. simpl in Hf. subst s.
    destruct Hv as [<-|[<-|[]]]; discriminate Hid.
  - reflexivity.
  - reflexivity.
Defined.

Section DebugFiles.
Variable query : Collaborator.

Ltac debug_leaf :=
  eexists; eexists; split; [reflexivity|]; simpl; split; reflexivity.

Lemma atomize_debug_file (options : FeatureAtomizerOptions.t) (w : World)
      (fl : FeatureList) :
  stores w fl ->
  let run := query (atomizer_request options fl w) w in
  let result := AgentSdkClient.result_of run in
  exists w' r,
    FeatureAtomizerAgent.atomizeFeature query options w = (w', Returned r)
    /\ harness_atomizer_debug (disk w')
       = match write_error (after_env run) with
         | None =>
             Holds (FeatureAtomizerAgent.debugContent
                      (now (after_env run)) result)
         | Some _ => harness_atomizer_debug (after_disk run)
         end
    /\ harness_debug_output (disk w') = harness_debug_output (after_disk run).
Proof.
  intros Hfl run result.
  apply loaded_stores in Hfl.
  unfold FeatureAtomizerAgent.atomizeFeature, try_catch, bind.
  rewrite loadFeatureList_eq, Hfl.
  unfold ContextBuilder.getProjectStructure, AgentSdkClient.runAgentQuery,
    CodingAgent.toISOString, bind, get_env, ret.
  cbv beta iota. fold (atomizer_request options fl w). fold run.
  fold result.
  rewrite writeFile_eq. cbv beta iota. simpl env. simpl disk.
  destruct (write_error (after_env run)) as [why|] eqn:Hw; cbv beta iota;
    (destruct (negb _ || _)%bool; [debug_leaf|]);
    (destruct (FeatureAtomizerAgent.parseFeatures _) as [[|v batch]|];
     [debug_leaf| |debug_leaf]);
    (destruct (negb (length (filter (fun f => negb _) _) =? 0));
     [debug_leaf|]);
    (destruct (negb (length (filter (FeatureAtomizerAgent.has_id _) _) =? 0));
     [debug_leaf|]);
    (destruct (asFeatures (v :: batch)) as [added|]; [|debug_leaf]);
    unfold ContextBuilder.saveFeatureList; rewrite writeFile_eq;
    simpl env; rewrite Hw; debug_leaf.
Qed.

Lemma add_debug_file (options : FeatureAdderOptions.t) (w : World)
      (fl : FeatureList) :
  stores w fl ->
  let run := query (adder_request options fl w) w in
  let result := AgentSdkClient.result_of run in
  let output := AgentQueryResult.output result in
  exists w' r,
    FeatureAdderAgent.addFeature query options w = (w', Returned r)
    /\ harness_debug_output (disk w')
       = match write_error (after_env run) with
         | None =>
             if AgentQueryResult.success result
                && negb (String.eqb output "")
                && match FeatureAdderAgent.parseFeature output with
                   | None => true
                   | Some _ => false
                   end
             then Holds (FeatureAdderAgent.debugContentUnparsed
                           (now (after_env run)) output)
             else Holds (FeatureAdderAgent.debugContent
                           (now (after_env run)) result)
         | Some _ => harness_debug_output (after_disk run)
         end
    /\ harness_atomizer_debug (disk w')
       = harness_atomizer_debug (after_disk run).
Proof.
  intros Hfl run result output.
  apply loaded_stores in Hfl.
  unfold FeatureAdderAgent.addFeature, try_catch, bind.
  rewrite loadFeatureList_eq, Hfl.
  unfold ContextBuilder.getProjectStructure, AgentSdkClient.runAgentQuery,
    CodingAgent.toISOString, bind, get_env, ret, lift_outcome.
  cbv beta iota. fold (adder_request options fl w). fold run.
  fold result. fold output.
  rewrite writeFile_eq. cbv beta iota. simpl env. simpl disk.
  destruct (write_error (after_env run)) as [why|] eqn:Hw; cbv beta iota;
    (destruct (AgentQueryResult.success result); cbn [negb orb andb];
     [|debug_leaf]);
    (destruct (String.eqb output ""); cbn [negb andb]; [debug_leaf|]);
    (destruct (FeatureAdderAgent.parseFeature output) as [v|] eqn:Hp;
     [|rewrite writeFile_eq; simpl env; rewrite Hw; debug_leaf]);
    rewrite (parseFeature_valid _ _ Hp); cbv beta iota; cbn [negb];
    cbv iota;
    (destruct (existsb (FeatureAdderAgent.same_id v) (features fl));
     [debug_leaf|]);
    (destruct (asFeature v) as [added|]; [|debug_leaf]);
    unfold ContextBuilder.saveFeatureList; rewrite writeFile_eq;
    simpl env; rewrite Hw; debug_leaf.
Qed.

End DebugFiles.

(** X27.  Whenever an agent calls the collaborator and the file system
    accepts writes, its debug file afterwards holds a report of that
    call, on the paths that end in a success as on the others:
    [.harness-atomizer-debug.txt] the full report (time, success flag,
    error, length and text of the output) of the atomizer, and
    [.harness-debug-output.txt] that of the adder, except that when the
    adder cannot parse a successful, non-empty answer it replaces the
    report by the bare output.  Neither agent touches the other's file,
    and a refused write of the report is ignored. *)
Theorem debug_file_holds_the_report_of_the_call
        (query : Collaborator) (w : World) (fl : FeatureList) :
  stores w fl ->
  (forall options,
      let run := query (atomizer_request options fl w) w in
      let result := AgentSdkClient.result_of run in
      exists w' r,
        FeatureAtomizerAgent.atomizeFeature query options w
        = (w', Returned r)
        /\ harness_atomizer_debug (disk w')
           = match write_error (after_env run) with
             | None =>
                 Holds (FeatureAtomizerAgent.debugContent
                          (now (after_env run)) result)
             | Some _ => harness_atomizer_debug (after_disk run)
             end
        /\ harness_debug_output (disk w')
           = harness_debug_output (after_disk run))
  /\ (forall options,
         let run := query (adder_request options fl w) w in
         let result := AgentSdkClient.result_of run in
         let output := AgentQueryResult.output result in
         exists w' r,
           FeatureAdderAgent.addFeature query options w = (w', Returned r)
           /\ harness_debug_output (disk w')
              = match write_error (after_env run) with
                | None =>
                    if AgentQueryResult.success result
                       && negb (String.eqb output "")
                       && match FeatureAdderAgent.parseFeature output with
                          | None => true
                          | Some _ => false
                          end
                    then Holds (FeatureAdderAgent.debugContentUnparsed
                                  (now (after_env run)) output)
                    else Holds (FeatureAdderAgent.debugContent
                                  (now (after_env run)) result)
                | Some _ => harness_debug_output (after_disk run)
                end
           /\ harness_atomizer_debug (disk w')
              = harness_atomizer_debug (after_disk run)).
Proof.
  intros Hfl. split; intros options.
  - now apply atomize_debug_file.
  - now apply add_debug_file.
Qed.

Lemma debug_file_holds_the_report_of_the_call_witness :
  exists w' r,
    FeatureAdderAgent.addFeature (Scenario.answers "no JSON here")
      Scenario.add Scenario.two_tasks
    = (w', Returned r)
    /\ harness_debug_output (disk w')
       = Holds (FeatureAdderAgent.debugContentUnparsed
                  "2025-01-01T00:00:00.000Z" "no JSON here")
    /\ harness_atomizer_debug (disk w') = Missing.
Proof.
  apply (proj2 (debug_file_holds_the_report_of_the_call
                  (Scenario.answers "no JSON here") Scenario.two_tasks
                  (Scenario.list_of [Scenario.todo "F001";
                                     Scenario.todo "F002"])
                  eq_refl) Scenario.add).
Defined.

(* ===================================================================== *)
(** * Further properties: the progress statistics *)
(* ===================================================================== *)

Section CountFacts.

Lemma filter_split_length (fs : list Feature) :
  length (filter passes fs) + length (filter ContextBuilder.pending fs)
  = length fs.
Proof.
  induction fs as [|f fs IH]; simpl; [reflexivity|].
  unfold ContextBuilder.pending at 1. destruct (passes f); simpl; lia.
Qed.

Lemma find_none_filter {A} (p : A -> bool) (l : list A) :
  find p l = None <-> length (filter p l) = 0.
Proof.
  induction l as [|x l IH]; simpl; [tauto|].
  destruct (p x); simpl; [split; discriminate|exact IH].
Qed.

End CountFacts.

(** X13.  On a workspace whose [feature_list.json] holds a task list,
    [getProgressStats] returns and changes nothing: [total] is the
    number of tasks, [completed] the number of those whose flag is set
    and [pending] the number of the others; the two add up to [total],
    the percentage of an empty list is [0], and [pending] is [0] exactly
    when [getNextFeature] finds no task.  When the file is missing,
    cannot be read or is not JSON, it returns with every count at zero.
    A file that holds JSON of another shape is no world of this model
    and is outside the statement: the program casts what it parsed
    without a check, and reads the length of a member that such a value
    need not have. *)
Theorem progress_stats_count_the_list
        (round_percent : nat -> nat -> nat) (w : World) :
  (forall fl,
      stores w fl ->
      exists stats,
        Statistics.getProgressStats round_percent w = (w, Returned stats)
        /\ ProgressStats.total stats = length (features fl)
        /\ ProgressStats.completed stats
           = length (filter passes (features fl))
        /\ ProgressStats.pending stats
           = length (filter ContextBuilder.pending (features fl))
        /\ ProgressStats.completed stats + ProgressStats.pending stats
           = ProgressStats.total stats
        /\ (ProgressStats.total stats = 0 ->
            ProgressStats.percentage stats = 0)
        /\ (ProgressStats.pending stats = 0
            <-> ContextBuilder.getNextFeature w = (w, Returned None)))
  /\ (feature_list_json (disk w) = Missing
      \/ (exists why, feature_list_json (disk w) = Unreadable why)
      \/ (exists why, feature_list_json (disk w) = Holds (Malformed why)) ->
      Statistics.getProgressStats round_percent w
      = (w, Returned {| ProgressStats.total := 0;
                        ProgressStats.completed := 0;
                        ProgressStats.pending := 0;
                        ProgressStats.percentage := 0 |})).
Proof.
  unfold Statistics.getProgressStats, bind. rewrite loadFeatureList_eq.
  rewrite getNextFeature_eq. split.
  - intros fl Hfl. apply loaded_stores in Hfl. rewrite Hfl.
    eexists. split; [reflexivity|].
    simpl. pose proof (filter_split_length (features fl)) as Hsum.
    split; [reflexivity|]. split; [reflexivity|].
    split; [lia|]. split; [lia|].
    split.
    { intros H0. unfold Statistics.percentage_of. now rewrite H0. }
    replace (length (features fl) - length (filter passes (features fl)))
      with (length (filter ContextBuilder.pending (features fl))) by lia.
    rewrite <- find_none_filter. split.
    + now intros ->.
    + intros H. now injection H.
  - unfold loaded. intros [H|[[why H]|[why H]]]; now rewrite H.
Qed.

Lemma progress_stats_count_the_list_witness :
  (exists stats,
      Statistics.getProgressStats (fun _ _ => 0) Scenario.two_tasks
      = (Scenario.two_tasks, Returned stats)
      /\ ProgressStats.total stats = 2
      /\ ProgressStats.completed stats = 0
      /\ ProgressStats.pending stats = 2)
  /\ Statistics.getProgressStats (fun _ _ => 0) Scenario.corrupt
     = (Scenario.corrupt,
        Returned {| ProgressStats.total := 0;
                    ProgressStats.completed := 0;
                    ProgressStats.pending := 0;
                    ProgressStats.percentage := 0 |}).
Proof.
  split.
  - destruct (proj1 (progress_stats_count_the_list
                       (fun _ _ => 0) Scenario.two_tasks)
                _ eq_refl)
      as (stats & Hrun & Ht & Hc & Hp & _).
    exists stats. repeat split; assumption.
  - apply (proj2 (progress_stats_count_the_list
                    (fun _ _ => 0) Scenario.corrupt)).
    right. right. eexists. reflexivity.
Defined.

Section BreakdownFacts.

Lemma sum_count_in (ty : string) (done : bool)
      (table : list (string * TypeCount.t)) :
  sum_completed (Statistics.count_in ty done table)
  = sum_completed table + (if done then 1 else 0)
  /\ sum_pending (Statistics.count_in ty done table)
     = sum_pending table + (if done then 0 else 1).
Proof.
  unfold sum_completed, sum_pending.
  induction table as [|[k c] table [IHc IHp]]; simpl.
  - destruct done; simpl; split; reflexivity.
  - destruct (String.eqb k ty); simpl.
    + destruct done; simpl; split; lia.
    + rewrite IHc, IHp. split; lia.
Qed.

Lemma sum_breakdown (fs : list Feature) :
  forall table,
    sum_completed
      (fold_left
         (fun byType f =>
            Statistics.count_in (Statistics.type_or_feature f) (passes f)
              byType) fs table)
    = sum_completed table + length (filter passes fs)
    /\ sum_pending
         (fold_left
            (fun byType f =>
               Statistics.count_in (Statistics.type_or_feature f) (passes f)
                 byType) fs table)
       = sum_pending table + length (filter ContextBuilder.pending fs).
Proof.
  induction fs as [|f fs IH]; intros table; simpl; [split; lia|].
  destruct (IH (Statistics.count_in (Statistics.type_or_feature f)
                  (passes f) table)) as [-> ->].
  destruct (sum_count_in (Statistics.type_or_feature f) (passes f) table)
    as [-> ->].
  unfold ContextBuilder.pending at 2. destruct (passes f); simpl; split; lia.
Qed.

Lemma keys_count_in (ty : string) (done : bool)
      (table : list (string * TypeCount.t)) (k : string) :
  In k (map fst (Statistics.count_in ty done table))
  <-> k = ty \/ In k (map fst table).
Proof.
  induction table as [|[k1 c1] table IH]; simpl.
  - intuition.
  - destruct (String.eqb k1 ty) eqn:E; simpl.
    + apply String.eqb_eq in E. subst k1. intuition.
    + rewrite IH. intuition.
Qed.

Lemma nodup_count_in (ty : string) (done : bool)
      (table : list (string * TypeCount.t)) :
  NoDup (map fst table) ->
  NoDup (map fst (Statistics.count_in ty done table)).
Proof.
  induction table as [|[k1 c1] table IH]; simpl; intros H.
  - constructor; [intros []|constructor].
  - inversion H as [|? ? Hn Hd]; subst.
    destruct (String.eqb k1 ty) eqn:E; simpl.
    + constructor; assumption.
    + constructor; [|now apply IH].
      rewrite keys_count_in. intros [->|Hin]; [|contradiction].
      now rewrite String.eqb_refl in E.
Qed.

Lemma in_count_in (ty0 : string) (done : bool)
      (table : list (string * TypeCount.t)) (ty : string) (c : TypeCount.t) :
  NoDup (map fst table) ->
  In (ty, c) (Statistics.count_in ty0 done table) ->
  (ty <> ty0 /\ In (ty, c) table)
  \/ (ty = ty0
      /\ ((exists c0, In (ty0, c0) table /\ c = Statistics.count_one done c0)
          \/ (~ In ty0 (map fst table)
              /\ c = Statistics.count_one done no_counts))).
Proof.
  induction table as [|[k1 c1] table IH]; simpl; intros Hnd Hin.
  - destruct Hin as [Hin|[]]. injection Hin as <- <-.
    right. split; [reflexivity|]. right. split; [tauto|reflexivity].
  - inversion Hnd as [|? ? Hn Hd]; subst.
    destruct (String.eqb k1 ty0) eqn:E.
    + apply String.eqb_eq in E. subst k1.
      destruct Hin as [Hin|Hin].
      * injection Hin as <- <-. right. split; [reflexivity|].
        left. exists c1. split; [now left|reflexivity].
      * left. split; [|now right].
        intros ->. apply Hn. now apply (in_map fst) in Hin.
    + apply String.eqb_neq in E.
      destruct Hin as [Hin|Hin].
      * injection Hin as <- <-. left. split; [exact E|now left].
      * destruct (IH Hd Hin) as [[Hne H]|[-> [(c0 & H & ->)|[H ->]]]].
        -- left. split; [exact Hne|now right].
        -- right. split; [reflexivity|]. left. exists c0.
           split; [now right|reflexivity].
        -- right. split; [reflexivity|]. right.
           split; [|reflexivity]. intros [H1|H1]; [now apply E|now apply H].
Qed.

Lemma counts_of_snoc (ty : string) (fs : list Feature) (f : Feature) :
  counts_of ty (fs ++ [f])
  = if String.eqb (Statistics.type_or_feature f) ty
    then Statistics.count_one (passes f) (counts_of ty fs)
    else counts_of ty fs.
Proof.
  unfold counts_of. rewrite !filter_app, !length_app. simpl.
  unfold of_category at 2 4.
  destruct (String.eqb (Statistics.type_or_feature f) ty); simpl.
  - destruct (passes f); simpl; f_equal; lia.
  - f_equal; lia.
Qed.

Lemma counts_of_absent (ty : string) (fs : list Feature) :
  (forall f, In f fs -> Statistics.type_or_feature f <> ty) ->
  counts_of ty fs = no_counts.
Proof.
  intros H. unfold counts_of.
  rewrite !filter_none; [reflexivity| |];
    intros f Hf; unfold of_category;
    pose proof (H f Hf) as Hne; apply String.eqb_neq in Hne;
    now rewrite Hne.
Qed.

(** What the table holds after the features [seen]. *)
Lemma breakdown_invariant (fs : list Feature) :
  forall (table : list (string * TypeCount.t)) (seen : list Feature),
    NoDup (map fst table) ->
    (forall ty, In ty (map fst table)
                <-> exists f, In f seen /\ Statistics.type_or_feature f = ty) ->
    (forall ty c, In (ty, c) table -> c = counts_of ty seen) ->
    let final :=
      fold_left
        (fun byType f =>
           Statistics.count_in (Statistics.type_or_feature f) (passes f)
             byType) fs table in
    NoDup (map fst final)
    /\ (forall ty, In ty (map fst final)
                   <-> exists f, In f (seen ++ fs)
                                 /\ Statistics.type_or_feature f = ty)
    /\ (forall ty c, In (ty, c) final -> c = counts_of ty (seen ++ fs)).
Proof.
  induction fs as [|f fs IH]; intros table seen Hnd Hkeys Hcounts; simpl.
  - rewrite app_nil_r. auto.
  - replace (seen ++ f :: fs) with ((seen ++ [f]) ++ fs)
      by now rewrite <- app_assoc.
    apply IH.
    + now apply nodup_count_in.
    + intros ty. rewrite keys_count_in, Hkeys. split.
      * intros [->|(g & Hg & Hty)].
        -- exists f. split; [apply in_or_app; right; now left|reflexivity].
        -- exists g. split; [apply in_or_app; now left|exact Hty].
      * intros (g & Hg & Hty). apply in_app_or in Hg.
        destruct Hg as [Hg|[<-|[]]]; [right; eauto|left; now symmetry].
    + intros ty c Hin. rewrite counts_of_snoc.
      destruct (in_count_in _ _ _ _ _ Hnd Hin)
        as [[Hne H]|[-> [(c0 & H & ->)|[H ->]]]].
      * apply not_eq_sym, String.eqb_neq in Hne. rewrite Hne.
        now apply Hcounts.
      * rewrite String.eqb_refl. f_equal. now apply Hcounts.
      * rewrite String.eqb_refl. f_equal. symmetry.
        apply counts_of_absent. intros g Hg Hty. apply H, Hkeys. eauto.
Qed.

End BreakdownFacts.

(** X14.  The breakdown of [getProgressStatsByType] adds up: the
    [completed] counts of its entries sum to [completed] and the
    [pending] counts to [pending].  It has one entry for each category
    that occurs in the list, a task without a [type] counting as a
    [feature], and none for the others, and the entry of a category
    counts the completed and the pending tasks of that category.  When
    the task list does not load, the breakdown is empty and every count
    is no_counts. *)
Theorem breakdown_by_type_adds_up
        (round_percent : nat -> nat -> nat) (w : World) :
  exists stats,
    Statistics.getProgressStatsByType round_percent w = (w, Returned stats)
    /\ sum_completed (ProgressStatsByType.byType stats)
       = ProgressStatsByType.completed stats
    /\ sum_pending (ProgressStatsByType.byType stats)
       = ProgressStatsByType.pending stats
    /\ NoDup (map fst (ProgressStatsByType.byType stats))
    /\ match loaded w with
       | None =>
           ProgressStatsByType.byType stats = []
           /\ ProgressStatsByType.total stats = 0
       | Some fl =>
           ProgressStatsByType.total stats = length (features fl)
           /\ (forall ty,
                  In ty (map fst (ProgressStatsByType.byType stats))
                  <-> exists f, In f (features fl)
                                /\ Statistics.type_or_feature f = ty)
           /\ (forall ty c,
                  In (ty, c) (ProgressStatsByType.byType stats) ->
                  c = counts_of ty (features fl))
       end.
Proof.
  unfold Statistics.getProgressStatsByType, bind. rewrite loadFeatureList_eq.
  destruct (loaded w) as [fl|]; eexists; (split; [reflexivity|]); simpl.
  2:{ repeat split; try reflexivity. constructor. }
  destruct (sum_breakdown (features fl) []) as [Hc Hp].
  destruct (breakdown_invariant (features fl) [] []) as (Hnd & Hkeys & Hcounts).
  { constructor. }
  { intros ty. simpl. split; [intros []|intros (f & [] & _)]. }
  { intros ty c []. }
  pose proof (filter_split_length (features fl)) as Hsum.
  unfold Statistics.breakdown.
  split; [exact Hc|]. split; [rewrite Hp; simpl; lia|].
  split; [exact Hnd|]. split; [reflexivity|].
  split; [exact Hkeys|exact Hcounts].
Qed.

(* ===================================================================== *)
(** * Further properties: the [reset] and [run] commands *)
(* ===================================================================== *)

Section ResetFacts.

Lemma toLowerCase_char_y (c : ascii) :
  Commands.toLowerCase_char c = "y"%char -> c = "y"%char \/ c = "Y"%char.
Proof.
  destruct c as [[|] [|] [|] [|] [|] [|] [|] [|]]; cbv; intros H;
    try discriminate H; auto.
Qed.

Lemma toLowerCase_y (answer : string) :
  Commands.toLowerCase answer = "y" <-> confirms answer.
Proof.
  unfold confirms. split.
  - destruct answer as [|c [|c2 rest]]; try discriminate.
    unfold Commands.toLowerCase. simpl. intros H. injection H as H.
    assert (Hc : Commands.toLowerCase_char c = "y"%char).
    { destruct (Commands.toLowerCase_char c) as [b0 b1 b2 b3 b4 b5 b6 b7].
      now subst. }
    destruct (toLowerCase_char_y c Hc) as [->| ->]; auto.
  - intros [->| ->]; reflexivity.
Qed.

Lemma reset_eq (answer : string) (w : World) :
  Commands.reset answer w
  = match loaded w with
    | None => (w, Returned (Commands.ResetExit 1))
    | Some fl =>
        if String.eqb (Commands.toLowerCase answer) "y" then
          match write_error (env w) with
          | Some why => (w, Thrown why)
          | None =>
              (with_disk w
                 (put_feature_list_json (Holds (Encodes (reset_list fl)))
                    (disk w)),
               Returned Commands.ResetDone)
          end
        else (w, Returned (Commands.ResetExit 0))
    end.
Proof.
  unfold Commands.reset, bind. rewrite loadFeatureList_eq.
  destruct (loaded w) as [fl|]; [|reflexivity].
  destruct (String.eqb (Commands.toLowerCase answer) "y"); [|reflexivity].
  cbn [negb]. cbv iota. unfold ContextBuilder.saveFeatureList.
  rewrite writeFile_eq. destruct (write_error (env w)); reflexivity.
Qed.

Lemma find_pending_unset (fs : list Feature) :
  find ContextBuilder.pending (map Commands.unset_passes fs)
  = hd_error (map Commands.unset_passes fs).
Proof. destruct fs; reflexivity. Qed.

Lemma filter_passes_unset (fs : list Feature) :
  filter passes (map Commands.unset_passes fs) = [].
Proof. induction fs as [|f fs IH]; simpl; [reflexivity|exact IH]. Qed.

End ResetFacts.

(** X15.  A confirmed [reset] (the answer is [y] or [Y]) of a task list
    that loads, when the write is accepted, stores the same list with
    every completion flag cleared: the tasks keep their order,
    identifiers and all other fields, and nothing else of the workspace
    changes.  Afterwards [getNextFeature] returns the first task of the
    list, and the statistics count no completed task. *)
Theorem confirmed_reset_clears_every_flag
        (answer : string) (w : World) (fl : FeatureList)
        (round_percent : nat -> nat -> nat) :
  stores w fl ->
  write_error (env w) = None ->
  confirms answer ->
  exists w',
    Commands.reset answer w = (w', Returned Commands.ResetDone)
    /\ w' = with_disk w
              (put_feature_list_json (Holds (Encodes (reset_list fl)))
                 (disk w))
    /\ map id (features (reset_list fl)) = map id (features fl)
    /\ Forall (fun f => passes f = false) (features (reset_list fl))
    /\ ContextBuilder.getNextFeature w'
       = (w', Returned (hd_error (features (reset_list fl))))
    /\ exists stats,
         Statistics.getProgressStats round_percent w' = (w', Returned stats)
         /\ ProgressStats.completed stats = 0
         /\ ProgressStats.pending stats = length (features fl).
Proof.
  intros Hfl Hw Hy. apply loaded_stores in Hfl.
  apply toLowerCase_y in Hy.
  rewrite reset_eq, Hfl, Hy, Hw. simpl.
  eexists. split; [reflexivity|]. split; [reflexivity|].
  split.
  { rewrite map_map. reflexivity. }
  split.
  { apply Forall_forall. intros f Hf. apply in_map_iff in Hf.
    destruct Hf as (g & <- & _). reflexivity. }
  split.
  { rewrite getNextFeature_eq. unfold loaded. simpl.
    now rewrite find_pending_unset. }
  unfold Statistics.getProgressStats, bind. rewrite loadFeatureList_eq.
  unfold loaded. simpl. eexists. split; [reflexivity|]. simpl.
  rewrite filter_passes_unset, length_map. simpl. split; [reflexivity|lia].
Qed.

Lemma confirmed_reset_clears_every_flag_witness :
  let done :=
    {| id := "F001"; title := "Login"; description := "d";
       acceptance_criteria := ["c"]; passes := true;
       type := Some TyBugfix; target := None |} in
  let fl := Scenario.list_of [done; Scenario.todo "F002"] in
  let w := Scenario.world_of [done; Scenario.todo "F002"] in
  exists w',
    Commands.reset "Y" w = (w', Returned Commands.ResetDone)
    /\ w' = with_disk w
              (put_feature_list_json (Holds (Encodes (reset_list fl)))
                 (disk w))
    /\ map id (features (reset_list fl)) = map id (features fl)
    /\ Forall (fun f => passes f = false) (features (reset_list fl))
    /\ ContextBuilder.getNextFeature w'
       = (w', Returned (hd_error (features (reset_list fl))))
    /\ exists stats,
         Statistics.getProgressStats (fun _ _ => 0) w' = (w', Returned stats)
         /\ ProgressStats.completed stats = 0
         /\ ProgressStats.pending stats = length (features fl).
Proof.
  intros done fl w.
  apply (confirmed_reset_clears_every_flag "Y" w fl (fun _ _ => 0)).
  - reflexivity.
  - reflexivity.
  - right. reflexivity.
Defined.

(** X16.  Unless [reset] runs to its end it changes nothing.  When the
    task list does not load it exits with code [1] before asking; any
    answer other than [y] and [Y], the empty answer and [yes] included,
    cancels with exit code [0]; and when the write is refused the
    command throws and the list keeps its flags. *)
Theorem reset_changes_nothing_otherwise
        (answer : string) (w w' : World)
        (o : outcome Commands.reset_ending) :
  Commands.reset answer w = (w', o) ->
  o <> Returned Commands.ResetDone ->
  w' = w
  /\ match loaded w with
     | None => o = Returned (Commands.ResetExit 1)
     | Some _ =>
         (~ confirms answer /\ o = Returned (Commands.ResetExit 0))
         \/ (confirms answer
             /\ exists why, write_error (env w) = Some why /\ o = Thrown why)
     end.
Proof.
  rewrite reset_eq. intros H Ho.
  destruct (loaded w) as [fl|].
  - destruct (String.eqb (Commands.toLowerCase answer) "y") eqn:E.
    + apply String.eqb_eq, toLowerCase_y in E.
      destruct (write_error (env w)) as [why|].
      * injection H as <- <-. split; [reflexivity|]. right. eauto.
      * injection H as <- <-. now destruct Ho.
    + apply String.eqb_neq in E. injection H as <- <-.
      split; [reflexivity|]. left. split; [|reflexivity].
      intros Hy. now apply E, toLowerCase_y.
  - injection H as <- <-. split; reflexivity.
Qed.

Lemma reset_changes_nothing_otherwise_witness :
  Scenario.two_tasks = Scenario.two_tasks
  /\ match loaded Scenario.two_tasks with
     | None => Returned (Commands.ResetExit 0)
               = Returned (Commands.ResetExit 1)
     | Some _ =>
         (~ confirms "yes"
          /\ Returned (Commands.ResetExit 0)
             = Returned (Commands.ResetExit 0))
         \/ (confirms "yes"
             /\ exists why,
                  write_error (env Scenario.two_tasks) = Some why
                  /\ Returned (Commands.ResetExit 0) = Thrown why)
     end.
Proof.
  apply (reset_changes_nothing_otherwise "yes" Scenario.two_tasks
           Scenario.two_tasks (Returned (Commands.ResetExit 0))).
  - reflexivity.
  - discriminate.
Defined.

Section RunFacts.
Variable query : Collaborator.
Variable options : Commands.RunOptions.

(** The handler, once past its two checks. *)
Lemma runCommandHandler_eq (featureType : option FeatureType) (w : World) :
  Commands.runCommandHandler query options featureType w
  = if negb (auth_configured (env w)) then (w, Returned (Commands.RunExit 1))
    else if negb (existsSync (feature_list_json (disk w)))
    then (w, Returned (Commands.RunExit 1))
    else
      match loaded w with
      | None => (w, Returned (Commands.RunExit 0))
      | Some fl =>
          match find (eligible (run_filter featureType)) (features fl) with
          | None => (w, Returned (Commands.RunExit 0))
          | Some announced =>
              match CodingAgent.runSession query
                      (run_session_options options) w with
              | (w', Returned result) =>
                  (w', Returned (Commands.RunDone announced result))
              | (w', Thrown e) => (w', Thrown e)
              end
          end
      end.
Proof.
  unfold Commands.runCommandHandler, bind, get_env, get_disk, ret.
  cbv beta iota.
  destruct (negb (auth_configured (env w))); [reflexivity|].
  destruct (negb (existsSync (feature_list_json (disk w)))); [reflexivity|].
  replace (match featureType with
           | Some ty =>
               ContextBuilder.getNextFeatureByType (FeatureType_name ty)
           | None => ContextBuilder.getNextFeature
           end) with (nextTask (run_filter featureType))
    by (destruct featureType; reflexivity).
  rewrite nextTask_eq. destruct (loaded w) as [fl|]; [|reflexivity].
  destruct (find _ (features fl)); reflexivity.
Qed.

End RunFacts.

(** X17.  A [run] command with a category ([refactor], [fix],
    [improve], [docs]) announces the earliest pending task of that
    category, and the session it then starts works on the earliest
    pending task of the whole list, whatever its category: the request
    sent to the collaborator and the identifier in the result are
    those of that task.  The two tasks differ as soon as a pending task
    of another category comes first.  The collaborator is called
    exactly once. *)
Theorem run_announces_by_category_and_works_on_earliest_pending
        (query : Collaborator) (options : Commands.RunOptions)
        (featureType : option FeatureType) (w : World) (fl : FeatureList)
        (announced : Feature) :
  auth_configured (env w) = true ->
  stores w fl ->
  earliest (eligible (run_filter featureType)) (features fl)
           (Some announced) ->
  exists worked q,
    earliest ContextBuilder.pending (features fl) (Some worked)
    /\ session_request (run_session_options options) w = Some q
    /\ target_of q = Some worked
    /\ Commands.runCommandHandler query options featureType w
       = (world_after w q (query q w),
          Returned (Commands.RunDone announced
                      (session_result worked (query q w))))
    /\ SessionResult.featureId (session_result worked (query q w))
       = id worked.
Proof.
  intros Ha Hfl Hann.
  apply earliest_unique in Hann. symmetry in Hann.
  pose proof Hfl as Hl. apply loaded_stores in Hl.
  destruct (eligible_is_pending _ _ _ Hann) as (worked & Hw).
  pose proof (session_request_eq (run_session_options options) w) as Hq.
  rewrite Hl, Hw in Hq. simpl in Hq.
  destruct (runSession_eq query _ w _ Hq) as (f & Htarget & Hsel & Hrun).
  rewrite Hl, Hw in Hsel. injection Hsel as <-.
  eexists worked, _. split; [rewrite <- Hw; apply find_earliest|].
  split; [exact Hq|]. split; [exact Htarget|]. split.
  - rewrite runCommandHandler_eq, Ha. cbn [negb]. cbv iota.
    unfold stores in Hfl. rewrite Hfl. cbn [existsSync negb]. cbv iota.
    rewrite Hl, Hann, Hrun. reflexivity.
  - unfold session_result.
    destruct (AgentQueryResult.success _); reflexivity.
Qed.

(** The list holds a pending feature and then a pending bugfix: [fix]
    announces the bugfix and the session works on the feature. *)
Lemma run_announces_by_category_and_works_on_earliest_pending_witness :
  let bug :=
    {| id := "B001"; title := "Crash on start"; description := "d";
       acceptance_criteria := ["c"]; passes := false;
       type := Some TyBugfix; target := None |} in
  let w := Scenario.world_of [Scenario.todo "F001"; bug] in
  let options := {| Commands.project := "/work/demo";
                    Commands.maxTurns := 50%Z |} in
  exists worked q,
    earliest ContextBuilder.pending [Scenario.todo "F001"; bug] (Some worked)
    /\ session_request (run_session_options options) w = Some q
    /\ target_of q = Some worked
    /\ Commands.runCommandHandler Scenario.diligent options (Some TyBugfix) w
       = (world_after w q (Scenario.diligent q w),
          Returned (Commands.RunDone bug
                      (session_result worked (Scenario.diligent q w))))
    /\ SessionResult.featureId
         (session_result worked (Scenario.diligent q w))
       = id worked.
Proof.
  intros bug w options.
  apply (run_announces_by_category_and_works_on_earliest_pending
           Scenario.diligent options (Some TyBugfix) w
           (Scenario.list_of [Scenario.todo "F001"; bug]) bug).
  - reflexivity.
  - reflexivity.
  - exists [Scenario.todo "F001"], []. split; [reflexivity|].
    split; [reflexivity|]. repeat constructor.
Defined.

(** X18.  A [run] command that finds no credentials, no
    [feature_list.json] or no pending task of its category exits
    without a session: the collaborator is not called and nothing is
    written.  The exit code is [1] in the first two cases and [0] in
    the third, which includes a [feature_list.json] that is there and
    cannot be read or parsed. *)
Theorem run_exits_without_a_session
        (query : Collaborator) (options : Commands.RunOptions)
        (featureType : option FeatureType) (w : World) :
  auth_configured (env w) = false
  \/ existsSync (feature_list_json (disk w)) = false
  \/ nextTask (run_filter featureType) w = (w, Returned None) ->
  exists code,
    Commands.runCommandHandler query options featureType w
    = (w, Returned (Commands.RunExit code))
    /\ code = (if auth_configured (env w)
                  && existsSync (feature_list_json (disk w))
               then 0%Z else 1%Z).
Proof.
  rewrite runCommandHandler_eq, nextTask_eq.
  destruct (auth_configured (env w)); cbn [negb andb]; cbv iota;
    [|intros _; eexists; split; reflexivity].
  destruct (existsSync (feature_list_json (disk w))); cbn [negb]; cbv iota;
    [|intros _; eexists; split; reflexivity].
  intros [H|[H|H]]; try discriminate H.
  destruct (loaded w) as [fl|]; [|eexists; split; reflexivity].
  injection H as ->. eexists; split; reflexivity.
Qed.

Lemma run_exits_without_a_session_witness :
  exists code,
    Commands.runCommandHandler Scenario.diligent
      {| Commands.project := "/work/demo"; Commands.maxTurns := 50%Z |}
      (Some TyDocs) Scenario.corrupt
    = (Scenario.corrupt, Returned (Commands.RunExit code))
    /\ code = (if auth_configured (env Scenario.corrupt)
                  && existsSync (feature_list_json (disk Scenario.corrupt))
               then 0%Z else 1%Z).
Proof.
  apply (run_exits_without_a_session Scenario.diligent
           {| Commands.project := "/work/demo"; Commands.maxTurns := 50%Z |}
           (Some TyDocs) Scenario.corrupt).
  right. right. reflexivity.
Defined.

Section AddCommandFacts.
Variable query : Collaborator.

Lemma asFeatures_nonempty (batch : list json) (added : list Feature) :
  batch <> [] -> asFeatures batch = Some added -> added <> [].
Proof.
  destruct batch as [|v batch]; [contradiction|]. intros _. simpl.
  destruct (asFeature v); [|discriminate].
  destruct (asFeatures batch); [|discriminate].
  intros H. injection H as <-. discriminate.
Qed.

(** The adder's handler past the check of the target and without
    [--atomize]. *)
Lemma add_handler_cases (description : string) (featureType : FeatureType)
      (options : AddCommands.AddOptions) (w w' : World)
      (ending : AddCommands.ending) :
  AddCommands.invalid_target (AddCommands.target options) = false ->
  AddCommands.atomize options = false ->
  AddCommands.addFeatureHandler query description featureType options w
  = (w', Returned (Some ending)) ->
  match ending with
  | AddCommands.Added f =>
      add_guard description w = true
      /\ exists fl, stores w fl /\ stores w' (with_added fl [f])
  | AddCommands.Exit code =>
      code = 1%Z
      /\ untouched_or_as_left query w w'
           (adder_request (adder_options description featureType options))
  | AddCommands.Atomized _ => False
  end.
Proof.
  intros Ht Ha. unfold AddCommands.addFeatureHandler. rewrite Ht, Ha.
  unfold bind at 1, get_env, ret, add_guard. cbv beta iota.
  destruct (auth_configured (env w)); cbn [negb andb]; cbv iota.
  2:{ intros H. injection H as <- <-. split; [reflexivity|now left]. }
  destruct (AddCommands.blank description); cbn [negb andb]; cbv iota.
  1:{ intros H. injection H as <- <-. split; [reflexivity|now left]. }
  unfold bind at 1, get_disk. cbv beta iota.
  destruct (existsSync (feature_list_json (disk w))); cbn [negb]; cbv iota.
  2:{ intros H. injection H as <- <-. split; [reflexivity|now left]. }
  fold (adder_options description featureType options). unfold bind.
  destruct (loaded w) as [fl|] eqn:Hl.
  - apply loaded_stores in Hl.
    destruct (add_outcome query
                (adder_options description featureType options) w fl Hl)
      as (w1 & r & Hrun & _ & Hq & _ & Hcase).
    rewrite Hrun. destruct r as [r|]; [|discriminate].
    destruct (FeatureAdderResult.success r).
    + destruct Hcase as (v & added & _ & _ & _ & _ & _ & Hf & Hd).
      rewrite Hf. intros H. injection H as <- <-.
      split; [reflexivity|]. exists fl. split; [exact Hl|exact Hd].
    + intros H. injection H as <- <-. split; [reflexivity|].
      right. exists fl. auto.
  - rewrite add_without_list by exact Hl. simpl.
    intros H. injection H as <- <-. split; [reflexivity|now left].
Qed.

End AddCommandFacts.

(** X28.  An [add-*] command without [--atomize] ends in one of two
    ways.  Either it reports one added task: then the target was
    absent or one of the six valid ones, credentials were found, the
    description was not blank, and [feature_list.json] holds the list
    it held before followed by exactly that task.  Or it exits with
    code [1]: then either nothing at all happened (no call of the
    collaborator, no write), or the collaborator was called once, with
    the description prefixed by the target in upper case, and
    [feature_list.json] is as the collaborator left it. *)
Theorem add_command_adds_one_task_or_exits
        (query : Collaborator) (description : string)
        (featureType : FeatureType) (options : AddCommands.AddOptions)
        (w w' : World) (ending : AddCommands.ending) :
  AddCommands.atomize options = false ->
  AddCommands.addFeatureHandler query description featureType options w
  = (w', Returned (Some ending)) ->
  match ending with
  | AddCommands.Added f =>
      AddCommands.invalid_target (AddCommands.target options) = false
      /\ add_guard description w = true
      /\ exists fl, stores w fl /\ stores w' (with_added fl [f])
  | AddCommands.Exit code =>
      code = 1%Z
      /\ untouched_or_as_left query w w'
           (adder_request (adder_options description featureType options))
  | AddCommands.Atomized _ => False
  end.
Proof.
  intros Ha Hrun.
  destruct (AddCommands.invalid_target (AddCommands.target options)) eqn:Ht.
  - unfold AddCommands.addFeatureHandler in Hrun. rewrite Ht in Hrun.
    injection Hrun as <- <-. split; [reflexivity|now left].
  - pose proof (add_handler_cases query description featureType options
                  w w' ending Ht Ha Hrun) as H.
    destruct ending as [code|f|fs]; [exact H| |exact H].
    split; [reflexivity|exact H].
Qed.

Lemma add_command_adds_one_task_or_exits_witness :
  let options :=
    {| AddCommands.project := "/work/demo"; AddCommands.file := None;
       AddCommands.atomize := false; AddCommands.target := Some "web" |} in
  let w := Scenario.world_of [Scenario.todo "F000"] in
  let res :=
    AddCommands.addFeatureHandler (Scenario.answers Samples.fenced)
      "Login" TyFeature options w in
  AddCommands.invalid_target (Some "web") = false
  /\ add_guard "Login" w = true
  /\ exists fl, stores w fl /\ stores (fst res) (with_added fl [Samples.task]).
Proof.
  intros options w res.
  apply (add_command_adds_one_task_or_exits
           (Scenario.answers Samples.fenced) "Login" TyFeature options
           w (fst res) (AddCommands.Added Samples.task)).
  - reflexivity.
  - vm_compute. reflexivity.
Defined.

(** X29.  The handler of [add-epic] and of [--atomize] ends in one of
    two ways.  Either it reports the added tasks: then there is at
    least one, credentials were found, the description was not blank,
    and [feature_list.json] holds the list it held before followed by
    exactly those tasks in their order.  Or it exits with code [1]:
    then either nothing at all happened, or the collaborator was called
    once and [feature_list.json] is as the collaborator left it. *)
Theorem atomize_command_adds_the_batch_or_exits
        (query : Collaborator) (description : string)
        (featureType : FeatureType) (project : string)
        (target : option string) (w w' : World)
        (ending : AddCommands.ending) :
  AddCommands.atomizeFeatureHandler query description featureType project
    target w
  = (w', Returned (Some ending)) ->
  match ending with
  | AddCommands.Atomized fs =>
      add_guard description w = true
      /\ fs <> []
      /\ exists fl, stores w fl /\ stores w' (with_added fl fs)
  | AddCommands.Exit code =>
      code = 1%Z
      /\ untouched_or_as_left query w w'
           (atomizer_request
              (atomizer_options description featureType project target))
  | AddCommands.Added _ => False
  end.
Proof.
  unfold AddCommands.atomizeFeatureHandler.
  unfold bind at 1, get_env, ret, add_guard. cbv beta iota.
  destruct (auth_configured (env w)); cbn [negb andb]; cbv iota.
  2:{ intros H. injection H as <- <-. split; [reflexivity|now left]. }
  destruct (AddCommands.blank description); cbn [negb andb]; cbv iota.
  1:{ intros H. injection H as <- <-. split; [reflexivity|now left]. }
  unfold bind at 1, get_disk. cbv beta iota.
  destruct (existsSync (feature_list_json (disk w))); cbn [negb]; cbv iota.
  2:{ intros H. injection H as <- <-. split; [reflexivity|now left]. }
  fold (atomizer_options description featureType project target).
  unfold bind.
  destruct (loaded w) as [fl|] eqn:Hl.
  - apply loaded_stores in Hl.
    destruct (atomize_outcome query
                (atomizer_options description featureType project target)
                w fl Hl)
      as (w1 & r & Hrun & _ & Hq & _ & Hcase).
    rewrite Hrun. destruct r as [r|]; [|discriminate].
    destruct (FeatureAtomizerResult.success r).
    + destruct Hcase as (batch & added & _ & _ & Hne & _ & Has & _ & Hf & Hd).
      rewrite Hf. intros H. injection H as <- <-.
      split; [reflexivity|].
      split; [now apply asFeatures_nonempty with (batch := batch)|].
      exists fl. split; [exact Hl|exact Hd].
    + intros H. injection H as <- <-. split; [reflexivity|].
      right. exists fl. auto.
  - rewrite atomize_without_list by exact Hl. simpl.
    intros H. injection H as <- <-. split; [reflexivity|now left].
Qed.

Lemma atomize_command_adds_the_batch_or_exits_witness :
  let w := Scenario.world_of [Scenario.todo "F001"] in
  let res :=
    AddCommands.atomizeFeatureHandler
      (Scenario.answers Samples.array_of_two) "Accounts" TyFeature
      "/work/demo" None w in
  1%Z = 1%Z
  /\ untouched_or_as_left (Scenario.answers Samples.array_of_two) w (fst res)
       (atomizer_request
          (atomizer_options "Accounts" TyFeature "/work/demo" None)).
Proof.
  intros w res.
  apply (atomize_command_adds_the_batch_or_exits
           (Scenario.answers Samples.array_of_two) "Accounts" TyFeature
           "/work/demo" None w (fst res) (AddCommands.Exit 1)).
  vm_compute. reflexivity.
Defined.

(* ===================================================================== *)
(** * Further properties: sessions and the loop *)
(* ===================================================================== *)

(** X19.  A [feature_list.json] that is there and cannot be read or
    parsed looks like a finished project to the executor and to the
    loop: [runSession] reports that no pending feature was found, and
    [loop] ends at once without a session, as it does when every task
    is completed.  Nothing is written and the collaborator is not
    called. *)
Theorem unreadable_list_ends_the_loop_as_a_finished_one
        (query : Collaborator) (w : World) :
  auth_configured (env w) = true ->
  existsSync (feature_list_json (disk w)) = true ->
  loaded w = None ->
  (forall options, CodingAgent.runSession query options w
                   = (w, Returned nothing_to_do))
  /\ (forall options m,
         Cli.maxSessions options = Some m -> (1 <= m)%Z ->
         Cli.loop query options w = (w, Returned (Cli.Finished 1 []))).
Proof.
  intros Ha He Hl. split.
  - intros options. apply runSession_idle.
    rewrite session_request_eq, Hl. reflexivity.
  - intros options m Hm Hle.
    rewrite loop_eq by assumption. rewrite sessions_unfold.
    unfold Cli.below. rewrite Hm.
    replace (0 <? m)%Z with true by (symmetry; apply Z.ltb_lt; lia).
    rewrite nextTask_eq, Hl. reflexivity.
Qed.

Lemma unreadable_list_ends_the_loop_as_a_finished_one_witness :
  (forall options, CodingAgent.runSession Scenario.diligent options
                     Scenario.corrupt
                   = (Scenario.corrupt, Returned nothing_to_do))
  /\ (forall options m,
         Cli.maxSessions options = Some m -> (1 <= m)%Z ->
         Cli.loop Scenario.diligent options Scenario.corrupt
         = (Scenario.corrupt, Returned (Cli.Finished 1 []))).
Proof.
  apply (unreadable_list_ends_the_loop_as_a_finished_one
           Scenario.diligent Scenario.corrupt); reflexivity.
Defined.

Section ProgressFacts.

(** What a session that found nothing or something reports. *)
Lemma runSession_cases (query : Collaborator)
      (options : CodingAgent.CodingAgentOptions) (w : World) :
  (session_request options w = None
   /\ CodingAgent.runSession query options w = (w, Returned nothing_to_do))
  \/ exists q f,
       session_request options w = Some q
       /\ target_of q = Some f
       /\ match loaded w with
          | Some fl => find ContextBuilder.pending (features fl)
          | None => None
          end = Some f
       /\ CodingAgent.runSession query options w
          = (world_after w q (query q w),
             Returned (session_result f (query q w))).
Proof.
  destruct (session_request options w) as [q|] eqn:Hq.
  - right. destruct (runSession_eq query options w q Hq)
      as (f & Ht & Hsel & Hrun).
    exists q, f. auto.
  - left. split; [reflexivity|]. now apply runSession_idle.
Qed.

Lemma session_result_success (f : Feature) (run : Run) :
  SessionResult.success (session_result f run) = true ->
  AgentQueryResult.success (AgentSdkClient.result_of run) = true
  /\ exists g, task_on_disk (after_disk run) (id f) = Some g
               /\ passes g = true.
Proof.
  unfold session_result.
  destruct (AgentQueryResult.success (AgentSdkClient.result_of run));
    simpl; [|discriminate].
  destruct (task_on_disk (after_disk run) (id f)) as [g|];
    [|discriminate].
  intros H. split; [reflexivity|]. exists g. auto.
Qed.

Lemma session_result_id (f : Feature) (run : Run) :
  SessionResult.featureId (session_result f run) = id f.
Proof.
  unfold session_result.
  destruct (AgentQueryResult.success _); reflexivity.
Qed.

End ProgressFacts.

(** X20.  A session that reports success moves the queue on, provided
    the identifiers of the stored list are distinct: the task the next
    session selects is not the one just completed. *)
Theorem successful_session_moves_on
        (query : Collaborator) (options : CodingAgent.CodingAgentOptions)
        (w w' : World) (r : SessionResult.t) (fl' : FeatureList)
        (next : Feature) :
  CodingAgent.runSession query options w = (w', Returned r) ->
  SessionResult.success r = true ->
  stores w' fl' ->
  NoDup (map id (features fl')) ->
  earliest ContextBuilder.pending (features fl') (Some next) ->
  id next <> SessionResult.featureId r.
Proof.
  intros Hrun Hs Hfl Hnd Hnext.
  destruct (runSession_cases query options w)
    as [[_ Hidle]|(q & f & _ & _ & _ & Hrun')].
  - rewrite Hidle in Hrun. injection Hrun as _ <-. discriminate Hs.
  - rewrite Hrun' in Hrun. injection Hrun as <- <-.
    rewrite session_result_id.
    destruct (session_result_success _ _ Hs) as (_ & g & Hg & Hp).
    unfold task_on_disk in Hg. unfold stores in Hfl. simpl in Hfl.
    rewrite Hfl in Hg.
    destruct (earliest_in _ _ _ Hnext) as [Hin Hpend].
    intros Heq. rewrite <- Heq in Hg.
    apply (find_id_unique _ next g Hnd Hin) in Hg. subst g.
    unfold ContextBuilder.pending in Hpend. now rewrite Hp in Hpend.
Qed.

Lemma successful_session_moves_on_witness :
  let res :=
    CodingAgent.runSession Scenario.diligent Scenario.session
      Scenario.two_tasks in
  id (Scenario.todo "F002") <> "F001".
Proof.
  intros res.
  apply (successful_session_moves_on Scenario.diligent Scenario.session
           Scenario.two_tasks (fst res)
           {| SessionResult.success := true;
              SessionResult.featureId := "F001";
              SessionResult.commitHash := None;
              SessionResult.error := None;
              SessionResult.progressEntry :=
                "[2025-01-01T00:00:00.000Z] [F001] Task F001 - COMPLETED" |}
           (Scenario.list_of
              [{| id := "F001"; title := "Task F001";
                  description := "Implement it";
                  acceptance_criteria := ["It works"];
                  passes := true; type := None; target := None |};
               Scenario.todo "F002"])
           (Scenario.todo "F002")).
  - vm_compute. reflexivity.
  - reflexivity.
  - reflexivity.
  - simpl. repeat constructor; simpl; intuition discriminate.
  - eexists [_], []. split; [reflexivity|]. split; [reflexivity|].
    repeat constructor.
Defined.

(** X21.  When the earliest pending task shares its identifier with an
    earlier task that is completed, a session reports success as soon
    as the collaborator does, whatever was done: the flag it reads back
    is that of the earlier task.  If the collaborator left the list as
    it was, the task is still pending and the next session selects it
    again. *)
Theorem shared_identifier_reports_success_without_progress
        (query : Collaborator) (options : CodingAgent.CodingAgentOptions)
        (w : World) (fl : FeatureList) (t g : Feature)
        (q : AgentQueryOptions.t) :
  stores w fl ->
  earliest ContextBuilder.pending (features fl) (Some t) ->
  task_on_disk (disk w) (id t) = Some g ->
  passes g = true ->
  session_request options w = Some q ->
  AgentQueryResult.success (AgentSdkClient.result_of (query q w)) = true ->
  feature_list_json (after_disk (query q w)) = feature_list_json (disk w) ->
  exists w' r,
    CodingAgent.runSession query options w = (w', Returned r)
    /\ SessionResult.success r = true
    /\ SessionResult.featureId r = id t
    /\ ContextBuilder.getNextFeature w' = (w', Returned (Some t)).
Proof.
  intros Hfl Ht Hg Hp Hq Hs Hsame.
  destruct (runSession_eq query options w q Hq) as (f & _ & Hsel & Hrun).
  pose proof Hfl as Hl. apply loaded_stores in Hl. rewrite Hl in Hsel.
  apply earliest_unique in Ht. rewrite <- Ht in Hsel. injection Hsel as <-.
  eexists; eexists. split; [exact Hrun|].
  split.
  { unfold session_result. rewrite Hs. simpl.
    unfold task_on_disk in *. rewrite Hsame, Hg. exact Hp. }
  split; [apply session_result_id|].
  rewrite getNextFeature_eq. unfold loaded, world_after. simpl.
  unfold stores in Hfl. rewrite Hsame, Hfl. now rewrite <- Ht.
Qed.

Lemma shared_identifier_reports_success_without_progress_witness :
  let done :=
    {| id := "F001"; title := "Login"; description := "d";
       acceptance_criteria := ["c"]; passes := true;
       type := None; target := None |} in
  let w := Scenario.world_of [done; Scenario.todo "F001"] in
  exists w' r,
    CodingAgent.runSession Scenario.claims_success Scenario.session w
    = (w', Returned r)
    /\ SessionResult.success r = true
    /\ SessionResult.featureId r = "F001"
    /\ ContextBuilder.getNextFeature w'
       = (w', Returned (Some (Scenario.todo "F001"))).
Proof.
  intros done w.
  apply (shared_identifier_reports_success_without_progress
           Scenario.claims_success Scenario.session w
           (Scenario.list_of [done; Scenario.todo "F001"])
           (Scenario.todo "F001") done
           (CodingAgent.queryOptions Scenario.session
              (context_of w (Scenario.todo "F001")))).
  - reflexivity.
  - exists [done], []. split; [reflexivity|]. split; [reflexivity|].
    repeat constructor.
  - reflexivity.
  - reflexivity.
  - reflexivity.
  - reflexivity.
  - reflexivity.
Defined.

Section DrainFacts.
Variable query : Collaborator.
Variable options : Cli.LoopOptions.
Hypothesis Hquery : completes_its_task query.
Hypothesis Hfilter : loop_filter options = None.

Lemma mark_done_stores (w : World) (fl : FeatureList) (task_id : string) :
  stores w fl ->
  feature_list_json (Scenario.mark_done task_id (disk w))
  = Holds (Encodes
             {| project_name := project_name fl;
                project_description := project_description fl;
                tech_stack := tech_stack fl;
                features := map (mark_task task_id) (features fl) |}).
Proof.
  unfold stores, Scenario.mark_done. intros ->. reflexivity.
Qed.

Lemma mark_ids (task_id : string) (fs : list Feature) :
  map id (map (mark_task task_id) fs) = map id fs.
Proof.
  rewrite map_map. apply map_ext. intros f. unfold mark_task.
  destruct (String.eqb (id f) task_id); reflexivity.
Qed.

Lemma mark_absent (task_id : string) (fs : list Feature) :
  ~ In task_id (map id fs) -> map (mark_task task_id) fs = fs.
Proof.
  induction fs as [|x fs IH]; simpl; intros H; [reflexivity|].
  unfold mark_task at 1.
  destruct (String.eqb (id x) task_id) eqn:E.
  - apply String.eqb_eq in E. destruct H. now left.
  - rewrite IH; [reflexivity|]. intros Hin. apply H. now right.
Qed.

(** Marking the earliest pending task of a list with distinct
    identifiers takes exactly that task out of the queue. *)
Lemma mark_first_pending (fs : list Feature) (t : Feature)
      (rest : list Feature) :
  NoDup (map id fs) ->
  filter ContextBuilder.pending fs = t :: rest ->
  filter ContextBuilder.pending (map (mark_task (id t)) fs) = rest
  /\ find (fun f => String.eqb (id f) (id t)) (map (mark_task (id t)) fs)
     = Some (completed t).
Proof.
  induction fs as [|x fs IH]; simpl; intros Hnd Hf; [discriminate|].
  inversion Hnd as [|? ? Hx Hl]; subst.
  destruct (ContextBuilder.pending x) eqn:Ep.
  - injection Hf as -> Hrest.
    assert (Hm : mark_task (id t) t = completed t)
      by (unfold mark_task; now rewrite String.eqb_refl).
    rewrite Hm. cbn [ContextBuilder.pending completed passes negb id].
    rewrite String.eqb_refl.
    rewrite (mark_absent _ _ Hx). split; [exact Hrest|reflexivity].
  - assert (Hin : In t fs).
    { assert (H : In t (filter ContextBuilder.pending fs))
        by (rewrite Hf; now left).
      now apply filter_In in H. }
    assert (Hne : String.eqb (id x) (id t) = false).
    { apply String.eqb_neq. intros E. apply Hx. rewrite E.
      now apply in_map. }
    assert (Hm : mark_task (id t) x = x) by (unfold mark_task; now rewrite Hne).
    rewrite Hm, Ep, Hne. now apply IH.
Qed.

Lemma no_pending_all_passed (fs : list Feature) :
  filter ContextBuilder.pending fs = [] ->
  Forall (fun f => passes f = true) fs.
Proof.
  induction fs as [|x fs IH]; simpl; intros H; [constructor|].
  unfold ContextBuilder.pending at 1 in H.
  destruct (passes x) eqn:E; simpl in H; [|discriminate].
  constructor; [exact E|now apply IH].
Qed.

Lemma find_filter_head {A} (p : A -> bool) (l : list A) :
  find p l = hd_error (filter p l).
Proof.
  induction l as [|x l IH]; simpl; [reflexivity|].
  destruct (p x); [reflexivity|exact IH].
Qed.

(** The loop empties a queue of [k] tasks in [k] sessions. *)
Lemma sessions_drain (k : nat) :
  forall (fuel : nat) (session : Z) (w : World) (fl : FeatureList) (m : Z),
    Cli.maxSessions options = Some m ->
    stores w fl ->
    NoDup (map id (features fl)) ->
    length (filter ContextBuilder.pending (features fl)) = k ->
    (session + Z.of_nat k <= m)%Z ->
    (0 <= session)%Z ->
    remaining options session < fuel ->
    exists w' rs fl',
      Cli.sessions query fuel options session w
      = (w', Returned (Z.min (session + Z.of_nat k + 1) m, rs))
      /\ map SessionResult.featureId rs
         = map id (filter ContextBuilder.pending (features fl))
      /\ Forall (fun r => SessionResult.success r = true) rs
      /\ stores w' fl'
      /\ map id (features fl') = map id (features fl)
      /\ Forall (fun f => passes f = true) (features fl').
Proof.
  induction k as [|k IH];
    intros fuel session w fl m Hm Hfl Hnd Hk Hle H0 Hfuel.
  - destruct fuel as [|fuel]; [lia|]. rewrite sessions_unfold.
    apply length_zero_iff_nil in Hk.
    pose proof Hfl as Hl. apply loaded_stores in Hl.
    exists w, [], fl.
    split.
    { unfold Cli.below. rewrite Hm.
      destruct (session <? m)%Z eqn:E.
      - apply Z.ltb_lt in E. rewrite Hfilter, nextTask_eq, Hl.
        replace (find (eligible None) (features fl)) with (@None Feature).
        + do 3 f_equal. lia.
        + symmetry. rewrite (find_ext _ ContextBuilder.pending)
            by (intros f; symmetry; apply pending_eligible).
          now rewrite find_filter_head, Hk.
      - apply Z.ltb_ge in E. do 3 f_equal. lia. }
    rewrite Hk. split; [reflexivity|]. split; [constructor|].
    split; [exact Hfl|]. split; [reflexivity|].
    now apply no_pending_all_passed.
  - destruct fuel as [|fuel]; [lia|]. rewrite sessions_unfold.
    destruct (filter ContextBuilder.pending (features fl)) as [|t rest] eqn:Hq;
      [discriminate|].
    simpl in Hk. injection Hk as Hk.
    pose proof Hfl as Hl. apply loaded_stores in Hl.
    assert (Hb : Cli.below session (Cli.maxSessions options) = true).
    { unfold Cli.below. rewrite Hm. apply Z.ltb_lt. lia. }
    rewrite Hb. pose proof (below_remaining _ _ Hb) as Hrem.
    assert (Hfind : find ContextBuilder.pending (features fl) = Some t)
      by now rewrite find_filter_head, Hq.
    rewrite Hfilter, nextTask_eq, Hl.
    rewrite (find_ext _ ContextBuilder.pending)
      by (intros f; symmetry; apply pending_eligible).
    rewrite Hfind.
    pose proof (session_request_eq (session_options options) w) as Hreq.
    rewrite Hl, Hfind in Hreq. simpl in Hreq.
    destruct (runSession_eq query _ w _ Hreq) as (f & Htarget & Hsel & Hrun).
    rewrite Hl, Hfind in Hsel. injection Hsel as <-.
    rewrite Hrun.
    set (q := CodingAgent.queryOptions (session_options options)
                (context_of w t)) in *.
    destruct (Hquery q w) as [Hdisk Hsuccess].
    unfold Scenario.done_target in Hdisk. rewrite Htarget in Hdisk.
    pose proof (mark_done_stores w fl (id t) Hfl) as Hmark.
    rewrite <- Hdisk in Hmark.
    destruct (mark_first_pending _ _ _ Hnd Hq) as [Hrest Hdone].
    set (fl1 := {| project_name := project_name fl;
                   project_description := project_description fl;
                   tech_stack := tech_stack fl;
                   features := map (mark_task (id t)) (features fl) |}) in *.
    destruct (IH fuel (session + 1)%Z (world_after w q (query q w)) fl1 m)
      as (w' & rs & fl' & Hloop & Hids & Hall & Hst & Hsame & Hpassed);
      try assumption; try lia.
    + simpl. now rewrite mark_ids.
    + simpl. now rewrite Hrest.
    + exists w', (session_result t (query q w) :: rs), fl'.
      rewrite Hloop. simpl fst. simpl snd.
      split.
      { do 3 f_equal. lia. }
      split.
      { simpl. rewrite session_result_id, Hids. simpl.
        now rewrite Hrest. }
      split.
      { constructor; [|exact Hall].
        unfold session_result. rewrite Hsuccess. simpl.
        unfold task_on_disk. rewrite Hmark. simpl.
        now rewrite Hdone. }
      split; [exact Hst|]. split; [|exact Hpassed].
      rewrite Hsame. simpl. apply mark_ids.
Qed.

End DrainFacts.

(** X22.  With a collaborator that completes the task it is given and
    reports success, the loop without a category filter empties the
    queue: started on a list with distinct identifiers and a limit of
    at least as many sessions as there are pending tasks, it runs one
    session for each pending task, in the order of the list, each
    reporting success, and stops with every task completed and none
    added or removed.  The session counter ends at the number of
    sessions plus one, or at the limit when the queue and the limit run
    out together. *)
Theorem loop_empties_the_queue
        (query : Collaborator) (options : Cli.LoopOptions) (w : World)
        (fl : FeatureList) (m : Z) :
  completes_its_task query ->
  loop_filter options = None ->
  Cli.maxSessions options = Some m ->
  auth_configured (env w) = true ->
  stores w fl ->
  NoDup (map id (features fl)) ->
  let queue := filter ContextBuilder.pending (features fl) in
  (Z.of_nat (length queue) <= m)%Z ->
  exists w' rs fl',
    Cli.loop query options w
    = (w', Returned
             (Cli.Finished (Z.min (Z.of_nat (length queue) + 1) m) rs))
    /\ map SessionResult.featureId rs = map id queue
    /\ Forall (fun r => SessionResult.success r = true) rs
    /\ stores w' fl'
    /\ map id (features fl') = map id (features fl)
    /\ Forall (fun f => passes f = true) (features fl').
Proof.
  intros Hquery Hfilter Hm Ha Hfl Hnd queue Hle.
  rewrite loop_eq; [|exact Ha|unfold stores in Hfl; now rewrite Hfl].
  destruct (sessions_drain query options Hquery Hfilter (length queue)
              (S (Cli.iterations options)) 0%Z w fl m Hm Hfl Hnd eq_refl)
    as (w' & rs & fl' & Hloop & Hrest); try lia.
  { unfold remaining, Cli.iterations. rewrite Hm.
    replace (m - 0)%Z with m by lia. lia. }
  exists w', rs, fl'. rewrite Hloop. split; [reflexivity|exact Hrest].
Qed.

Lemma loop_empties_the_queue_witness :
  let done :=
    {| id := "F000"; title := "Setup"; description := "d";
       acceptance_criteria := ["c"]; passes := true;
       type := None; target := None |} in
  let fs := [Scenario.todo "F001"; done; Scenario.todo "F002"] in
  exists w' rs fl',
    Cli.loop Scenario.diligent (Scenario.loop_with 5) (Scenario.world_of fs)
    = (w', Returned (Cli.Finished 3 rs))
    /\ map SessionResult.featureId rs = ["F001"; "F002"]
    /\ Forall (fun r => SessionResult.success r = true) rs
    /\ stores w' fl'
    /\ map id (features fl') = ["F001"; "F000"; "F002"]
    /\ Forall (fun f => passes f = true) (features fl').
Proof.
  intros done fs.
  apply (loop_empties_the_queue Scenario.diligent (Scenario.loop_with 5)
           (Scenario.world_of fs) (Scenario.list_of fs) 5).
  - intros q w. split; reflexivity.
  - reflexivity.
  - reflexivity.
  - reflexivity.
  - reflexivity.
  - simpl. repeat constructor; simpl; intuition discriminate.
  - simpl. lia.
Defined.

(** X26.  The commit hash in the result of a session is the head of
    the repository as [git rev-parse] reports it after the
    collaborator reported success: [commitHash] is set exactly when a
    task was found, the collaborator's result was a success and git
    answered.  It is set for an incomplete session as well, and says
    nothing about a commit having been made. *)
Theorem commit_hash_is_head_after_reported_success
        (query : Collaborator) (options : CodingAgent.CodingAgentOptions)
        (w w' : World) (r : SessionResult.t) (h : string) :
  CodingAgent.runSession query options w = (w', Returned r) ->
  (SessionResult.commitHash r = Some h
   <-> exists q,
         session_request options w = Some q
         /\ AgentQueryResult.success
              (AgentSdkClient.result_of (query q w)) = true
         /\ commit_of (after_env (query q w)) = Some h).
Proof.
  intros Hrun.
  destruct (runSession_cases query options w)
    as [[Hnone Hidle]|(q & f & Hq & _ & _ & Hrun')].
  - rewrite Hidle in Hrun. injection Hrun as _ <-. simpl.
    split; [discriminate|]. intros (q & Hq & _). congruence.
  - rewrite Hrun' in Hrun. injection Hrun as _ <-.
    unfold session_result.
    destruct (AgentQueryResult.success
                (AgentSdkClient.result_of (query q w))) eqn:Hs; simpl.
    + split.
      * intros H. exists q. auto.
      * intros (q' & Hq' & _ & H). congruence.
    + split; [discriminate|].
      intros (q' & Hq' & Hs' & _). congruence.
Qed.

(** The collaborator reports success and leaves the task as it is: the
    session is incomplete and still carries the hash of the head. *)
Lemma commit_hash_is_head_after_reported_success_witness :
  let w :=
    {| disk := disk Scenario.two_tasks;
       env := {| git_rev_parse := Returned (q "a1b2c3d|");
                 git_log := fun _ => Returned "";
                 directory_tree := fun _ => "./";
                 now := "2025-01-01T00:00:00.000Z";
                 write_error := None;
                 auth_configured := true |};
       queries := [] |} in
  let res :=
    CodingAgent.runSession Scenario.claims_success Scenario.session w in
  Some "a1b2c3d" = Some "a1b2c3d"
  <-> exists q,
        session_request Scenario.session w = Some q
        /\ AgentQueryResult.success
             (AgentSdkClient.result_of (Scenario.claims_success q w)) = true
        /\ commit_of (after_env (Scenario.claims_success q w))
           = Some "a1b2c3d".
Proof.
  intros w res.
  apply (commit_hash_is_head_after_reported_success
           Scenario.claims_success Scenario.session w (fst res)
           {| SessionResult.success := false;
              SessionResult.featureId := "F001";
              SessionResult.commitHash := Some "a1b2c3d";
              SessionResult.error := None;
              SessionResult.progressEntry :=
                "[2025-01-01T00:00:00.000Z] [F001] Task F001 - INCOMPLETE" |}
           "a1b2c3d").
  vm_compute. reflexivity.
Defined.

(* ===================================================================== *)
(** * Further properties: credentials *)
(* ===================================================================== *)

(** X23.  [isAuthConfigured] and [getAuthMethod] agree: credentials are
    found exactly when the method is not [none].  An OAuth token that
    is set and not empty takes precedence over an API key, and an empty
    value counts as not set. *)
Theorem auth_method_agrees_with_check (e : Auth.ProcessEnv) :
  (Auth.isAuthConfigured e = true <-> Auth.getAuthMethod e <> Auth.none)
  /\ (Auth.getAuthMethod e = Auth.oauth
      <-> exists token,
            Auth.CLAUDE_CODE_OAUTH_TOKEN e = Some token /\ token <> "")
  /\ (Auth.getAuthMethod e = Auth.api_key
      <-> Auth.is_set (Auth.CLAUDE_CODE_OAUTH_TOKEN e) = false
          /\ exists key, Auth.ANTHROPIC_API_KEY e = Some key /\ key <> "").
Proof.
  assert (Hset : forall v,
             Auth.is_set v = true <-> exists s, v = Some s /\ s <> "").
  { intros [s|]; simpl.
    - rewrite negb_true_iff, String.eqb_neq. split.
      + intros H. exists s. auto.
      + intros (s' & H & Hs). now injection H as ->.
    - split; [discriminate|]. intros (s & H & _). discriminate H. }
  unfold Auth.isAuthConfigured, Auth.getAuthMethod.
  rewrite <- !Hset.
  destruct (Auth.is_set (Auth.CLAUDE_CODE_OAUTH_TOKEN e)),
    (Auth.is_set (Auth.ANTHROPIC_API_KEY e)); simpl;
    repeat split; try discriminate; try congruence; try tauto;
    intros [H1 H2]; discriminate.
Qed.

(* ===================================================================== *)
(** * Further properties: the output formatter *)
(* ===================================================================== *)

Section FormatterFacts.
Variable header : OutputFormatter.OutputSection -> string.

Lemma slice_tail_short (n : nat) (t : text) :
  (if n <? length t then OutputFormatter.slice_tail n t else t)
  = OutputFormatter.slice_tail n t.
Proof.
  destruct (n <? length t) eqn:E; [reflexivity|].
  apply Nat.ltb_ge in E. unfold OutputFormatter.slice_tail.
  replace (length t - n) with 0 by lia. reflexivity.
Qed.

Lemma slice_tail_length (n : nat) (t : text) :
  length (OutputFormatter.slice_tail n t) <= n.
Proof. unfold OutputFormatter.slice_tail. rewrite length_skipn. lia. Qed.

Lemma slice_tail_app (n : nat) (a b : text) :
  OutputFormatter.slice_tail n (OutputFormatter.slice_tail n a ++ b)
  = OutputFormatter.slice_tail n (a ++ b).
Proof.
  unfold OutputFormatter.slice_tail.
  destruct (Nat.le_gt_cases (length a) n) as [H|H].
  - replace (length a - n) with 0 by lia. reflexivity.
  - rewrite !skipn_app, skipn_skipn, !length_app, !length_skipn.
    f_equal; f_equal; lia.
Qed.

(** What [formatText] does to the buffer and returns, whatever it
    detects. *)
Lemma formatText_buffer (chunk : string) (st : OutputFormatter.state) :
  OutputFormatter.buffer (fst (OutputFormatter.formatText header chunk st))
  = OutputFormatter.slice_tail OutputFormatter.MAX_BUFFER_SIZE
      (OutputFormatter.buffer st ++ of_string chunk)
  /\ (snd (OutputFormatter.formatText header chunk st) = chunk
      \/ exists s,
           snd (OutputFormatter.formatText header chunk st)
           = (header s ++ chunk)%string).
Proof.
  unfold OutputFormatter.formatText. cbv zeta. rewrite slice_tail_short.
  destruct (OutputFormatter.detectSection _) as [s|]; [|simpl; auto].
  destruct (negb _); simpl; eauto.
Qed.

Lemma feed_cons (chunk : string) (rest : list string)
      (st : OutputFormatter.state) :
  feed header (chunk :: rest) st
  = (fst (feed header rest
            (fst (OutputFormatter.formatText header chunk st))),
     snd (OutputFormatter.formatText header chunk st)
     :: snd (feed header rest
               (fst (OutputFormatter.formatText header chunk st)))).
Proof.
  simpl. destruct (OutputFormatter.formatText header chunk st) as [st1 out].
  simpl. destruct (feed header rest st1); reflexivity.
Qed.

Lemma feed_invariant (chunks : list string) :
  forall st,
    length (OutputFormatter.buffer st) <= OutputFormatter.MAX_BUFFER_SIZE ->
    OutputFormatter.buffer (fst (feed header chunks st))
    = OutputFormatter.slice_tail OutputFormatter.MAX_BUFFER_SIZE
        (OutputFormatter.buffer st ++ stream_text chunks)
    /\ Forall2 (fun chunk out =>
                  out = chunk \/ exists s, out = (header s ++ chunk)%string)
               chunks (snd (feed header chunks st)).
Proof.
  induction chunks as [|chunk rest IH]; intros st Hlen.
  - simpl. unfold stream_text. simpl. rewrite app_nil_r. split.
    + unfold OutputFormatter.slice_tail.
      replace (length (OutputFormatter.buffer st)
               - OutputFormatter.MAX_BUFFER_SIZE) with 0 by lia.
      reflexivity.
    + constructor.
  - rewrite feed_cons. cbn [fst snd].
    destruct (formatText_buffer chunk st) as [Hb Ho].
    destruct (IH (fst (OutputFormatter.formatText header chunk st)))
      as [Hb' Ho'].
    { rewrite Hb. apply slice_tail_length. }
    split.
    + rewrite Hb', Hb, slice_tail_app. unfold stream_text. simpl.
      now rewrite app_assoc.
    + constructor; assumption.
Qed.

End FormatterFacts.

(** X24.  Fed with the chunks of a stream, one after the other, a new
    formatter holds in its buffer exactly the last 500 characters of
    the stream (all of it while it is shorter), however the stream is
    cut into chunks; and each text it returns is the chunk it was
    given, as it is or after one section header: nothing of the stream
    is dropped, changed or reordered. *)
Theorem formatter_buffer_is_the_tail_of_the_stream
        (header : OutputFormatter.OutputSection -> string)
        (chunks : list string) :
  let result := feed header chunks OutputFormatter.initial in
  OutputFormatter.buffer (fst result)
  = OutputFormatter.slice_tail 500 (stream_text chunks)
  /\ length (OutputFormatter.buffer (fst result)) <= 500
  /\ Forall2 (fun chunk out =>
                out = chunk \/ exists s, out = (header s ++ chunk)%string)
             chunks (snd result).
Proof.
  intros result.
  destruct (feed_invariant header chunks OutputFormatter.initial) as [Hb Ho].
  { simpl. unfold OutputFormatter.MAX_BUFFER_SIZE. lia. }
  split; [exact Hb|]. split; [|exact Ho].
  unfold result. rewrite Hb. apply slice_tail_length.
Qed.

Section DetectFacts.

Lemma matches_at_choice (word : string) (choices : list string) (t : text) :
  In word choices ->
  OutputFormatter.matches_at [[word]] t = true ->
  OutputFormatter.matches_at [choices] t = true.
Proof.
  intros Hin H. simpl in *. rewrite orb_false_r in H.
  apply existsb_exists. exists word. auto.
Qed.

Lemma test_choice (word : string) (choices : list string) (t : text) :
  In word choices ->
  OutputFormatter.test [[word]] t = true ->
  OutputFormatter.test [choices] t = true.
Proof.
  intros Hin. induction t as [|c t IH]; intros H;
    cbn [OutputFormatter.test] in *;
    apply orb_true_iff in H; apply orb_true_iff;
    destruct H as [H|H]; try discriminate.
  - left. now apply matches_at_choice with (word := word).
  - left. now apply matches_at_choice with (word := word).
  - right. now apply IH.
Qed.

Lemma detect_exploring (buffer : text) :
  shows_exploring_word buffer ->
  OutputFormatter.detectSection buffer = Some OutputFormatter.EXPLORING.
Proof.
  intros (word & Hin & H).
  apply test_choice with (choices := ["Reading"; "Examining"; "Exploring";
                                      "Checking"]) in H; [|exact Hin].
  unfold OutputFormatter.detectSection, OutputFormatter.SECTION_PATTERNS.
  cbn [find snd existsb]. rewrite H.
  rewrite !orb_true_r. reflexivity.
Qed.

End DetectFacts.

(** X25.  The sections are tried in a fixed order and against the whole
    buffer, so the exploring section hides the others: as long as one
    of the words Reading, Examining, Exploring, Checking (in any letter
    case) is among the last 500 characters, [formatText] sets the
    section to exploring, returns the chunk unchanged when the section
    was exploring already, and returns no header of another section,
    whatever the chunk itself says. *)
Theorem exploring_word_in_buffer_hides_other_sections
        (header : OutputFormatter.OutputSection -> string)
        (chunk : string) (st : OutputFormatter.state) :
  let buffer :=
    OutputFormatter.slice_tail 500
      (OutputFormatter.buffer st ++ of_string chunk) in
  shows_exploring_word buffer ->
  OutputFormatter.formatText header chunk st
  = ({| OutputFormatter.currentSection := Some OutputFormatter.EXPLORING;
        OutputFormatter.buffer := buffer |},
     match OutputFormatter.currentSection st with
     | Some OutputFormatter.EXPLORING => chunk
     | _ => (header OutputFormatter.EXPLORING ++ chunk)%string
     end).
Proof.
  intros buffer H. unfold OutputFormatter.formatText. cbv zeta.
  rewrite slice_tail_short.
  change OutputFormatter.MAX_BUFFER_SIZE with 500. fold buffer.
  rewrite (detect_exploring buffer H).
  destruct (OutputFormatter.currentSection st) as [[| | |]|]; reflexivity.
Qed.

(** The stream said it was reading a file, and now says it is running
    the tests: no header for the commands. *)
Lemma exploring_word_in_buffer_hides_other_sections_witness :
  OutputFormatter.formatText (fun _ => "# ") "Running the tests now."
    {| OutputFormatter.currentSection := Some OutputFormatter.EXPLORING;
       OutputFormatter.buffer := of_string "Reading src/index.ts. " |}
  = ({| OutputFormatter.currentSection := Some OutputFormatter.EXPLORING;
        OutputFormatter.buffer :=
          of_string "Reading src/index.ts. Running the tests now." |},
     "Running the tests now.").
Proof.
  apply (exploring_word_in_buffer_hides_other_sections (fun _ => "# ")
           "Running the tests now."
           {| OutputFormatter.currentSection := Some OutputFormatter.EXPLORING;
              OutputFormatter.buffer := of_string "Reading src/index.ts. " |}).
  exists "Reading". split; [now left|]. vm_compute. reflexivity.
Defined.
